(** * RAxML-NG: the per-worker likelihood state (TreeInfo) and its driver

    A shallow embedding of [src/TreeInfo.cpp]: the binding between a worker's
    share of the partitioned alignment and the likelihood kernel (libpll /
    pll-modules), the optimisation entry points of [TreeInfo], and the parts
    of the driver that validate the alignment, re-balance bootstrap
    replicates and check the number of patterns per thread.

    Conventions.
    - [size_t] and [unsigned int] values are integers in [Z]; where the
      source computes with them the wrap-around modulo [2^64] is written out.
    - [double] values are IEEE-754 binary64 numbers ([spec_float] at
      precision 53 and maximal exponent 1024).
    - A C++ exception is the [Throw] result of the [result] monad.
    - The likelihood kernel is an external collaborator.  Its constants are
      the fields of the class [PllConstants]; its operations on a tree-info
      structure are the fields of the class [LikelihoodKernel]. *)

From Stdlib Require Import ZArith String Ascii.
From Stdlib Require Import Floats.SpecFloat.
From stdpp Require Import base list list_numbers gmap strings.
From stdpp Require Import pretty.

Local Open Scope Z_scope.

(** ** Machine numbers *)

Definition size_t_range : Z := 2 ^ 64.

(** Arithmetic on [size_t] wraps around. *)
Definition wrap (z : Z) : Z := z mod size_t_range.

Definition double : Type := spec_float.

Definition dmul (x y : double) : double := SFmul 53 1024 x y.
Definition ddiv (x y : double) : double := SFdiv 53 1024 x y.
Definition dadd (x y : double) : double := SFadd 53 1024 x y.
Definition dltb (x y : double) : bool := SFltb x y.

Definition dzero : double := S754_zero false.
Definition d_one : double := SFone 53 1024.
Definition dminus_one : double := SFopp d_one.

(** Conversion of an integer to [double] (round to nearest even). *)
Definition double_of_Z (z : Z) : double := binary_normalize 53 1024 z 0 false.

(** Contextual conversion of a [double] to [bool]: everything but a zero is
    true (a NaN compares unequal to zero, so it is true as well). *)
Definition double_to_bool (x : double) : bool := negb (SFeqb x dzero).

(** Conversion of a finite non-negative [double] to [size_t]: truncation
    toward zero.  (Other values are undefined in C++; they are sent to 0.) *)
Definition size_t_of_double (x : double) : Z :=
  match x with
  | S754_finite false m e =>
      if 0 <=? e then wrap (Z.pos m * 2 ^ e) else Z.pos m / 2 ^ (- e)
  | _ => 0
  end.

(** [std::count_if] *)
Fixpoint count_if {A} (p : A → bool) (l : list A) : Z :=
  match l with
  | [] => 0
  | x :: l' => (if p x then 1 else 0) + count_if p l'
  end.

(** ** Exceptions *)

Inductive exn : Type :=
| runtime_error (what : string)
| out_of_range (what : string).

Inductive result (A : Type) : Type :=
| Ok (a : A)
| Throw (e : exn).
Arguments Ok {A} a.
Arguments Throw {A} e.

Global Instance result_ret : MRet result := fun A a => Ok a.

Global Instance result_bind : MBind result := fun A B k m =>
  match m with
  | Ok a => k a
  | Throw e => Throw e
  end.

Definition is_ok {A} (m : result A) : bool :=
  match m with Ok _ => true | Throw _ => false end.

Definition throws {A} (m : result A) : bool := negb (is_ok m).

(** ** Data model *)

Inductive AscBiasCorrection : Type :=
| asc_none | asc_lewis | asc_felsenstein | asc_stamatakis.

Global Instance AscBiasCorrection_eq_dec : EqDecision AscBiasCorrection.
Proof. solve_decision. Defined.

(** Constants of the likelihood kernel's headers, which are not part of the
    sources at hand.  [ascbias_attr] is the cast
    [(unsigned int) model.ascbias_type()]. *)
Class PllConstants : Type := {
  PLL_ATTRIB_RATE_SCALERS : Z;
  PLL_ATTRIB_PATTERN_TIP : Z;
  PLL_ATTRIB_SITE_REPEATS : Z;
  PLL_ATTRIB_AB_FLAG : Z;
  ascbias_attr : AscBiasCorrection → Z;
  PLLMOD_OPT_PARAM_SUBST_RATES : Z;
  PLLMOD_OPT_PARAM_FREQUENCIES : Z;
  PLLMOD_OPT_PARAM_ALPHA : Z;
  PLLMOD_OPT_PARAM_PINV : Z;
  PLLMOD_OPT_PARAM_FREE_RATES : Z;
  PLLMOD_OPT_PARAM_BRANCHES_ITERATIVE : Z;
  PLLMOD_OPT_PARAM_BRANCH_LEN_SCALER : Z;
  PLLMOD_TREE_BRLEN_SCALED : Z;
}.

(** Modelled from the spec: PartitionRange is "(partition id, start offset,
    length, master flag)"; the class declaration is not part of the sources
    at hand. *)
Module PartitionRange.
Record t : Type := mk {
  part_id : Z;
  start : Z;
  length : Z;
  master : bool;
}.
End PartitionRange.

(** Modelled from the spec: an Assignment maps a worker to its "ordered set
    of PartitionRange"; [find] looks a partition up by its id. *)
Definition PartitionAssignment : Type := list PartitionRange.t.

Definition PartitionAssignment_find (part_assign : PartitionAssignment) (p : Z)
  : option PartitionRange.t :=
  List.find (fun r => PartitionRange.part_id r =? p) part_assign.

Record Model : Type := {
  num_states : Z;
  num_ratecats : Z;
  num_submodels : Z;
  ascbias_type : AscBiasCorrection;
  ascbias_weights : list Z;
  model_alpha : double;
  model_brlen_scaler : double;
  model_params_to_optimize : Z;
  gamma_mode : Z;
  (** everything [assign(partition, model)] copies: rates, frequencies, ... *)
  model_params : list double;
}.

Record MSA : Type := {
  labels : list string;
  sequences : list (list ascii);
  msa_weights : list Z;
  msa_length : Z;
  probabilistic : bool;
  normalized : bool;
  (** per sequence, the state probabilities site by site *)
  probs : list (list double);
}.

(** [msa.size()] *)
Definition msa_size (msa : MSA) : Z := Z.of_nat (length (sequences msa)).

Record PartitionInfo : Type := {
  pinfo_msa : MSA;
  pinfo_model : Model;
}.

Record Options : Type := {
  simd_arch : Z;
  use_rate_scalers : bool;
  use_tip_inner : bool;
  use_repeats : bool;
  use_prob_msa : bool;
  use_pattern_compression : bool;
  optimize_model : bool;
  optimize_brlen : bool;
  brlen_linkage : Z;
  force_mode : bool;
}.

(** The shape of the tree over a given number of tips: [BasicTree] is not
    part of the sources at hand, so its counts are parameters. *)
Class BasicTree : Type := {
  num_inner : Z → Z;
  num_branches : Z → Z;
}.

(** ** The kernel's partition object

    What the kernel holds for one partition after the calls made by
    [create_pll_partition]: the arguments of [pll_partition_create] and the
    data handed over by the setters. *)

Inductive tip_data : Type :=
| TipStates (chars : list ascii)
| TipClv (clv : list double).

Record pll_partition_t : Type := {
  tips : Z;
  clv_buffers : Z;
  states : Z;
  sites : Z;
  rate_matrices : Z;
  prob_matrices : Z;
  rate_cats : Z;
  scale_buffers : Z;
  attributes : Z;
  pattern_weights : option (list Z);
  asc_state_weights : option (list Z);
  tip : list (Z * tip_data);
  partition_params : option (list double);
}.

(** The setters of the kernel read [sites] entries from the pointer they are
    given. *)
Definition pll_set_pattern_weights (partition : pll_partition_t) (w : list Z)
  : pll_partition_t :=
  {| tips := tips partition; clv_buffers := clv_buffers partition;
     states := states partition; sites := sites partition;
     rate_matrices := rate_matrices partition;
     prob_matrices := prob_matrices partition;
     rate_cats := rate_cats partition; scale_buffers := scale_buffers partition;
     attributes := attributes partition;
     pattern_weights := Some (take (Z.to_nat (sites partition)) w);
     asc_state_weights := asc_state_weights partition;
     tip := tip partition;
     partition_params := partition_params partition |}.

Definition pll_set_asc_state_weights (partition : pll_partition_t) (w : list Z)
  : pll_partition_t :=
  {| tips := tips partition; clv_buffers := clv_buffers partition;
     states := states partition; sites := sites partition;
     rate_matrices := rate_matrices partition;
     prob_matrices := prob_matrices partition;
     rate_cats := rate_cats partition; scale_buffers := scale_buffers partition;
     attributes := attributes partition;
     pattern_weights := pattern_weights partition;
     asc_state_weights := Some w;
     tip := tip partition;
     partition_params := partition_params partition |}.

Definition set_tip (partition : pll_partition_t) (i : Z) (d : tip_data)
  : pll_partition_t :=
  {| tips := tips partition; clv_buffers := clv_buffers partition;
     states := states partition; sites := sites partition;
     rate_matrices := rate_matrices partition;
     prob_matrices := prob_matrices partition;
     rate_cats := rate_cats partition; scale_buffers := scale_buffers partition;
     attributes := attributes partition;
     pattern_weights := pattern_weights partition;
     asc_state_weights := asc_state_weights partition;
     tip := tip partition ++ [(i, d)];
     partition_params := partition_params partition |}.

Definition pll_set_tip_states (partition : pll_partition_t) (i : Z)
    (chars : list ascii) : pll_partition_t :=
  set_tip partition i (TipStates (take (Z.to_nat (sites partition)) chars)).

Definition pll_set_tip_clv (partition : pll_partition_t) (i : Z)
    (clv : list double) : pll_partition_t :=
  set_tip partition i
    (TipClv (take (Z.to_nat (sites partition * states partition)) clv)).

(** Modelled from the spec: [assign(pll_partition_t*, const Model&)] is not
    part of the sources at hand.  It is taken to do what its callers use it
    for: it overwrites the model parameters the partition holds (rates,
    frequencies, ...) with those of the model and leaves the rest of the
    partition as it is. *)
Definition assign_partition (partition : pll_partition_t) (model : Model)
  : pll_partition_t :=
  {| tips := tips partition; clv_buffers := clv_buffers partition;
     states := states partition; sites := sites partition;
     rate_matrices := rate_matrices partition;
     prob_matrices := prob_matrices partition;
     rate_cats := rate_cats partition; scale_buffers := scale_buffers partition;
     attributes := attributes partition;
     pattern_weights := pattern_weights partition;
     asc_state_weights := asc_state_weights partition;
     tip := tip partition;
     partition_params := Some (model_params model) |}.

Global Instance ascii_inhabited : Inhabited ascii := populate Ascii.zero.

(** [v[j]] for a [size_t] index [j]. *)
Definition at_ {A} `{Inhabited A} (v : list A) (j : Z) : A := v !!! Z.to_nat j.

(** ** [build_clv]

    The entries written to [clv], in order.  (The closing assertion of the
    source, that the vector has been filled, is not part of the model.) *)

Fixpoint build_clv (probs : list double) (sites : nat) (weights : list Z)
    (states : nat) (normalize : bool) : list double :=
  match sites with
  | O => []
  | S sites' =>
      let rest :=
        build_clv (drop states probs) sites' (drop 1 weights) states normalize in
      if 0 <? at_ weights 0 then
        let site_probs := take states probs in
        let sum := foldl dadd dzero site_probs in
        ((fun p => if dltb dzero sum
                   then (if normalize then ddiv p sum else p)
                   else d_one) <$> site_probs) ++ rest
      else rest
  end.

(** ** [set_partition_tips] and [create_pll_partition] *)

(** [vec.empty()] *)
Definition empty_vec {A} (v : list A) : bool :=
  match v with [] => true | _ => false end.

Definition nl : string := String (ascii_of_nat 10) EmptyString.

(** The kernel's verdict on the arguments of [pll_partition_create]: the
    text of [pll_errmsg] when it returns a null pointer. *)
Class PartitionKernel : Type := {
  pll_partition_create_error : pll_partition_t → option string;
}.

Section CreatePartition.
Context {constants : PllConstants} {shape : BasicTree}
        {pkernel : PartitionKernel}.

Definition pll_partition_create
    (tips clv_buffers states sites rate_matrices prob_matrices rate_cats
     scale_buffers attributes : Z) : option pll_partition_t :=
  let partition :=
    {| tips := tips; clv_buffers := clv_buffers; states := states;
       sites := sites; rate_matrices := rate_matrices;
       prob_matrices := prob_matrices; rate_cats := rate_cats;
       scale_buffers := scale_buffers; attributes := attributes;
       pattern_weights := None; asc_state_weights := None; tip := [];
       partition_params := None |} in
  match pll_partition_create_error partition with
  | Some _ => None
  | None => Some partition
  end.

(** [pll_errmsg] after a failed [pll_partition_create]. *)
Definition pll_partition_create_errmsg
    (tips clv_buffers states sites rate_matrices prob_matrices rate_cats
     scale_buffers attributes : Z) : string :=
  default EmptyString
    (pll_partition_create_error
       {| tips := tips; clv_buffers := clv_buffers; states := states;
          sites := sites; rate_matrices := rate_matrices;
          prob_matrices := prob_matrices; rate_cats := rate_cats;
          scale_buffers := scale_buffers; attributes := attributes;
          pattern_weights := None; asc_state_weights := None; tip := [];
          partition_params := None |}).

(** The first overload: every site of the range is handed to the kernel. *)
Definition set_partition_tips (opts : Options) (msa : MSA)
    (part_region : PartitionRange.t) (partition : pll_partition_t)
  : pll_partition_t :=
  let start := Z.to_nat (PartitionRange.start part_region) in
  (* set pattern weights *)
  let partition :=
    if negb (empty_vec (msa_weights msa))
    then pll_set_pattern_weights partition (drop start (msa_weights msa))
    else partition in
  if use_prob_msa opts && probabilistic msa then
    let normalize := negb (normalized msa) in
    let weights_start := drop start (msa_weights msa) in
    let clv_size := Z.to_nat (sites partition * states partition) in
    foldl (fun partition i =>
             let prob_start :=
               drop (start * Z.to_nat (states partition)) (at_ (probs msa) i) in
             let tmp_clv :=
               resize clv_size dzero
                 (build_clv prob_start (Z.to_nat (sites partition))
                    weights_start (Z.to_nat (states partition)) normalize) in
             pll_set_tip_clv partition i tmp_clv)
          partition (seqZ 0 (msa_size msa))
  else
    foldl (fun partition i =>
             pll_set_tip_states partition i (drop start (at_ (sequences msa) i)))
          partition (seqZ 0 (msa_size msa)).

(** compress weights array by removing all zero entries *)
Definition comp_weights (weights : list Z) (pstart pend : Z) : list Z :=
  foldl (fun comp_weights j =>
           if 0 <? at_ weights j then comp_weights ++ [at_ weights j]
           else comp_weights)
        [] (seqZ pstart (pend - pstart)).

(** The inner loop over the columns of one sequence: the characters written
    to [bs_seq[0 .. pos)]. *)
Definition bs_seq (full_seq : list ascii) (weights : list Z) (pstart pend : Z)
  : list ascii :=
  foldl (fun bs_seq j =>
           if 0 <? at_ weights j then bs_seq ++ [at_ full_seq j] else bs_seq)
        [] (seqZ pstart (pend - pstart)).

(** The second overload: columns of weight zero are left out. *)
Definition set_partition_tips_weights (opts : Options) (msa : MSA)
    (part_region : PartitionRange.t) (partition : pll_partition_t)
    (weights : list Z) : pll_partition_t :=
  let pstart := PartitionRange.start part_region in
  let pend := wrap (PartitionRange.start part_region
                    + PartitionRange.length part_region) in
  let comp_weights := comp_weights weights pstart pend in
  let length := Z.to_nat (PartitionRange.length part_region) in
  (* now set tip sequences, ignoring all columns with zero weights *)
  let partition :=
    if use_prob_msa opts && probabilistic msa then
      let normalize := negb (normalized msa) in
      let weights_start := drop (Z.to_nat pstart) (msa_weights msa) in
      let clv_size :=
        Z.to_nat (wrap (PartitionRange.length part_region * states partition)) in
      foldl (fun partition i =>
               let prob_start :=
                 drop (Z.to_nat pstart * Z.to_nat (states partition))
                      (at_ (probs msa) i) in
               let tmp_clv :=
                 resize clv_size dzero
                   (build_clv prob_start length weights_start
                      (Z.to_nat (states partition)) normalize) in
               pll_set_tip_clv partition i tmp_clv)
            partition (seqZ 0 (msa_size msa))
    else
      foldl (fun partition i =>
               let full_seq := at_ (sequences msa) i in
               let buffer :=
                 resize length Ascii.zero (bs_seq full_seq weights pstart pend) in
               pll_set_tip_states partition i buffer)
            partition (seqZ 0 (msa_size msa)) in
  pll_set_pattern_weights partition comp_weights.

(** Lines 429-466: the attribute word of the partition. *)
Definition partition_attributes (opts : Options) (pinfo : PartitionInfo)
    (part_region : PartitionRange.t) : result Z :=
  let msa := pinfo_msa pinfo in
  let model := pinfo_model pinfo in
  let attrs := simd_arch opts in
  attrs ←
    (if use_rate_scalers opts && (1 <? num_ratecats model) then
       if negb (num_states model =? 4) then
         Throw (runtime_error
                  ("Per-rate scalers are implemented for DNA data only!" +:+ nl))
       else Ok (Z.lor attrs PLL_ATTRIB_RATE_SCALERS)
     else Ok attrs);
  let attrs :=
    if use_tip_inner opts && (100 <? msa_length msa)
    then Z.lor attrs PLL_ATTRIB_PATTERN_TIP else attrs in
  attrs ←
    (if use_repeats opts then
       if use_tip_inner opts then
         Throw (runtime_error
                  ("Repeats and tip-inner optimizations are incompatible" +:+ nl))
       else Ok (if 16 <? msa_length msa
                then Z.lor attrs PLL_ATTRIB_SITE_REPEATS else attrs)
     else Ok attrs);
  (* NOTE: if partition is split among multiple threads, asc. bias
     correction must be applied only once! *)
  if bool_decide (ascbias_type model = asc_lewis)
     || (bool_decide (ascbias_type model ≠ asc_none)
         && PartitionRange.master part_region)
  then Ok (Z.lor (Z.lor attrs PLL_ATTRIB_AB_FLAG)
                 (ascbias_attr (ascbias_type model)))
  else Ok attrs.

(** part_length doesn't include columns with zero weight *)
Definition part_length (part_region : PartitionRange.t) (weights : list Z) : Z :=
  if empty_vec weights then PartitionRange.length part_region
  else count_if (fun w => 0 <? w)
         (take (Z.to_nat (PartitionRange.length part_region))
            (drop (Z.to_nat (PartitionRange.start part_region)) weights)).

(** Which overload of [set_partition_tips] line 495 selects. *)
Definition skips_zero_weights (part_region : PartitionRange.t)
    (weights : list Z) : bool :=
  negb (part_length part_region weights =? PartitionRange.length part_region).

Definition create_pll_partition (opts : Options) (pinfo : PartitionInfo)
    (part_region : PartitionRange.t) (weights : list Z)
  : result pll_partition_t :=
  let msa := pinfo_msa pinfo in
  let model := pinfo_model pinfo in
  attrs ← partition_attributes opts pinfo part_region;
  let part_length := part_length part_region weights in
  let tree_tips := msa_size msa in
  match pll_partition_create
          tree_tips (num_inner tree_tips) (num_states model) part_length
          (num_submodels model) (num_branches tree_tips) (num_ratecats model)
          (num_inner tree_tips) attrs with
  | None =>
      Throw (runtime_error
               ("ERROR creating pll_partition: " +:+
                pll_partition_create_errmsg
                  tree_tips (num_inner tree_tips) (num_states model) part_length
                  (num_submodels model) (num_branches tree_tips)
                  (num_ratecats model) (num_inner tree_tips) attrs))
  | Some partition =>
      let partition :=
        if PartitionRange.master part_region
           && negb (empty_vec (ascbias_weights model))
        then pll_set_asc_state_weights partition (ascbias_weights model)
        else partition in
      let partition :=
        if part_length =? PartitionRange.length part_region
        then set_partition_tips opts msa part_region partition
        else set_partition_tips_weights opts msa part_region partition weights in
      Ok (assign_partition partition model)
  end.

End CreatePartition.

(** ** The likelihood kernel seen from [TreeInfo] *)

(** Constants of [common.h], which is not part of the sources at hand. *)
Class RaxmlConstants : Type := {
  RAXML_BRLEN_MIN : double;
  RAXML_BRLEN_MAX : double;
  RAXML_BRLEN_SMOOTHINGS : Z;
  RAXML_BRLEN_SCALER_MIN : double;
  RAXML_BRLEN_SCALER_MAX : double;
  RAXML_PARAM_EPSILON : double;
  RAXML_BFGS_FACTOR : double;
  RAXML_FREERATE_MIN : double;
  RAXML_FREERATE_MAX : double;
  PLLMOD_OPT_MIN_SUBST_RATE : double;
  PLLMOD_OPT_MAX_SUBST_RATE : double;
  PLLMOD_OPT_MIN_FREQ : double;
  PLLMOD_OPT_MAX_FREQ : double;
  PLLMOD_OPT_MIN_ALPHA : double;
  PLLMOD_OPT_MAX_ALPHA : double;
  PLLMOD_OPT_MIN_PINV : double;
  PLLMOD_OPT_MAX_PINV : double;
  RAXML_RATESCALERS_TAXA : Z;
}.

(** Conversion of a [double] to [int]: truncation toward zero. *)
Definition int_of_double (x : double) : Z :=
  match x with
  | S754_finite s m e =>
      let a := if 0 <=? e then Z.pos m * 2 ^ e else Z.pos m / 2 ^ (- e) in
      if s then - a else a
  | _ => 0
  end.

Definition d0_25 : double := Eval vm_compute in ddiv d_one (double_of_Z 4).
Definition d0_1 : double := Eval vm_compute in ddiv d_one (double_of_Z 10).

(** The calls into the kernel that compute or optimise on a tree-info
    structure, with the arguments [TreeInfo] passes. *)
Inductive kernel_call : Type :=
| pllmod_treeinfo_compute_loglh (incremental : Z)
| pllmod_opt_optimize_branch_lengths_local_multi
    (brlen_min brlen_max lh_epsilon : double) (max_iters radius keep_update : Z)
| pllmod_algo_opt_onedim_treeinfo (param : Z) (min_value max_value tol : double)
| pllmod_algo_opt_subst_rates_treeinfo
    (params_index : Z) (min_rate max_rate bfgs_factor tol : double)
| pllmod_algo_opt_frequencies_treeinfo
    (params_index : Z) (min_freq max_freq bfgs_factor tol : double)
| pllmod_algo_opt_rates_weights_treeinfo
    (min_rate max_rate bfgs_factor tol : double)
| pllmod_treeinfo_normalize_brlen_scalers
| pllmod_algo_spr_round
    (radius_min radius_max ntopol_keep thorough : Z)
    (brlen_min brlen_max : double) (smoothings : Z) (epsilon : double)
    (cutoff_info : bool) (subtree_cutoff : double).

(** The tree-info structure.  The first five fields are fixed once the
    structure is initialised; the others are rewritten by the kernel. *)
Record pllmod_treeinfo_t {pll_utree : Type} : Type := {
  tip_count : Z;
  partition_count : Z;
  treeinfo_brlen_linkage : Z;
  params_to_optimize : list Z;
  parallel_reduce_cb : bool;
  partitions : list (option pll_partition_t);
  alphas : list double;
  brlen_scalers : option (list double);
  root : pll_utree;
}.
Arguments pllmod_treeinfo_t : clear implicits.

(** What a kernel call may rewrite, together with its return value and the
    kernel's error indicator. *)
Record kernel_reply {pll_utree : Type} : Type := {
  reply_value : double;
  reply_partitions : list (option pll_partition_t);
  reply_alphas : list double;
  reply_brlen_scalers : option (list double);
  reply_root : pll_utree;
  reply_errno : Z;
  reply_errmsg : string;
}.
Arguments kernel_reply : clear implicits.

Class LikelihoodKernel : Type := {
  pll_utree : Type;
  (** [pll_errmsg] when [pllmod_treeinfo_create] returns a null pointer *)
  pllmod_treeinfo_create_error : pll_utree → Z → Z → Z → option string;
  (** whether a fresh tree-info structure carries branch-length scalers *)
  treeinfo_has_brlen_scalers : Z → Z → bool;
  (** [pll_errmsg] when [pllmod_treeinfo_init_partition] returns failure *)
  pllmod_treeinfo_init_partition_error :
    pllmod_treeinfo_t pll_utree → Z → pll_partition_t → Z → Z → double
    → option string;
  (** the computing and optimising calls *)
  kernel_exec :
    kernel_call → pllmod_treeinfo_t pll_utree → Z → string
    → kernel_reply pll_utree;
}.

Record ParallelContext : Type := {
  num_procs : Z;
  num_threads : Z;
  master_rank : bool;
}.

(** [flags & bit] as a condition *)
Definition flag_set (flags bit : Z) : bool := negb (Z.land flags bit =? 0).

Section TreeInfo.
Context {constants : PllConstants} {raxml : RaxmlConstants}
        {shape : BasicTree} {pkernel : PartitionKernel}
        {kernel : LikelihoodKernel}.

Record Tree : Type := {
  pll_utree_root : pll_utree;
  num_tips : Z;
}.

(** Everything a [TreeInfo] method reads or writes: the object's members,
    the kernel's global error indicator, and (for reasoning only) the list
    of kernel calls made so far, oldest first. *)
Record TreeInfo : Type := {
  _pll_treeinfo : pllmod_treeinfo_t pll_utree;
  _parts_master : gset Z;
  pll_errno : Z;
  pll_errmsg : string;
  kernel_calls : list kernel_call;
}.

(** Methods run in a state monad whose state survives an exception. *)
Definition M (A : Type) : Type := TreeInfo → result A * TreeInfo.

Global Instance M_ret : MRet M := fun A a t => (Ok a, t).

Global Instance M_bind : MBind M := fun A B k m t =>
  match m t with
  | (Ok a, t') => k a t'
  | (Throw e, t') => (Throw e, t')
  end.

Definition throw {A} (e : exn) : M A := fun t => (Throw e, t).
Definition get : M TreeInfo := fun t => (Ok t, t).

(** One call into the kernel. *)
Definition call (c : kernel_call) : M double := fun t =>
  let ti := _pll_treeinfo t in
  let r := kernel_exec c ti (pll_errno t) (pll_errmsg t) in
  (Ok (reply_value r),
   {| _pll_treeinfo :=
        {| tip_count := tip_count ti;
           partition_count := partition_count ti;
           treeinfo_brlen_linkage := treeinfo_brlen_linkage ti;
           params_to_optimize := params_to_optimize ti;
           parallel_reduce_cb := parallel_reduce_cb ti;
           partitions := reply_partitions r;
           alphas := reply_alphas r;
           brlen_scalers := reply_brlen_scalers r;
           root := reply_root r |};
      _parts_master := _parts_master t;
      pll_errno := reply_errno r;
      pll_errmsg := reply_errmsg r;
      kernel_calls := kernel_calls t ++ [c] |}).

Definition loglh (incremental : bool) : M double :=
  call (pllmod_treeinfo_compute_loglh (if incremental then 1 else 0)).

(** [TreeInfo::model(size_t, const Model&)] *)
Definition model (partition_id : Z) (model : Model) : M unit := fun t =>
  let ti := _pll_treeinfo t in
  if partition_count ti <=? partition_id then
    (Throw (out_of_range "Partition ID out of range"), t)
  else
    match at_ (partitions ti) partition_id with
    | None => (Ok (), t)
    | Some partition =>
        let i := Z.to_nat partition_id in
        (Ok (),
         {| _pll_treeinfo :=
              {| tip_count := tip_count ti;
                 partition_count := partition_count ti;
                 treeinfo_brlen_linkage := treeinfo_brlen_linkage ti;
                 params_to_optimize := params_to_optimize ti;
                 parallel_reduce_cb := parallel_reduce_cb ti;
                 partitions :=
                   <[i := Some (assign_partition partition model)]>
                     (partitions ti);
                 alphas := <[i := model_alpha model]> (alphas ti);
                 brlen_scalers :=
                   match brlen_scalers ti with
                   | Some s => Some (<[i := model_brlen_scaler model]> s)
                   | None => None
                   end;
                 root := root ti |};
            _parts_master := _parts_master t;
            pll_errno := pll_errno t;
            pll_errmsg := pll_errmsg t;
            kernel_calls := kernel_calls t |})
    end.

Definition scaled_multi (ti : pllmod_treeinfo_t pll_utree) : bool :=
  (treeinfo_brlen_linkage ti =? PLLMOD_TREE_BRLEN_SCALED)
  && (1 <? partition_count ti).

(** [TreeInfo::optimize_branches] *)
Definition optimize_branches (lh_epsilon brlen_smooth_factor : double)
  : M double :=
  (* update all CLVs and p-matrices before calling BLO *)
  new_loglh ← loglh false;
  t ← get;
  new_loglh ←
    (if flag_set (at_ (params_to_optimize (_pll_treeinfo t)) 0)
                 PLLMOD_OPT_PARAM_BRANCHES_ITERATIVE
     then
       v ← call (pllmod_opt_optimize_branch_lengths_local_multi
                   RAXML_BRLEN_MIN RAXML_BRLEN_MAX lh_epsilon
                   (int_of_double
                      (dmul brlen_smooth_factor
                            (double_of_Z RAXML_BRLEN_SMOOTHINGS)))
                   (-1) 1);
       t ← get;
       if negb (pll_errno t =? 0) then
         throw (runtime_error
                  ("ERROR in branch lenght optimization: " +:+ pll_errmsg t))
       else mret (dmul dminus_one v)
     else mret new_loglh);
  (* optimize brlen scalers, if needed *)
  t ← get;
  if scaled_multi (_pll_treeinfo t) then
    v ← call (pllmod_algo_opt_onedim_treeinfo
                PLLMOD_OPT_PARAM_BRANCH_LEN_SCALER
                RAXML_BRLEN_SCALER_MIN RAXML_BRLEN_SCALER_MAX
                RAXML_PARAM_EPSILON);
    (* normalize scalers and scale the branches accordingly *)
    _ ← call pllmod_treeinfo_normalize_brlen_scalers;
    mret (dmul dminus_one v)
  else mret new_loglh.

(** [TreeInfo::optimize_params].  The local [new_loglh] is not
    initialised in the source; [indeterminate] stands for what it holds
    before the first assignment. *)
Definition optimize_params (params_to_optimize : Z) (lh_epsilon : double)
    (indeterminate : double) : M double :=
  let new_loglh := indeterminate in
  (* optimize SUBSTITUTION RATES *)
  new_loglh ←
    (if flag_set params_to_optimize PLLMOD_OPT_PARAM_SUBST_RATES then
       v ← call (pllmod_algo_opt_subst_rates_treeinfo 0
                   PLLMOD_OPT_MIN_SUBST_RATE PLLMOD_OPT_MAX_SUBST_RATE
                   RAXML_BFGS_FACTOR RAXML_PARAM_EPSILON);
       mret (dmul dminus_one v)
     else mret new_loglh);
  (* optimize BASE FREQS *)
  new_loglh ←
    (if flag_set params_to_optimize PLLMOD_OPT_PARAM_FREQUENCIES then
       v ← call (pllmod_algo_opt_frequencies_treeinfo 0
                   PLLMOD_OPT_MIN_FREQ PLLMOD_OPT_MAX_FREQ
                   RAXML_BFGS_FACTOR RAXML_PARAM_EPSILON);
       mret (dmul dminus_one v)
     else mret new_loglh);
  (* optimize ALPHA *)
  new_loglh ←
    (if flag_set params_to_optimize PLLMOD_OPT_PARAM_ALPHA then
       v ← call (pllmod_algo_opt_onedim_treeinfo PLLMOD_OPT_PARAM_ALPHA
                   PLLMOD_OPT_MIN_ALPHA PLLMOD_OPT_MAX_ALPHA
                   RAXML_PARAM_EPSILON);
       mret (dmul dminus_one v)
     else mret new_loglh);
  new_loglh ←
    (if flag_set params_to_optimize PLLMOD_OPT_PARAM_PINV then
       v ← call (pllmod_algo_opt_onedim_treeinfo PLLMOD_OPT_PARAM_PINV
                   PLLMOD_OPT_MIN_PINV PLLMOD_OPT_MAX_PINV
                   RAXML_PARAM_EPSILON);
       mret (dmul dminus_one v)
     else mret new_loglh);
  (* optimize FREE RATES and WEIGHTS *)
  new_loglh ←
    (if flag_set params_to_optimize PLLMOD_OPT_PARAM_FREE_RATES then
       v ← call (pllmod_algo_opt_rates_weights_treeinfo
                   RAXML_FREERATE_MIN RAXML_FREERATE_MAX
                   RAXML_BFGS_FACTOR RAXML_PARAM_EPSILON);
       (* normalize scalers and scale the branches accordingly *)
       t ← get;
       _ ← (if scaled_multi (_pll_treeinfo t)
            then call pllmod_treeinfo_normalize_brlen_scalers
            else mret dzero);
       mret (dmul dminus_one v)
     else mret new_loglh);
  if flag_set params_to_optimize PLLMOD_OPT_PARAM_BRANCHES_ITERATIVE then
    optimize_branches lh_epsilon d0_25
  else mret new_loglh.

Record spr_round_params : Type := {
  radius_min : Z;
  radius_max : Z;
  ntopol_keep : Z;
  thorough : Z;
  subtree_cutoff : double;
}.

(** [TreeInfo::spr_round] *)
Definition spr_round (params : spr_round_params) : M double :=
  loglh ← call (pllmod_algo_spr_round
                  (radius_min params) (radius_max params)
                  (ntopol_keep params) (thorough params)
                  RAXML_BRLEN_MIN RAXML_BRLEN_MAX RAXML_BRLEN_SMOOTHINGS
                  d0_1
                  (dltb dzero (subtree_cutoff params))
                  (subtree_cutoff params));
  t ← get;
  if double_to_bool loglh then mret loglh
  else throw (runtime_error ("ERROR in SPR round: " +:+ pll_errmsg t)).

End TreeInfo.

(** ** [TreeInfo::init] *)

Section Init.
Context {constants : PllConstants} {raxml : RaxmlConstants}
        {shape : BasicTree} {pkernel : PartitionKernel}
        {kernel : LikelihoodKernel}.

(** A fresh tree-info structure: no partition in any slot. *)
Definition pllmod_treeinfo_create (root : pll_utree)
    (tips part_count brlen_linkage : Z)
  : option (pllmod_treeinfo_t pll_utree) :=
  match pllmod_treeinfo_create_error root tips part_count brlen_linkage with
  | Some _ => None
  | None =>
      let n := Z.to_nat part_count in
      Some {| tip_count := tips;
              partition_count := part_count;
              treeinfo_brlen_linkage := brlen_linkage;
              params_to_optimize := replicate n 0;
              parallel_reduce_cb := false;
              partitions := replicate n None;
              alphas := replicate n dzero;
              brlen_scalers :=
                if treeinfo_has_brlen_scalers brlen_linkage part_count
                then Some (replicate n d_one) else None;
              root := root |}
  end.

(** The kernel stores the partition, the flags and alpha in slot [p]. *)
Definition pllmod_treeinfo_init_partition (ti : pllmod_treeinfo_t pll_utree)
    (p : Z) (partition : pll_partition_t)
    (params gamma_mode : Z) (alpha : double)
  : option (pllmod_treeinfo_t pll_utree) :=
  match pllmod_treeinfo_init_partition_error
          ti p partition params gamma_mode alpha with
  | Some _ => None
  | None =>
      let i := Z.to_nat p in
      Some {| tip_count := tip_count ti;
              partition_count := partition_count ti;
              treeinfo_brlen_linkage := treeinfo_brlen_linkage ti;
              params_to_optimize := <[i := params]> (params_to_optimize ti);
              parallel_reduce_cb := parallel_reduce_cb ti;
              partitions := <[i := Some partition]> (partitions ti);
              alphas := <[i := alpha]> (alphas ti);
              brlen_scalers := brlen_scalers ti;
              root := root ti |}
  end.

(** [_pll_treeinfo->params_to_optimize[p] = params_to_optimize] *)
Definition set_params_to_optimize (ti : pllmod_treeinfo_t pll_utree)
    (p params : Z) : pllmod_treeinfo_t pll_utree :=
  {| tip_count := tip_count ti;
     partition_count := partition_count ti;
     treeinfo_brlen_linkage := treeinfo_brlen_linkage ti;
     params_to_optimize := <[Z.to_nat p := params]> (params_to_optimize ti);
     parallel_reduce_cb := parallel_reduce_cb ti;
     partitions := partitions ti;
     alphas := alphas ti;
     brlen_scalers := brlen_scalers ti;
     root := root ti |}.

Definition set_treeinfo (t : TreeInfo) (ti : pllmod_treeinfo_t pll_utree)
    (parts_master : gset Z) : TreeInfo :=
  {| _pll_treeinfo := ti;
     _parts_master := parts_master;
     pll_errno := pll_errno t;
     pll_errmsg := pll_errmsg t;
     kernel_calls := kernel_calls t |}.

(** Line 49-50: the flags of partition [pinfo]. *)
Definition partition_flags (opts : Options) (optimize_branches : Z)
    (pinfo : PartitionInfo) : Z :=
  Z.lor (if optimize_model opts
         then model_params_to_optimize (pinfo_model pinfo) else 0)
        optimize_branches.

(** Line 56: the weights of partition [p]; [site_weights.at(p)] throws when
    the vector has no such entry. *)
Definition partition_weights (site_weights : list (list Z))
    (pinfo : PartitionInfo) (p : Z) : result (list Z) :=
  if empty_vec site_weights then Ok (msa_weights (pinfo_msa pinfo))
  else match site_weights !! Z.to_nat p with
       | Some w => Ok w
       | None => Throw (out_of_range "vector::at")
       end.

(** The body of the loop over the partitions (lines 48-77). *)
Definition init_partition (opts : Options) (part_assign : PartitionAssignment)
    (site_weights : list (list Z)) (optimize_branches : Z)
    (p : Z) (pinfo : PartitionInfo) (t : TreeInfo) : result TreeInfo :=
  let params_to_optimize := partition_flags opts optimize_branches pinfo in
  match PartitionAssignment_find part_assign p with
  | Some part_range =>
      (* create and init PLL partition structure *)
      weights ← partition_weights site_weights pinfo p;
      partition ← create_pll_partition opts pinfo part_range weights;
      match pllmod_treeinfo_init_partition
              (_pll_treeinfo t) p partition params_to_optimize
              (gamma_mode (pinfo_model pinfo))
              (model_alpha (pinfo_model pinfo)) with
      | None =>
          Throw (runtime_error
                   ("ERROR adding treeinfo partition: " +:+
                    default EmptyString
                      (pllmod_treeinfo_init_partition_error
                         (_pll_treeinfo t) p partition params_to_optimize
                         (gamma_mode (pinfo_model pinfo))
                         (model_alpha (pinfo_model pinfo)))))
      | Some ti =>
          Ok (set_treeinfo t ti
                (if PartitionRange.master part_range
                 then {[ p ]} ∪ _parts_master t else _parts_master t))
      end
  | None =>
      (* this partition will be processed by other threads, but we still
         need to know which parameters to optimize *)
      Ok (set_treeinfo t
            (set_params_to_optimize (_pll_treeinfo t) p params_to_optimize)
            (_parts_master t))
  end.

(** The loop [for (size_t p = 0; p < parted_msa.part_count(); ++p)], from
    partition [p] on. *)
Fixpoint init_partitions (opts : Options) (part_assign : PartitionAssignment)
    (site_weights : list (list Z)) (optimize_branches : Z)
    (p : Z) (parts : list PartitionInfo) (t : TreeInfo) : result TreeInfo :=
  match parts with
  | [] => Ok t
  | pinfo :: parts' =>
      t' ← init_partition opts part_assign site_weights optimize_branches
             p pinfo t;
      init_partitions opts part_assign site_weights optimize_branches
        (p + 1) parts' t'
  end.

(** Lines 39-44: the branch-length flags shared by all partitions. *)
Definition branch_flags (opts : Options) (part_count : Z) : Z :=
  let optimize_branches :=
    if optimize_brlen opts then PLLMOD_OPT_PARAM_BRANCHES_ITERATIVE else 0 in
  if optimize_model opts
     && (brlen_linkage opts =? PLLMOD_TREE_BRLEN_SCALED)
     && (1 <? part_count)
  then Z.lor optimize_branches PLLMOD_OPT_PARAM_BRANCH_LEN_SCALER
  else optimize_branches.

(** Lines 32-36: the state before the loop over the partitions. *)
Definition before_partitions (pc : ParallelContext) (errno : Z)
    (errmsg : string) (ti : pllmod_treeinfo_t pll_utree) : TreeInfo :=
  {| _pll_treeinfo :=
       if 1 <? num_procs pc then
         {| tip_count := tip_count ti;
            partition_count := partition_count ti;
            treeinfo_brlen_linkage := treeinfo_brlen_linkage ti;
            params_to_optimize := params_to_optimize ti;
            parallel_reduce_cb := true;
            partitions := partitions ti;
            alphas := alphas ti;
            brlen_scalers := brlen_scalers ti;
            root := root ti |}
       else ti;
     _parts_master := ∅;
     pll_errno := errno; pll_errmsg := errmsg; kernel_calls := [] |}.

(** [TreeInfo::init]; [errno] and [errmsg] are the kernel's error
    indicator when the constructor is entered. *)
Definition init (pc : ParallelContext) (errno : Z) (errmsg : string)
    (opts : Options) (tree : Tree) (parted_msa : list PartitionInfo)
    (part_assign : PartitionAssignment) (site_weights : list (list Z))
  : result TreeInfo :=
  let part_count := Z.of_nat (length parted_msa) in
  match pllmod_treeinfo_create (pll_utree_root tree) (num_tips tree)
          part_count (brlen_linkage opts) with
  | None =>
      Throw (runtime_error
               ("ERROR creating treeinfo structure: " +:+
                default EmptyString
                  (pllmod_treeinfo_create_error (pll_utree_root tree)
                     (num_tips tree) part_count (brlen_linkage opts))))
  | Some ti =>
      (* init partitions *)
      init_partitions opts part_assign site_weights
        (branch_flags opts part_count) 0 parted_msa
        (before_partitions pc errno errmsg ti)
  end.

End Init.

(** ** The driver *)

Record PartitionedMSA : Type := {
  full_msa : MSA;
  part_list : list PartitionInfo;
}.

Definition taxon_count (parted_msa : PartitionedMSA) : Z :=
  msa_size (full_msa parted_msa).

Record BootstrapReplicate : Type := {
  site_weights : list (list Z);
}.

Record RaxmlInstance : Type := {
  opts : Options;
  parted_msa : PartitionedMSA;
  bs_reps : list BootstrapReplicate;
  proc_part_assign : list PartitionAssignment;
}.

Definition set_opts (instance : RaxmlInstance) (o : Options) : RaxmlInstance :=
  {| opts := o; parted_msa := parted_msa instance;
     bs_reps := bs_reps instance;
     proc_part_assign := proc_part_assign instance |}.

Definition set_parted_msa (instance : RaxmlInstance) (m : PartitionedMSA)
  : RaxmlInstance :=
  {| opts := opts instance; parted_msa := m;
     bs_reps := bs_reps instance;
     proc_part_assign := proc_part_assign instance |}.

Definition set_proc_part_assign (instance : RaxmlInstance)
    (a : list PartitionAssignment) : RaxmlInstance :=
  {| opts := opts instance; parted_msa := parted_msa instance;
     bs_reps := bs_reps instance;
     proc_part_assign := a |}.

(** The statistics [check_msa] reads from [pllmod_msa_compute_stats]. *)
Record pllmod_msa_stats_t : Type := {
  dup_taxa_pairs_count : Z;
  dup_seqs_pairs_count : Z;
}.

(** What the driver writes to the log and the phases it enters. *)
Inductive event : Type :=
| error_duplicate_names (count : Z)
| warning_duplicate_sequences (count : Z)
| note_rate_scalers_enabled
| warning_too_many_threads (threads total_sites opt_threads : Z)
| enter_thread_main.

(** The collaborators of the driver that are not part of the sources at
    hand, and the steps of the driver that no property below looks into. *)
Class Collaborators : Type := {
  (** the load balancer *)
  get_all_assignments : PartitionAssignment → Z → list PartitionAssignment;
  (** [PartitionAssignmentStats] *)
  min_thread_sites : list PartitionAssignment → Z;
  total_sites : list PartitionAssignment → Z;
  (** reading and preparing the alignment *)
  msa_load_from_file : Options → result MSA;
  split_msa : PartitionedMSA → PartitionedMSA;
  compress_patterns : PartitionedMSA → PartitionedMSA;
  set_model_empirical_params : PartitionedMSA → PartitionedMSA;
  (** [pllmod_msa_compute_stats] followed by [libpll_check_error] *)
  pllmod_msa_compute_stats : MSA → result pllmod_msa_stats_t;
  (** lines 715-790 of [check_msa]: gap-only columns and sequences *)
  check_msa_gaps : RaxmlInstance → RaxmlInstance;
  check_models : RaxmlInstance → result unit;
  init_part_info : RaxmlInstance → result RaxmlInstance;
  (** template tree, checkpoint and starting trees *)
  prepare_trees : RaxmlInstance → result RaxmlInstance;
  generate_bootstraps : RaxmlInstance → result RaxmlInstance;
  (** [Options::remove_result_files] *)
  remove_result_files : Options → result unit;
  thread_main : RaxmlInstance → result RaxmlInstance;
  print_final_output : RaxmlInstance → result RaxmlInstance;
}.

Definition uint_range : Z := 2 ^ 32.

Section Driver.
Context {raxml : RaxmlConstants} {collaborators : Collaborators}.

Record driver : Type := {
  instance : RaxmlInstance;
  log : list event;
}.

Definition D (A : Type) : Type := driver → result A * driver.

Global Instance D_ret : MRet D := fun A a d => (Ok a, d).

Global Instance D_bind : MBind D := fun A B k m d =>
  match m d with
  | (Ok a, d') => k a d'
  | (Throw e, d') => (Throw e, d')
  end.

Definition raise {A} (e : exn) : D A := fun d => (Throw e, d).
Definition get_instance : D RaxmlInstance := fun d => (Ok (instance d), d).
Definition put_instance (i : RaxmlInstance) : D unit := fun d =>
  (Ok (), {| instance := i; log := log d |}).
Definition emit (e : event) : D unit := fun d =>
  (Ok (), {| instance := instance d; log := log d ++ [e] |}).
Definition lift {A} (r : result A) : D A := fun d => (r, d).
Definition when (b : bool) (m : D unit) : D unit := if b then m else mret ().

(** [check_msa] *)
Definition check_msa : D unit :=
  i ← get_instance;
  let full_msa := full_msa (parted_msa i) in
  let taxon_count := taxon_count (parted_msa i) in
  _ ← when (taxon_count <? 4)
        (raise (runtime_error "Your alignment contains less than 4 sequences!"));
  stats ← lift (pllmod_msa_compute_stats full_msa);
  _ ← when (0 <? dup_taxa_pairs_count stats)
        (_ ← emit (error_duplicate_names (dup_taxa_pairs_count stats));
         raise (runtime_error "Please fix your alignment!"));
  _ ← when (0 <? dup_seqs_pairs_count stats)
        (emit (warning_duplicate_sequences (dup_seqs_pairs_count stats)));
  _ ← put_instance (check_msa_gaps i);
  i ← get_instance;
  when ((RAXML_RATESCALERS_TAXA <? taxon_count)
        && negb (use_rate_scalers (opts i)))
    (_ ← emit note_rate_scalers_enabled;
     let o := opts i in
     put_instance
       (set_opts i
          {| simd_arch := simd_arch o; use_rate_scalers := true;
             use_tip_inner := use_tip_inner o; use_repeats := use_repeats o;
             use_prob_msa := use_prob_msa o;
             use_pattern_compression := use_pattern_compression o;
             optimize_model := optimize_model o;
             optimize_brlen := optimize_brlen o;
             brlen_linkage := brlen_linkage o;
             force_mode := force_mode o |})).

(** [load_msa]; the log lines and the writing of the binary alignment file
    at its end are left out. *)
Definition load_msa : D unit :=
  i ← get_instance;
  (* load MSA *)
  msa ← lift (msa_load_from_file (opts i));
  let o := opts i in
  _ ← (if probabilistic msa && use_prob_msa o then
         _ ← put_instance
               (set_opts i
                  {| simd_arch := simd_arch o;
                     use_rate_scalers := use_rate_scalers o;
                     use_tip_inner := false; use_repeats := use_repeats o;
                     use_prob_msa := use_prob_msa o;
                     use_pattern_compression := false;
                     optimize_model := optimize_model o;
                     optimize_brlen := optimize_brlen o;
                     brlen_linkage := brlen_linkage o;
                     force_mode := force_mode o |});
         when (1 <? Z.of_nat (length (part_list (parted_msa i))))
           (raise (runtime_error
              "Partitioned probabilistic alignments are not supported yet, sorry..."))
       else
         put_instance
           (set_opts i
              {| simd_arch := simd_arch o;
                 use_rate_scalers := use_rate_scalers o;
                 use_tip_inner := use_tip_inner o;
                 use_repeats := use_repeats o;
                 use_prob_msa := false;
                 use_pattern_compression := use_pattern_compression o;
                 optimize_model := optimize_model o;
                 optimize_brlen := optimize_brlen o;
                 brlen_linkage := brlen_linkage o;
                 force_mode := force_mode o |}));
  i ← get_instance;
  _ ← put_instance
        (set_parted_msa i
           (split_msa {| full_msa := msa;
                         part_list := part_list (parted_msa i) |}));
  (* check alignment *)
  i ← get_instance;
  _ ← when (negb (force_mode (opts i))) check_msa;
  i ← get_instance;
  _ ← when (use_pattern_compression (opts i))
        (put_instance (set_parted_msa i (compress_patterns (parted_msa i))));
  i ← get_instance;
  _ ← put_instance
        (set_parted_msa i (set_model_empirical_params (parted_msa i)));
  i ← get_instance;
  when (negb (force_mode (opts i))) (lift (check_models i)).

End Driver.

(** ** Load balancing *)

Section BalanceLoad.
Context {raxml : RaxmlConstants} {collaborators : Collaborators}.

(** [part_sizes.assign_sites(i, 0, len)]: the whole of partition [i]. *)
Definition assign_sites (part_sizes : PartitionAssignment) (i start len : Z)
  : PartitionAssignment :=
  part_sizes ++ [PartitionRange.mk i start len true].

(** init list of partition sizes *)
Definition part_sizes (sizes : list Z) : PartitionAssignment :=
  fst (foldl (fun '(part_sizes, i) size =>
                (assign_sites part_sizes i 0 size, i + 1))
             ([], 0) sizes).


(** build mapping from compressed indices to the original/uncompressed
    ones; the entries are [unsigned int] *)
Definition comp_pos_map (weights : list Z) : list Z :=
  foldl (fun pos_map s =>
           if 0 <? at_ weights s then pos_map ++ [s mod uint_range]
           else pos_map)
        [] (seqZ 0 (Z.of_nat (length weights))).

(** translate partition range coordinates: compressed -> uncompressed *)
Definition translate_range (comp_pos_map : list (list Z))
    (part_range : PartitionRange.t) : PartitionRange.t :=
  let pos_map := at_ comp_pos_map (PartitionRange.part_id part_range) in
  let comp_start := PartitionRange.start part_range in
  let start := if 0 <? comp_start then at_ pos_map comp_start else 0 in
  let length :=
    wrap (at_ pos_map
            (wrap (comp_start + PartitionRange.length part_range - 1))
          - start + 1) in
  PartitionRange.mk (PartitionRange.part_id part_range) start length
    (PartitionRange.master part_range).

(** The assignment the load balancer computes for a bootstrap replicate, in
    compressed coordinates (lines 1228-1253). *)
Definition compressed_assignment (pc : ParallelContext)
    (part_site_weights : list (list Z)) : list PartitionAssignment :=
  let comp_pos_map : list (list Z) := comp_pos_map <$> part_site_weights in
  get_all_assignments
    (part_sizes ((fun pos_map : list Z => Z.of_nat (length pos_map))
                   <$> comp_pos_map))
    (num_procs pc).

(** [balance_load(RaxmlInstance&, WeightVectorList)] *)
Definition balance_load_weights (pc : ParallelContext) (i : RaxmlInstance)
    (part_site_weights : list (list Z)) : RaxmlInstance :=
  let comp_pos_map : list (list Z) := comp_pos_map <$> part_site_weights in
  let proc_part_assign : list (list PartitionRange.t) :=
    compressed_assignment pc part_site_weights in
  set_proc_part_assign i
    ((fun part_assign : list PartitionRange.t =>
        translate_range comp_pos_map <$> part_assign)
       <$> proc_part_assign).

End BalanceLoad.

(** ** [master_main] *)

Section MasterMain.
Context {raxml : RaxmlConstants} {collaborators : Collaborators}.

Definition soft_limit : Z := 600.
Definition hard_limit : Z := 150.

(** [parted_msa.part_info(p)]; the list of partitions is read with [at],
    which throws when there is no partition [p]. *)
Definition part_info (parted_msa : PartitionedMSA) (p : Z)
  : result PartitionInfo :=
  match part_list parted_msa !! Z.to_nat p with
  | Some pinfo => Ok pinfo
  | None => Throw (out_of_range "vector::at")
  end.

(** The largest number of states over all partitions (lines 1697-1699). *)
Definition max_states (parted_msa : PartitionedMSA) : result Z :=
  pinfo ← part_info parted_msa 0;
  Ok (foldl (fun states p => Z.max states (num_states (pinfo_model p)))
            (num_states (pinfo_model pinfo)) (part_list parted_msa)).

Definition norm_thread_pats (pc : ParallelContext) (i : RaxmlInstance)
  : result Z :=
  states ← max_states (parted_msa i);
  Ok (size_t_of_double
        (dmul (dmul (double_of_Z (min_thread_sites (proc_part_assign i)))
                    (ddiv (double_of_Z states) (double_of_Z 4)))
              (double_of_Z (if num_threads pc <? 8 then 3 else 1)))).

Definition opt_threads (i : RaxmlInstance) : Z :=
  size_t_of_double
    (dadd (double_of_Z (total_sites (proc_part_assign i) / wrap (soft_limit * 2)))
          (double_of_Z 1)).

Definition too_few_patterns : string :=
  "Too few patterns per thread! RAxML-NG will terminate now to avoid wasting resources."
  +:+ nl +:+
  "NOTE:  Please reduce the number of threads (see guidelines above)."
  +:+ nl +:+
  "NOTE:  This check can be disabled with the '--force' option.".

(** check that we have enough patterns per thread (lines 1688-1721) *)
Definition check_patterns_per_thread (pc : ParallelContext) : D unit :=
  when (master_rank pc && (1 <? num_procs pc))
    (i ← get_instance;
     norm_thread_pats ← lift (norm_thread_pats pc i);
     when (norm_thread_pats <? soft_limit)
       (_ ← emit (warning_too_many_threads (num_threads pc)
                    (total_sites (proc_part_assign i)) (opt_threads i));
        when ((norm_thread_pats <? hard_limit) && negb (force_mode (opts i)))
          (raise (runtime_error too_few_patterns)))).




End MasterMain.

(** ** Reading the parameters back: [assign]

    The two overloads of [assign] in [TreeInfo.cpp] copy the parameters the
    kernel holds back into a model, and into the models of a partitioned
    alignment. *)

Global Instance double_inhabited : Inhabited double := populate dzero.

(** [model.alpha(value)] *)
Definition set_alpha (model : Model) (value : double) : Model :=
  {| num_states := num_states model; num_ratecats := num_ratecats model;
     num_submodels := num_submodels model;
     ascbias_type := ascbias_type model;
     ascbias_weights := ascbias_weights model;
     model_alpha := value;
     model_brlen_scaler := model_brlen_scaler model;
     model_params_to_optimize := model_params_to_optimize model;
     gamma_mode := gamma_mode model;
     model_params := model_params model |}.

(** [model.brlen_scaler(value)] *)
Definition set_brlen_scaler (model : Model) (value : double) : Model :=
  {| num_states := num_states model; num_ratecats := num_ratecats model;
     num_submodels := num_submodels model;
     ascbias_type := ascbias_type model;
     ascbias_weights := ascbias_weights model;
     model_alpha := model_alpha model;
     model_brlen_scaler := value;
     model_params_to_optimize := model_params_to_optimize model;
     gamma_mode := gamma_mode model;
     model_params := model_params model |}.

(** [parted_msa.part_count()] *)
Definition part_count (parted_msa : PartitionedMSA) : Z :=
  Z.of_nat (length (part_list parted_msa)).

(** [parted_msa.model(p)]; the list of partitions is read with [at]. *)
Definition part_model (parted_msa : PartitionedMSA) (p : Z) : result Model :=
  match part_list parted_msa !! Z.to_nat p with
  | Some pinfo => Ok (pinfo_model pinfo)
  | None => Throw (out_of_range "vector::at")
  end.

(** [parted_msa.model(p, move(model))] *)
Definition set_part_model (parted_msa : PartitionedMSA) (p : Z) (model : Model)
  : result PartitionedMSA :=
  match part_list parted_msa !! Z.to_nat p with
  | Some pinfo =>
      Ok {| full_msa := full_msa parted_msa;
            part_list :=
              <[Z.to_nat p := {| pinfo_msa := pinfo_msa pinfo;
                                 pinfo_model := model |}]>
                (part_list parted_msa) |}
  | None => Throw (out_of_range "vector::at")
  end.

Section Assign.
Context {kernel : LikelihoodKernel}.

(** The overload of [assign] that reads a kernel partition into a model
    belongs to the model class, which is not part of the sources at hand:
    any function will do. *)
Variable assign_from_partition : Model → pll_partition_t → Model.

(** [assign(Model&, const TreeInfo&, size_t)] *)
Definition assign_model (model : Model) (treeinfo : TreeInfo) (partition_id : Z)
  : result Model :=
  let pll_treeinfo := _pll_treeinfo treeinfo in
  if partition_count pll_treeinfo <=? partition_id then
    Throw (out_of_range "Partition ID out of range")
  else
    match at_ (partitions pll_treeinfo) partition_id with
    | None => Ok model
    | Some partition =>
        let model := assign_from_partition model partition in
        let model := set_alpha model (at_ (alphas pll_treeinfo) partition_id) in
        Ok (match brlen_scalers pll_treeinfo with
            | Some scalers =>
                set_brlen_scaler model (at_ scalers partition_id)
            | None => model
            end)
    end.

(** The loop of [assign(PartitionedMSA&, const TreeInfo&)] over the
    partitions [ps]. *)
Fixpoint assign_partitions (treeinfo : TreeInfo) (ps : list Z)
    (parted_msa : PartitionedMSA) : result PartitionedMSA :=
  match ps with
  | [] => Ok parted_msa
  | p :: ps' =>
      match at_ (partitions (_pll_treeinfo treeinfo)) p with
      | None => assign_partitions treeinfo ps' parted_msa
      | Some _ =>
          model ← part_model parted_msa p;
          model ← assign_model model treeinfo p;
          parted_msa ← set_part_model parted_msa p model;
          assign_partitions treeinfo ps' parted_msa
      end
  end.

(** [assign(PartitionedMSA&, const TreeInfo&)] *)
Definition assign_parted_msa (parted_msa : PartitionedMSA) (treeinfo : TreeInfo)
  : result PartitionedMSA :=
  let pll_treeinfo := _pll_treeinfo treeinfo in
  if negb (part_count parted_msa =? partition_count pll_treeinfo) then
    Throw (runtime_error "Incompatible arguments")
  else
    assign_partitions treeinfo (seqZ 0 (part_count parted_msa)) parted_msa.

End Assign.

(** ** [check_tree] *)

(** A branch of [tree.topology()]. *)
Module TreeBranch.
Record t : Type := mk {
  left_node_id : Z;
  right_node_id : Z;
  length : double;
}.
End TreeBranch.

(** The lines [check_tree] writes to the error log. *)
Inductive tree_error : Type :=
| taxon_appears_more_than_once (name : string)
| taxon_not_found_in_alignment (name : string).

Section CheckTree.
Context {kernel : LikelihoodKernel}.

(** Members of [Tree] and of [PartitionedMSA], which are not part of the
    sources at hand: the labels of the tips with their ids, the branches,
    and the names of the taxa. *)
Variable tip_labels : Tree → list (Z * string).
Variable topology : Tree → list TreeBranch.t.
Variable taxon_names : PartitionedMSA → list string.

(** The body of the loop over the tips (lines 868-878); the state is the
    set [tree_labels], the two counters and the log. *)
Definition check_tip (msa_labels : gset string)
    (state : gset string * Z * Z * list tree_error) (tip : Z * string)
  : gset string * Z * Z * list tree_error :=
  let '(tree_labels, duplicate_taxa, missing_taxa, log) := state in
  let '(duplicate_taxa, log) :=
    if bool_decide (tip.2 ∈ tree_labels)
    then (duplicate_taxa + 1, log ++ [taxon_appears_more_than_once tip.2])
    else (duplicate_taxa, log) in
  let '(missing_taxa, log) :=
    if bool_decide (tip.2 ∉ msa_labels)
    then (missing_taxa + 1, log ++ [taxon_not_found_in_alignment tip.2])
    else (missing_taxa, log) in
  ({[ tip.2 ]} ∪ tree_labels, duplicate_taxa, missing_taxa, log).

(** [check_tree]: what is written to the error log, and the outcome.  (The
    counters are [int]s in the source; they are not made to wrap here.) *)
Definition check_tree (msa : PartitionedMSA) (tree : Tree)
  : list tree_error * result unit :=
  if num_tips tree <? taxon_count msa then
    ([], Throw (runtime_error
                  "Alignment file contains more sequences than expected"))
  else if negb (taxon_count msa =? num_tips tree) then
    ([], Throw (runtime_error "Some taxa are missing from the alignment file"))
  else
    let msa_labels : gset string := list_to_set (taxon_names msa) in
    let '(_, duplicate_taxa, missing_taxa, log) :=
      foldl (check_tip msa_labels) (∅, 0, 0, []) (tip_labels tree) in
    if 0 <? duplicate_taxa then
      (log, Throw (runtime_error
                     "Tree contains duplicate taxon names (see above)!"))
    else if 0 <? missing_taxa then
      (log, Throw (runtime_error
                     "Please check that sequence labels in the alignment and in the tree file are identical!"))
    else
      (* check for negative branch length *)
      if existsb (fun branch => dltb (TreeBranch.length branch) dzero)
           (topology tree)
      then (log, Throw (runtime_error
                          "Tree file contains negative branch lengths!"))
      else (log, Ok ()).

End CheckTree.

(** ** The driver's own steps

    [master_main] above takes [check_models] and [generate_bootstraps] as
    steps of its collaborators; here they are as the file has them. *)

(** [opts.command] *)
Module Command.
Inductive t : Type :=
| help | version | evaluate | search | bootstrap | all | support | terrace
| check | parse | none.

Global Instance eq_dec : EqDecision t.
Proof. solve_decision. Defined.
End Command.

(** [instance.bs_reps.emplace_back(rep)] *)
Definition emplace_bs_rep (instance : RaxmlInstance) (rep : BootstrapReplicate)
  : RaxmlInstance :=
  {| opts := opts instance; parted_msa := parted_msa instance;
     bs_reps := bs_reps instance ++ [rep];
     proc_part_assign := proc_part_assign instance |}.

Definition dquote : string := String (ascii_of_nat 34) EmptyString.

(** [opts.start_tree] *)
Module StartingTree.
Inductive t : Type := user | random | parsimony.

Global Instance eq_dec : EqDecision t.
Proof. solve_decision. Defined.
End StartingTree.

Module Main.

Section GenerateBootstraps.

(** Members of [Options] that the record above leaves out. *)
Variable command : Options → Command.t.
Variable num_bootstraps : Options → Z.

(** The checkpoint, of which only the number of bootstrap trees saved by an
    earlier run is read. *)
Context {Checkpoint : Type}.
Variable bs_trees_size : Checkpoint → Z.

(** [rand()] of the C library returns a number and advances a hidden
    state. *)
Context {rng : Type}.
Variable rand : rng → Z * rng.

(** [BootstrapGenerator], which is not part of the sources at hand: a fresh
    generator, and [generate], which may change the generator. *)
Context {BootstrapGenerator : Type}.
Variable bg : BootstrapGenerator.
Variable generate :
  BootstrapGenerator → PartitionedMSA → Z
  → BootstrapReplicate * BootstrapGenerator.

(** The body of the loop over the replicates (lines 1281-1287). *)
Definition generate_bootstrap (checkp : Checkpoint)
    (state : RaxmlInstance * BootstrapGenerator * rng) (b : Z)
  : RaxmlInstance * BootstrapGenerator * rng :=
  let '(instance, bg, g) := state in
  let '(seed, g) := rand g in
  (* check if this BS was already computed in the previous run and saved in
     checkpoint *)
  if b <? bs_trees_size checkp then (instance, bg, g)
  else
    let '(rep, bg) := generate bg (parted_msa instance) seed in
    (emplace_bs_rep instance rep, bg, g).

Definition generate_bootstraps (instance : RaxmlInstance) (checkp : Checkpoint)
    (g : rng) : RaxmlInstance * rng :=
  if bool_decide (command (opts instance) = Command.bootstrap)
     || bool_decide (command (opts instance) = Command.all)
  then
    let '(instance, _, g) :=
      foldl (generate_bootstrap checkp) (instance, bg, g)
        (seqZ 0 (num_bootstraps (opts instance))) in
    (instance, g)
  else (instance, g).

End GenerateBootstraps.

Section CheckModels.
Context {constants : PllConstants}.

(** Members of [PartitionInfo], of its statistics and of [Model] that the
    records above leave out; [ParamValue] is an enumeration of the model
    class, of which two values are named here. *)
Context {ParamValue : Type} {ParamValue_eq_dec : EqDecision ParamValue}.
Variable ParamValue_model : ParamValue.
Variable ParamValue_empirical : ParamValue.
Variable name : PartitionInfo → string.
Variable emp_base_freqs : PartitionInfo → list double.
Variable inv_count : PartitionInfo → Z.
Variable model_name : Model → string.
Variable param_mode : Model → Z → ParamValue.
Variable to_string : Model → bool → string.

(** The first state whose frequency is not greater than zero. *)
Definition zero_frequency (freqs : list double) : option nat :=
  fst <$> list_find (fun f => dltb dzero f = false) freqs.

(** The body of the loop over the partitions.  (The frequencies written to
    the error log are left out.) *)
Definition check_model (pinfo : PartitionInfo) : result unit :=
  let model := pinfo_model pinfo in
  (* check for non-recommended model combinations *)
  _ ← (if (bool_decide (model_name model = "LG4X")
           || bool_decide (model_name model = "LG4M"))
          && bool_decide (param_mode model PLLMOD_OPT_PARAM_FREQUENCIES
                          ≠ ParamValue_model)
       then
         Throw (runtime_error
                  ("Partition " +:+ dquote +:+ name pinfo +:+ dquote +:+
                   ": You specified LG4M or LG4X model with shared stationary based frequencies ("
                   +:+ to_string model false +:+ ")." +:+ nl +:+
                   "Please be warned, that this is against the idea of LG4 models and hence it's not recommended!"
                   +:+ nl +:+
                   "If you know what you're doing, you can add --force command line switch to disable this safety check."))
       else Ok ());
  (* check for zero state frequencies *)
  _ ← (if bool_decide (param_mode model PLLMOD_OPT_PARAM_FREQUENCIES
                       = ParamValue_empirical)
       then
         match zero_frequency (emp_base_freqs pinfo) with
         | Some i =>
             Throw (runtime_error
                      ("Frequency of state " +:+ pretty i +:+
                       " in partition " +:+ name pinfo +:+ " is 0!" +:+ nl +:+
                       "Please either change your partitioning scheme or " +:+
                       "use model state frequencies for this partition!"))
         | None => Ok ()
         end
       else Ok ());
  (* check partitions which contain invariant sites and have ascertainment
     bias enabled *)
  if bool_decide (ascbias_type model ≠ asc_none) && (0 <? inv_count pinfo)
  then
    Throw (runtime_error
             ("You enabled ascertainment bias correction for partition " +:+
              name pinfo +:+ ", but it contains " +:+
              pretty (inv_count pinfo) +:+ " invariant sites." +:+ nl +:+
              "This is not allowed! Please either remove invariant sites or " +:+
              "disable ascertainment bias correction."))
  else Ok ().

Fixpoint check_partitions (parts : list PartitionInfo) : result unit :=
  match parts with
  | [] => Ok ()
  | pinfo :: parts' => _ ← check_model pinfo; check_partitions parts'
  end.

Definition check_models (instance : RaxmlInstance) : result unit :=
  check_partitions (part_list (parted_msa instance)).

End CheckModels.

Section InitPartInfo.
Context {constants : PllConstants}.

(** Members of [Options] that the record above leaves out, and the two
    file formats the function tells apart. *)
Context {FileFormat : Type} {FileFormat_eq_dec : EqDecision FileFormat}.
Context {DataType : Type}.
Variable FileFormat_binary : FileFormat.
Variable FileFormat_autodetect : FileFormat.
Variable msa_file : Options → string.
Variable msa_format : Options → FileFormat.
Variable model_file : Options → string.
Variable data_type : Options → DataType.

(** The file system and the streams, which are not part of the sources at
    hand; reading may fail. *)
Variable sysutil_file_exists : string → bool.
Variable rba_file : string → bool.
Variable read_binary_msa : string → PartitionedMSA → result PartitionedMSA.
Variable read_partition_file : string → PartitionedMSA → result PartitionedMSA.
Variable emplace_part_info :
  PartitionedMSA → string → DataType → string → result PartitionedMSA.

(** Members of [Model] and constants of the kernel's headers. *)
Context {ParamValue : Type}.
Variable ParamValue_ML : ParamValue.
Variable set_param_mode_default : Model → Z → ParamValue → Model.
Variable ratehet_mode : Model → Z.
Variable PLLMOD_COMMON_BRLEN_LINKED : Z.
Variable PLLMOD_COMMON_BRLEN_SCALED : Z.
Variable PLLMOD_UTIL_MIXTYPE_FREE : Z.

(** [opts.use_prob_msa = false] *)
Definition without_prob_msa (o : Options) : Options :=
  {| simd_arch := simd_arch o; use_rate_scalers := use_rate_scalers o;
     use_tip_inner := use_tip_inner o; use_repeats := use_repeats o;
     use_prob_msa := false;
     use_pattern_compression := use_pattern_compression o;
     optimize_model := optimize_model o;
     optimize_brlen := optimize_brlen o;
     brlen_linkage := brlen_linkage o;
     force_mode := force_mode o |}.

(** [opts.brlen_linkage = linkage] *)
Definition with_brlen_linkage (o : Options) (linkage : Z) : Options :=
  {| simd_arch := simd_arch o; use_rate_scalers := use_rate_scalers o;
     use_tip_inner := use_tip_inner o; use_repeats := use_repeats o;
     use_prob_msa := use_prob_msa o;
     use_pattern_compression := use_pattern_compression o;
     optimize_model := optimize_model o;
     optimize_brlen := optimize_brlen o;
     brlen_linkage := linkage;
     force_mode := force_mode o |}.

(** Lines 597-632: the partitions are read from a binary alignment, from a
    partition file, or made up of the model given on the command line. *)
Definition read_part_info (instance : RaxmlInstance) : result RaxmlInstance :=
  let o := opts instance in
  (* check if we have a binary input file *)
  if bool_decide (msa_format o = FileFormat_binary)
     || (bool_decide (msa_format o = FileFormat_autodetect)
         && rba_file (msa_file o))
  then
    parted_msa ← read_binary_msa (msa_file o) (parted_msa instance);
    (* binary probMSAs are not supported yet *)
    Ok (set_opts (set_parted_msa instance parted_msa) (without_prob_msa o))
  (* check if model is a file *)
  else if sysutil_file_exists (model_file o) then
    (* read partition definitions from file *)
    parted_msa ← read_partition_file (model_file o) (parted_msa instance);
    Ok (set_parted_msa instance parted_msa)
  else if negb (bool_decide (model_file o = EmptyString)) then
    (* create and init single pseudo-partition *)
    parted_msa ← emplace_part_info (parted_msa instance) "noname"
                   (data_type o) (model_file o);
    Ok (set_parted_msa instance parted_msa)
  else
    Throw (runtime_error
             "Please specify an evolutionary model with --model switch").

Definition set_model (pinfo : PartitionInfo) (model : Model) : PartitionInfo :=
  {| pinfo_msa := pinfo_msa pinfo; pinfo_model := model |}.

Definition init_part_info (instance : RaxmlInstance) : result RaxmlInstance :=
  if negb (sysutil_file_exists (msa_file (opts instance))) then
    Throw (runtime_error
             ("Alignment file not found: " +:+ msa_file (opts instance)))
  else
    instance ← read_part_info instance;
    (* make sure that linked branch length mode is set for unpartitioned
       alignments *)
    let instance :=
      if part_count (parted_msa instance) =? 1
      then set_opts instance
             (with_brlen_linkage (opts instance) PLLMOD_COMMON_BRLEN_LINKED)
      else instance in
    (* in the scaled brlen mode, use ML optimization of brlen scalers by
       default *)
    let instance :=
      if brlen_linkage (opts instance) =? PLLMOD_COMMON_BRLEN_SCALED
      then set_parted_msa instance
             {| full_msa := full_msa (parted_msa instance);
                part_list :=
                  (fun pinfo =>
                     set_model pinfo
                       (set_param_mode_default (pinfo_model pinfo)
                          PLLMOD_OPT_PARAM_BRANCH_LEN_SCALER ParamValue_ML))
                    <$> part_list (parted_msa instance) |}
      else instance in
    let freerate_count :=
      count_if (fun pinfo =>
                  ratehet_mode (pinfo_model pinfo) =? PLLMOD_UTIL_MIXTYPE_FREE)
        (part_list (parted_msa instance)) in
    if (1 <? part_count (parted_msa instance)) && (0 <? freerate_count)
       && (brlen_linkage (opts instance) =? PLLMOD_COMMON_BRLEN_LINKED)
    then
      Throw (runtime_error
               ("LG4X and FreeRate models are not supported in linked branch length mode."
                +:+ nl +:+
                "Please use the '--brlen scaled' option to switch into proportional branch length mode."))
    else Ok instance.

End InitPartInfo.

Section BuildStartTrees.
Context {constants : PllConstants} {kernel : LikelihoodKernel}.

(** Members of [Tree] and of [PartitionedMSA] that [check_tree] reads. *)
Variable tip_labels : Tree → list (Z * string).
Variable topology : Tree → list TreeBranch.t.
Variable taxon_names : PartitionedMSA → list string.

(** Members of [Options] that the record above leaves out. *)
Variable start_tree : Options → StartingTree.t.
Variable tree_file : Options → string.

(** The collaborators.  A [NewickStream] is modelled by what is left to be
    read from it: one entry per tree, which is the tree or the error that
    parsing it raises, and the stream is at its end exactly when nothing is
    left; what reading past the end does is left open.  [Tree::buildRandom]
    may draw from the generator behind [rand]. *)
Variable sysutil_file_exists : string → bool.
Variable open_stream : string → list (result Tree).
Variable read_past_end : result Tree.
Context {rng : Type}.
Variable rand : rng → Z * rng.
Variable buildRandom : list string → rng → Tree * rng.
Variable buildParsimony : PartitionedMSA → Z → Z → Tree.
Variable build_parsimony_msa : RaxmlInstance → PartitionedMSA.
Variable fix_missing_brlens : Tree → Tree.
Variable reset_tip_ids : Tree → PartitionedMSA → result Tree.
Variable write_start_trees : Options → list Tree → result unit.
Context {Checkpoint : Type}.
Variable ml_trees_size : Checkpoint → Z.

(** What [generate_tree] and [build_start_trees] read and write: the
    instance with the members that the record above leaves out, and the
    state of [rand]. *)
Record start_state : Type := {
  instance : RaxmlInstance;
  num_searches : Z;
  start_tree_stream : list (result Tree);
  parted_msa_parsimony : option PartitionedMSA;
  start_trees : list Tree;
  rand_state : rng;
}.

(** [*instance.start_tree_stream >> tree] *)
Definition read_tree (st : start_state) : result (Tree * start_state) :=
  match start_tree_stream st with
  | [] => tree ← read_past_end; Ok (tree, st)
  | parsed :: rest =>
      tree ← parsed;
      Ok (tree,
          {| instance := instance st; num_searches := num_searches st;
             start_tree_stream := rest;
             parted_msa_parsimony := parted_msa_parsimony st;
             start_trees := start_trees st; rand_state := rand_state st |})
  end.

(** [generate_tree].  (What [check_tree] writes to the log and the closing
    assertion that the tree is not empty are left out.) *)
Definition generate_tree (st : start_state) (type : StartingTree.t)
  : result (Tree * start_state) :=
  match type with
  | StartingTree.user =>
      (* parse the unrooted binary tree in newick format *)
      '(tree, st) ← read_tree st;
      _ ← snd (check_tree tip_labels topology taxon_names
                 (parted_msa (instance st)) tree);
      Ok (tree, st)
  | StartingTree.random =>
      (* no starting tree provided, generate a random one *)
      let '(tree, g) := buildRandom (taxon_names (parted_msa (instance st)))
                          (rand_state st) in
      Ok (tree,
          {| instance := instance st; num_searches := num_searches st;
             start_tree_stream := start_tree_stream st;
             parted_msa_parsimony := parted_msa_parsimony st;
             start_trees := start_trees st; rand_state := g |})
  | StartingTree.parsimony =>
      let attrs := Z.lor (simd_arch (opts (instance st))) PLL_ATTRIB_PATTERN_TIP in
      let pars_msa := default (parted_msa (instance st))
                        (parted_msa_parsimony st) in
      let '(seed, g) := rand (rand_state st) in
      Ok (buildParsimony pars_msa seed attrs,
          {| instance := instance st; num_searches := num_searches st;
             start_tree_stream := start_tree_stream st;
             parted_msa_parsimony := parted_msa_parsimony st;
             start_trees := start_trees st; rand_state := g |})
  end.

(** [instance.opts.num_searches++] *)
Definition one_more_search (st : start_state) : start_state :=
  {| instance := instance st; num_searches := num_searches st + 1;
     start_tree_stream := start_tree_stream st;
     parted_msa_parsimony := parted_msa_parsimony st;
     start_trees := start_trees st; rand_state := rand_state st |}.

(** [instance.start_trees.emplace_back(move(tree))] *)
Definition emplace_start_tree (st : start_state) (tree : Tree) : start_state :=
  {| instance := instance st; num_searches := num_searches st;
     start_tree_stream := start_tree_stream st;
     parted_msa_parsimony := parted_msa_parsimony st;
     start_trees := start_trees st ++ [tree];
     rand_state := rand_state st |}.

(** The loop [for (size_t i = 0; i < opts.num_searches; ++i)], from [i] on.
    Its bound moves while it runs; every turn either uses up one of the
    searches or reads a tree of the stream, so [fuel] turns are enough when
    [fuel] is the number of searches left plus the number of trees left. *)
Fixpoint start_trees_loop (checkp : Checkpoint) (fuel : nat) (i : Z)
    (st : start_state) : result start_state :=
  match fuel with
  | O => Ok st
  | S fuel' =>
      if i <? num_searches st then
        '(tree, st) ← generate_tree st (start_tree (opts (instance st)));
        (* TODO use universal starting tree generator *)
        let st :=
          if bool_decide (start_tree (opts (instance st)) = StartingTree.user)
             && negb (empty_vec (start_tree_stream st))
          then one_more_search st else st in
        (* TODO: skip generation *)
        if i <? ml_trees_size checkp then
          start_trees_loop checkp fuel' (i + 1) st
        else
          (* fix missing branch lengths *)
          let tree := fix_missing_brlens tree in
          (* make sure tip indices are consistent between MSA and pll_tree *)
          tree ← reset_tip_ids tree (parted_msa (instance st));
          start_trees_loop checkp fuel' (i + 1) (emplace_start_tree st tree)
      else Ok st
  end.

(** [build_start_trees] *)
Definition build_start_trees (pc : ParallelContext) (checkp : Checkpoint)
    (st : start_state) : result start_state :=
  let o := opts (instance st) in
  st ←
    match start_tree o with
    | StartingTree.user =>
        if negb (sysutil_file_exists (tree_file o)) then
          Throw (runtime_error ("File not found: " +:+ tree_file o))
        else
          Ok {| instance := instance st; num_searches := num_searches st;
                start_tree_stream := open_stream (tree_file o);
                parted_msa_parsimony := parted_msa_parsimony st;
                start_trees := start_trees st;
                rand_state := rand_state st |}
    | StartingTree.random => Ok st
    | StartingTree.parsimony =>
        if 1 <? part_count (parted_msa (instance st)) then
          Ok {| instance := instance st; num_searches := num_searches st;
                start_tree_stream := start_tree_stream st;
                parted_msa_parsimony := Some (build_parsimony_msa (instance st));
                start_trees := start_trees st;
                rand_state := rand_state st |}
        else Ok st
    end;
  st ← start_trees_loop checkp
         (Z.to_nat (num_searches st) + length (start_tree_stream st)) 0 st;
  (* free memory used for parsimony MSA *)
  let st := {| instance := instance st; num_searches := num_searches st;
               start_tree_stream := start_tree_stream st;
               parted_msa_parsimony := None;
               start_trees := start_trees st;
               rand_state := rand_state st |} in
  _ ← (if master_rank pc then write_start_trees o (start_trees st)
       else Ok ());
  Ok st.

End BuildStartTrees.

Arguments start_state {kernel} rng.

Section DrawBootstrapSupport.
Context {kernel : LikelihoodKernel}.

(** What [Tree::reset_tip_ids] does: it returns, or throws
    [std::invalid_argument] (which the exceptions above do not have), leaving
    the tree as [left], or throws another exception. *)
Inductive reset_tip_ids_outcome : Type :=
| reset_done (tree : Tree)
| reset_invalid_argument (left : Tree)
| reset_throw (e : exn).

(** Members of [Options] that the record above leaves out. *)
Variable tree_file : Options → string.
Variable bootstrap_trees_file : Options → string.
Variable support_tree_file : Options → string.

(** The collaborators: a [NewickStream] opened for reading is modelled as
    in [build_start_trees]; [Tree] and [BootstrapTree] are not part of the
    sources at hand. *)
Variable open_stream : string → list (result Tree).
Variable read_past_end : result Tree.
Context {IdNameVector : Type}.
Variable tip_ids : Tree → IdNameVector.
Variable reset_tip_ids : Tree → IdNameVector → reset_tip_ids_outcome.
Context {BootstrapTree : Type}.
Variable new_BootstrapTree : Tree → result BootstrapTree.
Variable add_bootstrap_tree : BootstrapTree → Tree → result BootstrapTree.
Variable calc_support : BootstrapTree → result BootstrapTree.
Variable write_support_tree : string → BootstrapTree → result unit.

(** The loop [while (boots.peek() != EOF)]; [bs_num] is an unsigned int. *)
Fixpoint read_bootstrap_trees (ref_tip_ids : IdNameVector)
    (boots : list (result Tree)) (bs_num : Z) (sup_tree : BootstrapTree)
  : result (Z * BootstrapTree) :=
  match boots with
  | [] => Ok (bs_num, sup_tree)
  | parsed :: boots =>
      bs_tree ← parsed;
      bs_tree ←
        match reset_tip_ids bs_tree ref_tip_ids with
        | reset_done bs_tree => Ok bs_tree
        | reset_throw (out_of_range _) =>
            Throw (runtime_error
                     ("Bootstrap tree #" +:+ pretty ((bs_num + 1) mod uint_range)
                      +:+ " is not compatible with the reference tree!"))
        | reset_invalid_argument bs_tree =>
            Throw (runtime_error
                     ("Bootstrap tree #" +:+ pretty ((bs_num + 1) mod uint_range)
                      +:+ " has wrong number of tips: "
                      +:+ pretty (num_tips bs_tree)))
        | reset_throw e => Throw e
        end;
      sup_tree ← add_bootstrap_tree sup_tree bs_tree;
      read_bootstrap_trees ref_tip_ids boots ((bs_num + 1) mod uint_range)
        sup_tree
  end.

(** [draw_bootstrap_support(const Options&)]; the result is the tree written
    to the support tree file.  (What is written to the log is left out.) *)
Definition draw_bootstrap_support (opts : Options) : result BootstrapTree :=
  ref_tree ← match open_stream (tree_file opts) with
             | [] => read_past_end
             | parsed :: _ => parsed
             end;
  let ref_tip_ids := tip_ids ref_tree in
  sup_tree ← new_BootstrapTree ref_tree;
  '(bs_num, sup_tree) ←
    read_bootstrap_trees ref_tip_ids
      (open_stream (bootstrap_trees_file opts)) 0 sup_tree;
  if bs_num <? 2 then
    Throw (runtime_error
             "You must provide a file with multiple bootstrap trees!")
  else
    sup_tree ← calc_support sup_tree;
    _ ← write_support_tree (support_tree_file opts) sup_tree;
    Ok sup_tree.

End DrawBootstrapSupport.

End Main.

(** ** Concrete collaborators for the examples

    One choice of the kernel's constants (the values of the libpll and
    pll-modules headers) and a few small kernels.  Only the examples use
    them; every theorem is stated for arbitrary constants and kernels. *)

Module Fixtures.

Definition pll_constants : PllConstants :=
  {| PLL_ATTRIB_RATE_SCALERS := 512;
     PLL_ATTRIB_PATTERN_TIP := 16;
     PLL_ATTRIB_SITE_REPEATS := 1024;
     PLL_ATTRIB_AB_FLAG := 256;
     ascbias_attr := fun a =>
       match a with
       | asc_none => 0
       | asc_lewis => 32
       | asc_felsenstein => 64
       | asc_stamatakis => 96
       end;
     PLLMOD_OPT_PARAM_SUBST_RATES := 1;
     PLLMOD_OPT_PARAM_FREQUENCIES := 8;
     PLLMOD_OPT_PARAM_ALPHA := 2;
     PLLMOD_OPT_PARAM_PINV := 4;
     PLLMOD_OPT_PARAM_FREE_RATES := 256;
     PLLMOD_OPT_PARAM_BRANCHES_ITERATIVE := 64;
     PLLMOD_OPT_PARAM_BRANCH_LEN_SCALER := 1024;
     PLLMOD_TREE_BRLEN_SCALED := 1 |}.

Definition raxml_constants : RaxmlConstants :=
  {| RAXML_BRLEN_MIN := dzero;
     RAXML_BRLEN_MAX := double_of_Z 100;
     RAXML_BRLEN_SMOOTHINGS := 32;
     RAXML_BRLEN_SCALER_MIN := dzero;
     RAXML_BRLEN_SCALER_MAX := double_of_Z 100;
     RAXML_PARAM_EPSILON := d0_1;
     RAXML_BFGS_FACTOR := double_of_Z 10000000;
     RAXML_FREERATE_MIN := dzero;
     RAXML_FREERATE_MAX := double_of_Z 100;
     PLLMOD_OPT_MIN_SUBST_RATE := dzero;
     PLLMOD_OPT_MAX_SUBST_RATE := double_of_Z 1000;
     PLLMOD_OPT_MIN_FREQ := dzero;
     PLLMOD_OPT_MAX_FREQ := d_one;
     PLLMOD_OPT_MIN_ALPHA := dzero;
     PLLMOD_OPT_MAX_ALPHA := double_of_Z 100;
     PLLMOD_OPT_MIN_PINV := dzero;
     PLLMOD_OPT_MAX_PINV := d_one;
     RAXML_RATESCALERS_TAXA := 2000 |}.

Definition basic_tree : BasicTree :=
  {| num_inner := fun n => n - 2; num_branches := fun n => 2 * n - 3 |}.

(** A kernel that accepts every partition. *)
Definition accepting : PartitionKernel :=
  {| pll_partition_create_error := fun _ => None |}.

(** A kernel that accepts every structure and partition, answers every
    call with [value], and leaves the data and the error indicator as
    they are. *)
Definition quiet (value : double) : LikelihoodKernel :=
  {| pll_utree := unit;
     pllmod_treeinfo_create_error := fun _ _ _ _ => None;
     treeinfo_has_brlen_scalers := fun _ _ => true;
     pllmod_treeinfo_init_partition_error := fun _ _ _ _ _ _ => None;
     kernel_exec := fun c ti errno errmsg =>
       {| reply_value := value;
          reply_partitions := partitions ti;
          reply_alphas := alphas ti;
          reply_brlen_scalers := brlen_scalers ti;
          reply_root := root ti;
          reply_errno := errno;
          reply_errmsg := errmsg |} |}.

(** As [quiet], but the one-dimensional optimiser signals an error. *)
Definition failing_onedim (value : double) : LikelihoodKernel :=
  {| pll_utree := unit;
     pllmod_treeinfo_create_error := fun _ _ _ _ => None;
     treeinfo_has_brlen_scalers := fun _ _ => true;
     pllmod_treeinfo_init_partition_error := fun _ _ _ _ _ _ => None;
     kernel_exec := fun c ti errno errmsg =>
       {| reply_value := value;
          reply_partitions := partitions ti;
          reply_alphas := alphas ti;
          reply_brlen_scalers := brlen_scalers ti;
          reply_root := root ti;
          reply_errno :=
            match c with
            | pllmod_algo_opt_onedim_treeinfo _ _ _ _ => 1
            | _ => errno
            end;
          reply_errmsg :=
            match c with
            | pllmod_algo_opt_onedim_treeinfo _ _ _ _ => "no convergence"
            | _ => errmsg
            end |} |}.

(** The number of pairs of equal labels, as the kernel counts them. *)
Fixpoint dup_taxa_pairs (labels : list string) : Z :=
  match labels with
  | [] => 0
  | l :: rest =>
      count_if (fun l' => bool_decide (l = l')) rest + dup_taxa_pairs rest
  end.

(** A single worker that is given every partition whole; every other
    collaborator succeeds and changes nothing. *)
Definition single_worker (msa : MSA) (min_sites : Z) : Collaborators :=
  {| get_all_assignments := fun part_sizes _ => [part_sizes];
     min_thread_sites := fun _ => min_sites;
     total_sites := fun a =>
       foldl (fun n r => n + PartitionRange.length r) 0 (concat a);
     msa_load_from_file := fun _ => Ok msa;
     split_msa := fun pm => pm;
     compress_patterns := fun pm => pm;
     set_model_empirical_params := fun pm => pm;
     pllmod_msa_compute_stats := fun m =>
       Ok {| dup_taxa_pairs_count := dup_taxa_pairs (labels m);
             dup_seqs_pairs_count := 0 |};
     check_msa_gaps := fun i => i;
     check_models := fun _ => Ok ();
     init_part_info := fun i => Ok i;
     prepare_trees := fun i => Ok i;
     generate_bootstraps := fun i => Ok i;
     remove_result_files := fun _ => Ok ();
     thread_main := fun i => Ok i;
     print_final_output := fun i => Ok i |}.

Definition dna_model (asc : AscBiasCorrection) : Model :=
  {| num_states := 4; num_ratecats := 4; num_submodels := 1;
     ascbias_type := asc; ascbias_weights := [];
     model_alpha := d_one; model_brlen_scaler := d_one;
     model_params_to_optimize := 0; gamma_mode := 0; model_params := [] |}.

Definition protein_model : Model :=
  {| num_states := 20; num_ratecats := 4; num_submodels := 1;
     ascbias_type := asc_none; ascbias_weights := [];
     model_alpha := d_one; model_brlen_scaler := d_one;
     model_params_to_optimize := 0; gamma_mode := 0; model_params := [] |}.

Definition seq_of (s : string) : list ascii := list_ascii_of_string s.

(** Four taxa, six columns. *)
Definition msa4 : MSA :=
  {| labels := ["t1"; "t2"; "t3"; "t4"]%string;
     sequences := seq_of <$> ["ACGTAC"; "ACGTCA"; "AGGTAC"; "ACTTAA"]%string;
     msa_weights := [1; 1; 1; 1; 1; 1];
     msa_length := 6;
     probabilistic := false; normalized := false; probs := [] |}.


Definition options : Options :=
  {| simd_arch := 2; use_rate_scalers := false; use_tip_inner := false;
     use_repeats := false; use_prob_msa := false;
     use_pattern_compression := false; optimize_model := true;
     optimize_brlen := true; brlen_linkage := 0; force_mode := false |}.


(** The same taxa with state probabilities instead of characters, three
    columns: every sequence is A, C, G with certainty. *)
Definition msa4_prob : MSA :=
  {| labels := ["t1"; "t2"; "t3"; "t4"]%string;
     sequences := seq_of <$> ["ACG"; "ACG"; "ACG"; "ACG"]%string;
     msa_weights := [1; 1; 1];
     msa_length := 3;
     probabilistic := true; normalized := true;
     probs := replicate 4 [d_one; dzero; dzero; dzero;
                           dzero; d_one; dzero; dzero;
                           dzero; dzero; d_one; dzero] |}.

Definition with_prob_msa (o : Options) : Options :=
  {| simd_arch := simd_arch o; use_rate_scalers := use_rate_scalers o;
     use_tip_inner := use_tip_inner o; use_repeats := use_repeats o;
     use_prob_msa := true;
     use_pattern_compression := use_pattern_compression o;
     optimize_model := optimize_model o; optimize_brlen := optimize_brlen o;
     brlen_linkage := brlen_linkage o; force_mode := force_mode o |}.

Definition with_rate_scalers (o : Options) : Options :=
  {| simd_arch := simd_arch o; use_rate_scalers := true;
     use_tip_inner := use_tip_inner o; use_repeats := use_repeats o;
     use_prob_msa := use_prob_msa o;
     use_pattern_compression := use_pattern_compression o;
     optimize_model := optimize_model o; optimize_brlen := optimize_brlen o;
     brlen_linkage := brlen_linkage o; force_mode := force_mode o |}.

(** A tree-info structure over two partitions, of which this worker holds
    the first. *)
Definition partition0 : pll_partition_t :=
  {| tips := 4; clv_buffers := 2; states := 4; sites := 6;
     rate_matrices := 1; prob_matrices := 5; rate_cats := 4;
     scale_buffers := 2; attributes := 2;
     pattern_weights := None; asc_state_weights := None; tip := [];
     partition_params := None |}.

Definition treeinfo2 (linkage flags0 : Z) : pllmod_treeinfo_t unit :=
  {| tip_count := 4; partition_count := 2;
     treeinfo_brlen_linkage := linkage;
     params_to_optimize := [flags0; 0];
     parallel_reduce_cb := false;
     partitions := [Some partition0; None];
     alphas := [d_one; d_one];
     brlen_scalers := Some [d_one; d_one];
     root := () |}.

Definition state2 (k : LikelihoodKernel) (ti : pllmod_treeinfo_t (@pll_utree k))
  : @TreeInfo k :=
  {| _pll_treeinfo := ti; _parts_master := ∅;
     pll_errno := 0; pll_errmsg := EmptyString; kernel_calls := [] |}.

Definition spr_params : @spr_round_params :=
  {| radius_min := 1; radius_max := 5; ntopol_keep := 10; thorough := 0;
     subtree_cutoff := dzero |}.

Definition model2 : Model :=
  {| num_states := 4; num_ratecats := 4; num_submodels := 1;
     ascbias_type := asc_none; ascbias_weights := [];
     model_alpha := double_of_Z 2; model_brlen_scaler := double_of_Z 3;
     model_params_to_optimize := 0; gamma_mode := 0;
     model_params := [d0_25; d0_25; d0_25; d0_25] |}.

Definition tree4 : @Tree (quiet dzero) :=
  @Build_Tree (quiet dzero) tt 4.

Definition one_proc : ParallelContext :=
  {| num_procs := 1; num_threads := 1; master_rank := true |}.

Definition four_procs : ParallelContext :=
  {| num_procs := 4; num_threads := 4; master_rank := true |}.

Definition instance4 (o : Options) : RaxmlInstance :=
  {| opts := o;
     parted_msa :=
       {| full_msa := msa4;
          part_list := [{| pinfo_msa := msa4; pinfo_model := dna_model asc_none |}] |};
     bs_reps := [];
     proc_part_assign := [] |}.

(** An instance whose alignment has not been read yet. *)
Definition unloaded (o : Options) : RaxmlInstance :=
  {| opts := o;
     parted_msa :=
       {| full_msa :=
            {| labels := []; sequences := []; msa_weights := [];
               msa_length := 0; probabilistic := false; normalized := false;
               probs := [] |};
          part_list :=
            [{| pinfo_msa :=
                  {| labels := []; sequences := []; msa_weights := [];
                     msa_length := 0; probabilistic := false;
                     normalized := false; probs := [] |};
                pinfo_model := dna_model asc_none |}] |};
     bs_reps := [];
     proc_part_assign := [] |}.

End Fixtures.

(** ** Specification-side notions *)

(** The sites of a range that carry a positive weight, by site index. *)
Definition positive_sites (weights : list Z) (part_region : PartitionRange.t)
  : list Z :=
  filter (fun j => 0 < at_ weights j)
    (seqZ (PartitionRange.start part_region) (PartitionRange.length part_region)).

(** The kernel applies the one-time bias correction to a partition whose
    attribute word carries [PLL_ATTRIB_AB_FLAG]. *)
Definition bias_corrected
    {constants : PllConstants} {shape : BasicTree} {pkernel : PartitionKernel}
    (opts : Options) (pinfo : PartitionInfo) (weights : list Z)
    (r : PartitionRange.t) : bool :=
  match create_pll_partition opts pinfo r weights with
  | Ok partition => flag_set (attributes partition) PLL_ATTRIB_AB_FLAG
  | Throw _ => false
  end.

(** [PLL_ATTRIB_AB_FLAG] is a bit of its own: no other attribute the
    partition may carry overlaps it. *)
Definition ab_flag_distinct {constants : PllConstants} (opts : Options) : Prop :=
  PLL_ATTRIB_AB_FLAG ≠ 0
  ∧ Z.land (simd_arch opts) PLL_ATTRIB_AB_FLAG = 0
  ∧ Z.land PLL_ATTRIB_RATE_SCALERS PLL_ATTRIB_AB_FLAG = 0
  ∧ Z.land PLL_ATTRIB_PATTERN_TIP PLL_ATTRIB_AB_FLAG = 0
  ∧ Z.land PLL_ATTRIB_SITE_REPEATS PLL_ATTRIB_AB_FLAG = 0.

(** The kernel reports the failure of a search round by returning
    [PLL_FAILURE], that is, zero. *)
Definition kernel_reports_failure (v : double) : Prop := ∃ s, v = S754_zero s.

(** Whether a call is a round of the SPR search. *)
Definition is_spr_round (c : kernel_call) : bool :=
  match c with
  | pllmod_algo_spr_round _ _ _ _ _ _ _ _ _ _ => true
  | _ => false
  end.

(** The value a kernel call returns in a state, and the state it leaves. *)
Definition value_of {kernel : LikelihoodKernel} (c : kernel_call) (t : TreeInfo)
  : double :=
  reply_value (kernel_exec c (_pll_treeinfo t) (pll_errno t) (pll_errmsg t)).

Definition after {kernel : LikelihoodKernel} (c : kernel_call) (t : TreeInfo)
  : TreeInfo :=
  snd (call c t).

(** The calls of the stages of [optimize_branches]. *)
Definition loglh_call : kernel_call := pllmod_treeinfo_compute_loglh 0.

Definition brlen_opt_call {raxml : RaxmlConstants}
    (lh_epsilon brlen_smooth_factor : double) : kernel_call :=
  pllmod_opt_optimize_branch_lengths_local_multi
    RAXML_BRLEN_MIN RAXML_BRLEN_MAX lh_epsilon
    (int_of_double (dmul brlen_smooth_factor (double_of_Z RAXML_BRLEN_SMOOTHINGS)))
    (-1) 1.

Definition scaler_opt_call {constants : PllConstants} {raxml : RaxmlConstants}
  : kernel_call :=
  pllmod_algo_opt_onedim_treeinfo PLLMOD_OPT_PARAM_BRANCH_LEN_SCALER
    RAXML_BRLEN_SCALER_MIN RAXML_BRLEN_SCALER_MAX RAXML_PARAM_EPSILON.

(** Whether the state's own flags for partition 0 ask for the iterative
    optimisation of branch lengths. *)
Definition iterative_enabled {constants : PllConstants}
    {kernel : LikelihoodKernel} (t : TreeInfo) : bool :=
  flag_set (at_ (params_to_optimize (_pll_treeinfo t)) 0)
    PLLMOD_OPT_PARAM_BRANCHES_ITERATIVE.

(** The calls of the stages of [optimize_params]. *)
Definition rates_call {raxml : RaxmlConstants} : kernel_call :=
  pllmod_algo_opt_subst_rates_treeinfo 0
    PLLMOD_OPT_MIN_SUBST_RATE PLLMOD_OPT_MAX_SUBST_RATE
    RAXML_BFGS_FACTOR RAXML_PARAM_EPSILON.

Definition freqs_call {raxml : RaxmlConstants} : kernel_call :=
  pllmod_algo_opt_frequencies_treeinfo 0
    PLLMOD_OPT_MIN_FREQ PLLMOD_OPT_MAX_FREQ
    RAXML_BFGS_FACTOR RAXML_PARAM_EPSILON.

Definition alpha_call {constants : PllConstants} {raxml : RaxmlConstants}
  : kernel_call :=
  pllmod_algo_opt_onedim_treeinfo PLLMOD_OPT_PARAM_ALPHA
    PLLMOD_OPT_MIN_ALPHA PLLMOD_OPT_MAX_ALPHA RAXML_PARAM_EPSILON.

Definition pinv_call {constants : PllConstants} {raxml : RaxmlConstants}
  : kernel_call :=
  pllmod_algo_opt_onedim_treeinfo PLLMOD_OPT_PARAM_PINV
    PLLMOD_OPT_MIN_PINV PLLMOD_OPT_MAX_PINV RAXML_PARAM_EPSILON.

Definition free_rates_call {raxml : RaxmlConstants} : kernel_call :=
  pllmod_algo_opt_rates_weights_treeinfo
    RAXML_FREERATE_MIN RAXML_FREERATE_MAX
    RAXML_BFGS_FACTOR RAXML_PARAM_EPSILON.

(** The calls into the kernel for the five classes of model parameters, in
    the order in which they are made, given the requested flags. *)
Definition model_stage_calls
    {constants : PllConstants} {raxml : RaxmlConstants}
    {kernel : LikelihoodKernel} (flags : Z) (t : TreeInfo) : list kernel_call :=
  (if flag_set flags PLLMOD_OPT_PARAM_SUBST_RATES then [rates_call] else [])
  ++ (if flag_set flags PLLMOD_OPT_PARAM_FREQUENCIES then [freqs_call] else [])
  ++ (if flag_set flags PLLMOD_OPT_PARAM_ALPHA then [alpha_call] else [])
  ++ (if flag_set flags PLLMOD_OPT_PARAM_PINV then [pinv_call] else [])
  ++ (if flag_set flags PLLMOD_OPT_PARAM_FREE_RATES
      then free_rates_call
           :: (if scaled_multi (_pll_treeinfo t)
               then [pllmod_treeinfo_normalize_brlen_scalers] else [])
      else []).

(** The calls of the branch-length stage; [failed] tells whether the stage
    ended with an exception. *)
Definition branch_stage_calls
    {constants : PllConstants} {raxml : RaxmlConstants}
    {kernel : LikelihoodKernel} (flags : Z) (lh_epsilon : double)
    (t : TreeInfo) (failed : bool) : list kernel_call :=
  if flag_set flags PLLMOD_OPT_PARAM_BRANCHES_ITERATIVE then
    loglh_call
    :: (if iterative_enabled t then [brlen_opt_call lh_epsilon d0_25] else [])
    ++ (if failed then []
        else if scaled_multi (_pll_treeinfo t)
             then [scaler_opt_call; pllmod_treeinfo_normalize_brlen_scalers]
             else [])
  else [].

(** The state after a call that is made only under a condition. *)
Definition after_if {kernel : LikelihoodKernel} (b : bool) (c : kernel_call)
    (t : TreeInfo) : TreeInfo :=
  if b then after c t else t.

(** A range in compressed coordinates that lies inside the compressed
    partition it belongs to and is not empty. *)
Definition valid_compressed (part_site_weights : list (list Z))
    (r : PartitionRange.t) : Prop :=
  0 ≤ PartitionRange.part_id r
  ∧ ∃ weights,
      part_site_weights !! Z.to_nat (PartitionRange.part_id r) = Some weights
      ∧ 0 ≤ PartitionRange.start r
      ∧ 0 < PartitionRange.length r
      ∧ PartitionRange.start r + PartitionRange.length r
        ≤ count_if (fun w => 0 <? w) weights.

(** The number of sites of positive weight before site [j]. *)
Definition positive_before (weights : list Z) (j : Z) : Z :=
  count_if (fun w => 0 <? w) (take (Z.to_nat j) weights).

(** What the range [r'] in original coordinates is to the range [r] in
    compressed coordinates: it lies inside the partition, ends at the last
    site of positive weight of [r], begins at the first one unless [r] begins
    the partition, in which case it begins at site 0, and holds as many sites
    of positive weight as [r] is long. *)
Definition original_coordinates (part_site_weights : list (list Z))
    (r r' : PartitionRange.t) : Prop :=
  ∃ weights,
    part_site_weights !! Z.to_nat (PartitionRange.part_id r) = Some weights
    ∧ PartitionRange.part_id r' = PartitionRange.part_id r
    ∧ PartitionRange.master r' = PartitionRange.master r
    ∧ let last := PartitionRange.start r' + PartitionRange.length r' - 1 in
      (PartitionRange.start r = 0 → PartitionRange.start r' = 0)
      ∧ (0 < PartitionRange.start r →
         0 < at_ weights (PartitionRange.start r')
         ∧ positive_before weights (PartitionRange.start r')
           = PartitionRange.start r)
      ∧ 0 ≤ PartitionRange.start r' ≤ last
      ∧ last < Z.of_nat (length weights)
      ∧ 0 < at_ weights last
      ∧ positive_before weights last
        = PartitionRange.start r + PartitionRange.length r - 1
      ∧ part_length r' weights = PartitionRange.length r.

(** The columns of a worker's range that the kernel partition is built
    from: every site of the range when no weight vector is given, and the
    sites of positive weight otherwise. *)
Definition columns_of (weights : list Z) (part_region : PartitionRange.t)
  : list Z :=
  if empty_vec weights
  then seqZ (PartitionRange.start part_region)
            (PartitionRange.length part_region)
  else positive_sites weights part_region.

(** A flag [f] is a bit of its own among the words [others]. *)
Definition own_bit (f : Z) (others : list Z) : Prop :=
  f ≠ 0 ∧ Forall (fun g => Z.land g f = 0) others.

(** The attribute flags that [create_pll_partition] may set do not overlap
    one another, nor the instruction-set word, nor the bits of the
    ascertainment-bias correction. *)
Definition attribute_flags_distinct {constants : PllConstants}
    (opts : Options) (model : Model) : Prop :=
  let asc := ascbias_attr (ascbias_type model) in
  own_bit PLL_ATTRIB_RATE_SCALERS
    [simd_arch opts; PLL_ATTRIB_PATTERN_TIP; PLL_ATTRIB_SITE_REPEATS;
     PLL_ATTRIB_AB_FLAG; asc]
  ∧ own_bit PLL_ATTRIB_PATTERN_TIP
      [simd_arch opts; PLL_ATTRIB_RATE_SCALERS; PLL_ATTRIB_SITE_REPEATS;
       PLL_ATTRIB_AB_FLAG; asc]
  ∧ own_bit PLL_ATTRIB_SITE_REPEATS
      [simd_arch opts; PLL_ATTRIB_RATE_SCALERS; PLL_ATTRIB_PATTERN_TIP;
       PLL_ATTRIB_AB_FLAG; asc].

(** The conditions under which [create_pll_partition] refuses the options
    before it turns to the kernel. *)
Definition scalers_not_dna (opts : Options) (model : Model) : bool :=
  use_rate_scalers opts && (1 <? num_ratecats model)
  && negb (num_states model =? 4).

Definition repeats_and_tip_inner (opts : Options) : bool :=
  use_repeats opts && use_tip_inner opts.

(** Whether an assignment gives the worker the master range of
    partition [p]. *)
Definition owns_master (part_assign : PartitionAssignment) (p : Z) : bool :=
  match PartitionAssignment_find part_assign p with
  | Some part_range => PartitionRange.master part_range
  | None => false
  end.

(** The first [n] numbers that [rand] returns from the state [g], and the
    state after them. *)
Fixpoint rand_seeds {rng : Type} (rand : rng → Z * rng) (n : nat) (g : rng)
  : list Z :=
  match n with
  | O => []
  | S n' => (rand g).1 :: rand_seeds rand n' (rand g).2
  end.

Fixpoint rand_after {rng : Type} (rand : rng → Z * rng) (n : nat) (g : rng)
  : rng :=
  match n with
  | O => g
  | S n' => rand_after rand n' (rand g).2
  end.

(** A partition that [check_models] lets pass: an LG4 model keeps the
    frequencies of the model, empirical frequencies are all greater than
    zero, and under an ascertainment-bias correction the partition has no
    invariant site. *)
Definition acceptable_partition {constants : PllConstants} {ParamValue : Type}
    (ParamValue_model ParamValue_empirical : ParamValue)
    (emp_base_freqs : PartitionInfo → list double)
    (inv_count : PartitionInfo → Z)
    (model_name : Model → string)
    (param_mode : Model → Z → ParamValue)
    (pinfo : PartitionInfo) : Prop :=
  let model := pinfo_model pinfo in
  let mode := param_mode model PLLMOD_OPT_PARAM_FREQUENCIES in
  (model_name model = "LG4X" ∨ model_name model = "LG4M" →
   mode = ParamValue_model)
  ∧ (mode = ParamValue_empirical →
     Forall (fun f => dltb dzero f = true) (emp_base_freqs pinfo))
  ∧ (ascbias_type model ≠ asc_none → inv_count pinfo ≤ 0).

(** The options with per-rate scalers switched on. *)
Definition enable_rate_scalers (o : Options) : Options :=
  {| simd_arch := simd_arch o; use_rate_scalers := true;
     use_tip_inner := use_tip_inner o; use_repeats := use_repeats o;
     use_prob_msa := use_prob_msa o;
     use_pattern_compression := use_pattern_compression o;
     optimize_model := optimize_model o;
     optimize_brlen := optimize_brlen o;
     brlen_linkage := brlen_linkage o;
     force_mode := force_mode o |}.

(** The state after the trees [read] have been read from the stream, of
    which those from number [c] on have been kept. *)
Definition after_reading {kernel : LikelihoodKernel} {rng : Type}
    (st : Main.start_state rng) (prepared : Tree → Tree)
    (read : list Tree) (c : Z) : Main.start_state rng :=
  {| Main.instance := Main.instance st;
     Main.num_searches :=
       Main.num_searches st + Z.of_nat (length read) - 1;
     Main.start_tree_stream := [];
     Main.parted_msa_parsimony := Main.parted_msa_parsimony st;
     Main.start_trees :=
       Main.start_trees st ++ (prepared <$> drop (Z.to_nat c) read);
     Main.rand_state := Main.rand_state st |}.



(** * Properties *)

(** ** Lists, counting and the push-back loops *)

Lemma foldl_push_back {A B} (w : A → Z) (g : A → B) (l : list A) (init : list B) :
  foldl (fun acc j => if 0 <? w j then acc ++ [g j] else acc) init l
  = init ++ (g <$> filter (fun j => 0 < w j) l).
Proof.
  revert init. induction l as [|a l IH]; intros init; simpl.
  - by rewrite app_nil_r.
  - destruct (Z.ltb_spec 0 (w a)) as [Hpos|Hnpos].
    + rewrite IH, filter_cons_True by done.
      by rewrite fmap_cons, <- app_assoc.
    + rewrite IH, filter_cons_False by lia. done.
Qed.

Lemma count_if_fmap {A} (w : A → Z) (l : list A) :
  count_if (fun x => 0 <? x) (w <$> l)
  = Z.of_nat (length (filter (fun j => 0 < w j) l)).
Proof.
  induction l as [|a l IH]; [done|].
  rewrite fmap_cons. cbn [count_if]. rewrite IH.
  destruct (Z.ltb_spec 0 (w a)).
  - rewrite filter_cons_True by done. cbn [length]. lia.
  - rewrite filter_cons_False by lia. lia.
Qed.

Lemma count_if_app {A} (p : A → bool) (l1 l2 : list A) :
  count_if p (l1 ++ l2) = count_if p l1 + count_if p l2.
Proof. induction l1 as [|a l1 IH]; simpl; [done|]. rewrite IH. lia. Qed.

Lemma count_if_bounds {A} (p : A → bool) (l : list A) :
  0 ≤ count_if p l ≤ Z.of_nat (length l).
Proof. induction l as [|a l IH]; simpl; [lia|]. destruct (p a); lia. Qed.

(** A slice of a vector, read through the iterators or by index. *)
Lemma slice_by_index (ws : list Z) (start len : Z) :
  0 ≤ start → 0 ≤ len → start + len ≤ Z.of_nat (length ws) →
  take (Z.to_nat len) (drop (Z.to_nat start) ws) = at_ ws <$> seqZ start len.
Proof.
  intros Hs Hl Hb. apply list_eq. intros i.
  rewrite list_lookup_fmap.
  destruct (decide (Z.of_nat i < len)) as [Hi|Hi].
  - rewrite lookup_take_lt by lia. rewrite lookup_drop.
    rewrite lookup_seqZ_lt by done. simpl. unfold at_.
    destruct (lookup_lt_is_Some_2 ws (Z.to_nat start + i)) as [x Hx]; [lia|].
    rewrite Hx. f_equal. symmetry. apply list_lookup_total_correct.
    by replace (Z.to_nat (start + Z.of_nat i)) with (Z.to_nat start + i)%nat by lia.
  - rewrite lookup_take_ge by lia. by rewrite lookup_seqZ_ge by lia.
Qed.

Lemma filter_length_all {A} (P : A → Prop) `{∀ x, Decision (P x)} (l : list A) :
  length (filter P l) = length l ↔ Forall P l.
Proof.
  induction l as [|a l IH].
  - split; [constructor|done].
  - destruct (decide (P a)) as [Ha|Ha].
    + rewrite filter_cons_True by done. cbn [length]. split.
      * intros Hl. constructor; [done|]. apply IH. lia.
      * intros Hl. apply Forall_cons in Hl as [_ Hl]. apply IH in Hl. lia.
    + rewrite filter_cons_False by done. cbn [length]. split.
      * intros Hl. pose proof (length_filter P l). lia.
      * intros Hl. by apply Forall_cons in Hl as [? _].
Qed.

Lemma wrap_small (z : Z) : 0 ≤ z < size_t_range → wrap z = z.
Proof. intros Hz. unfold wrap. by apply Z.mod_small. Qed.

Lemma part_length_spec (r : PartitionRange.t) (ws : list Z) :
  0 ≤ PartitionRange.start r → 0 ≤ PartitionRange.length r →
  PartitionRange.start r + PartitionRange.length r ≤ Z.of_nat (length ws) →
  part_length r ws =
    if empty_vec ws then PartitionRange.length r
    else Z.of_nat (length (positive_sites ws r)).
Proof.
  intros Hs Hl Hb. unfold part_length, positive_sites.
  destruct (empty_vec ws); [done|].
  rewrite slice_by_index by done. apply count_if_fmap.
Qed.

Lemma comp_weights_length (ws : list Z) (r : PartitionRange.t) :
  length (comp_weights ws (PartitionRange.start r)
            (PartitionRange.start r + PartitionRange.length r))
  = length (positive_sites ws r).
Proof.
  unfold comp_weights, positive_sites.
  rewrite (foldl_push_back (at_ ws) (at_ ws)). simpl.
  rewrite length_fmap.
  by replace (PartitionRange.start r + PartitionRange.length r
              - PartitionRange.start r) with (PartitionRange.length r) by lia.
Qed.

Lemma bs_seq_length (full_seq : list ascii) (ws : list Z) (r : PartitionRange.t) :
  length (bs_seq full_seq ws (PartitionRange.start r)
            (PartitionRange.start r + PartitionRange.length r))
  = length (positive_sites ws r).
Proof.
  unfold bs_seq, positive_sites.
  rewrite (foldl_push_back (at_ ws) (at_ full_seq)). simpl.
  rewrite length_fmap.
  by replace (PartitionRange.start r + PartitionRange.length r
              - PartitionRange.start r) with (PartitionRange.length r) by lia.
Qed.

(** Some site of the range has weight zero exactly when not every site of
    the range has a positive weight. *)
Lemma zero_weight_in_range (ws : list Z) (r : PartitionRange.t) :
  0 ≤ PartitionRange.start r → 0 ≤ PartitionRange.length r →
  PartitionRange.start r + PartitionRange.length r ≤ Z.of_nat (length ws) →
  Forall (fun w => 0 ≤ w) ws →
  (∃ j, PartitionRange.start r ≤ j
        < PartitionRange.start r + PartitionRange.length r
        ∧ ws !! Z.to_nat j = Some 0)
  ↔ length (positive_sites ws r) ≠ Z.to_nat (PartitionRange.length r).
Proof.
  intros Hs Hl Hb Hnn. unfold positive_sites.
  set (P := fun j => 0 < at_ ws j).
  set (l := seqZ (PartitionRange.start r) (PartitionRange.length r)).
  assert (Hlen : length l = Z.to_nat (PartitionRange.length r))
    by apply length_seqZ.
  rewrite <- Hlen. rewrite (filter_length_all P l).
  split.
  - intros (j & Hj & Hz) Hall.
    rewrite Forall_forall in Hall.
    assert (Hin : j ∈ l).
    { apply list_elem_of_lookup. exists (Z.to_nat (j - PartitionRange.start r)).
      subst l. rewrite lookup_seqZ. lia. }
    specialize (Hall j Hin). unfold P, at_ in Hall.
    rewrite (list_lookup_total_correct _ _ _ Hz) in Hall. lia.
  - intros Hnall. apply not_Forall_Exists in Hnall; [|apply _].
    apply Exists_exists in Hnall as (j & Hin & HnP).
    apply list_elem_of_lookup in Hin as [i Hi]. subst l.
    apply lookup_seqZ in Hi as [-> Hi].
    exists (PartitionRange.start r + Z.of_nat i). split; [lia|].
    unfold P, at_ in HnP.
    destruct (lookup_lt_is_Some_2 ws
                (Z.to_nat (PartitionRange.start r + Z.of_nat i))) as [x Hx]; [lia|].
    unfold compose in HnP.
    rewrite (list_lookup_total_correct _ _ _ Hx) in HnP.
    rewrite Forall_forall in Hnn.
    assert (0 ≤ x) by (apply Hnn; by eapply list_elem_of_lookup_2).
    rewrite Hx. f_equal. lia.
Qed.

(** ** The partition handed to the kernel *)

Lemma foldl_invariant {A B C} (f : A → B → A) (g : A → C) (l : list B) (a : A) :
  (∀ a b, g (f a b) = g a) → g (foldl f a l) = g a.
Proof.
  intros Hf. revert a. induction l as [|b l IH]; intros a; simpl; [done|].
  by rewrite IH.
Qed.

Section PartitionFacts.
Context {constants : PllConstants} {shape : BasicTree}
        {pkernel : PartitionKernel}.

Lemma set_partition_tips_sites opts msa r partition :
  sites (set_partition_tips opts msa r partition) = sites partition.
Proof.
  unfold set_partition_tips.
  destruct (use_prob_msa opts && probabilistic msa);
    rewrite (foldl_invariant _ sites) by done;
    by destruct (negb (empty_vec (msa_weights msa))).
Qed.

Lemma set_partition_tips_attributes opts msa r partition :
  attributes (set_partition_tips opts msa r partition) = attributes partition.
Proof.
  unfold set_partition_tips.
  destruct (use_prob_msa opts && probabilistic msa);
    rewrite (foldl_invariant _ attributes) by done;
    by destruct (negb (empty_vec (msa_weights msa))).
Qed.

Lemma set_partition_tips_asc opts msa r partition :
  asc_state_weights (set_partition_tips opts msa r partition)
  = asc_state_weights partition.
Proof.
  unfold set_partition_tips.
  destruct (use_prob_msa opts && probabilistic msa);
    rewrite (foldl_invariant _ asc_state_weights) by done;
    by destruct (negb (empty_vec (msa_weights msa))).
Qed.

Lemma set_partition_tips_weights_sites opts msa r partition ws :
  sites (set_partition_tips_weights opts msa r partition ws) = sites partition.
Proof.
  unfold set_partition_tips_weights. cbn [pll_set_pattern_weights sites].
  by destruct (use_prob_msa opts && probabilistic msa);
    rewrite (foldl_invariant _ sites) by done.
Qed.

Lemma set_partition_tips_weights_attributes opts msa r partition ws :
  attributes (set_partition_tips_weights opts msa r partition ws)
  = attributes partition.
Proof.
  unfold set_partition_tips_weights. cbn [pll_set_pattern_weights attributes].
  by destruct (use_prob_msa opts && probabilistic msa);
    rewrite (foldl_invariant _ attributes) by done.
Qed.

Lemma set_partition_tips_weights_asc opts msa r partition ws :
  asc_state_weights (set_partition_tips_weights opts msa r partition ws)
  = asc_state_weights partition.
Proof.
  unfold set_partition_tips_weights.
  cbn [pll_set_pattern_weights asc_state_weights].
  by destruct (use_prob_msa opts && probabilistic msa);
    rewrite (foldl_invariant _ asc_state_weights) by done.
Qed.

Lemma set_partition_tips_weights_pattern opts msa r partition ws :
  pattern_weights (set_partition_tips_weights opts msa r partition ws)
  = Some (take (Z.to_nat (sites partition))
            (comp_weights ws (PartitionRange.start r)
               (wrap (PartitionRange.start r + PartitionRange.length r)))).
Proof.
  unfold set_partition_tips_weights.
  cbn [pll_set_pattern_weights pattern_weights].
  by destruct (use_prob_msa opts && probabilistic msa);
    rewrite (foldl_invariant _ sites) by done.
Qed.

(** What a successful [create_pll_partition] returns, step by step. *)
Lemma create_pll_partition_ok opts pinfo r ws partition :
  create_pll_partition opts pinfo r ws = Ok partition →
  ∃ attrs created,
    partition_attributes opts pinfo r = Ok attrs
    ∧ sites created = part_length r ws
    ∧ attributes created = attrs
    ∧ asc_state_weights created = None
    ∧ partition =
        assign_partition
          (let partition :=
             if PartitionRange.master r
                && negb (empty_vec (ascbias_weights (pinfo_model pinfo)))
             then pll_set_asc_state_weights created
                    (ascbias_weights (pinfo_model pinfo))
             else created in
           if part_length r ws =? PartitionRange.length r
           then set_partition_tips opts (pinfo_msa pinfo) r partition
           else set_partition_tips_weights opts (pinfo_msa pinfo) r partition ws)
          (pinfo_model pinfo).
Proof.
  unfold create_pll_partition.
  destruct (partition_attributes opts pinfo r) as [attrs|e]; [|done].
  cbn [mbind result_bind].
  unfold pll_partition_create.
  destruct (pll_partition_create_error _); [done|].
  intros [= <-]. eexists attrs, _.
  split; [reflexivity|].
  split; [|split; [|split]]; [| | |reflexivity]; reflexivity.
Qed.

End PartitionFacts.

(** ** C10: the site count of a kernel partition *)

(** C10 (the code at the failing input).  A probabilistic alignment of four
    taxa and three columns, handed over with probabilistic tips in use, and
    a replicate that drops the first column and takes the third twice.
    [create_pll_partition] counts the two columns of positive weight,
    selects the overload of [set_partition_tips] that skips columns of
    weight zero and compresses the weights to 1, 2.  The tips, however, are
    built by [build_clv] from the weights of the alignment itself, which are
    all positive: the buffer holds the three columns of the range, not two,
    and what the kernel reads from it for its two sites are the columns 0
    and 1, not the columns 1 and 2 of positive weight.  On the same input
    without probabilistic tips, the character branch hands over the columns
    1 and 2. *)
Theorem create_pll_partition_probabilistic_tips :
  let opts := Fixtures.with_prob_msa Fixtures.options in
  let msa := Fixtures.msa4_prob in
  let pinfo := {| pinfo_msa := msa; pinfo_model := Fixtures.dna_model asc_none |} in
  let r := PartitionRange.mk 0 0 3 true in
  let weights := [0; 1; 2] in
  let column0 := [d_one; dzero; dzero; dzero] in
  let column1 := [dzero; d_one; dzero; dzero] in
  let column2 := [dzero; dzero; d_one; dzero] in
  positive_sites weights r = [1; 2]
  ∧ skips_zero_weights r weights = true
  ∧ (∀ i, 0 ≤ i < 4 → at_ (probs msa) i = column0 ++ column1 ++ column2)
  ∧ (∀ i, 0 ≤ i < 4 →
       build_clv (at_ (probs msa) i) 3 (msa_weights msa) 4
         (negb (normalized msa))
       = column0 ++ column1 ++ column2)
  ∧ match create_pll_partition (constants := Fixtures.pll_constants)
            (shape := Fixtures.basic_tree) (pkernel := Fixtures.accepting)
            opts pinfo r weights with
    | Ok partition =>
        sites partition = 2
        ∧ pattern_weights partition = Some [1; 2]
        ∧ tip partition
          = (fun i => (i, TipClv (column0 ++ column1))) <$> [0; 1; 2; 3]
    | Throw _ => False
    end
  ∧ match create_pll_partition (constants := Fixtures.pll_constants)
            (shape := Fixtures.basic_tree) (pkernel := Fixtures.accepting)
            Fixtures.options pinfo r weights with
    | Ok partition =>
        sites partition = 2
        ∧ pattern_weights partition = Some [1; 2]
        ∧ tip partition
          = (fun i => (i, TipStates (Fixtures.seq_of "CG"))) <$> [0; 1; 2; 3]
    | Throw _ => False
    end.
Proof.
  intros opts msa pinfo r weights column0 column1 column2.
  split; [reflexivity|]. split; [reflexivity|].
  split.
  { intros i Hi.
    assert (i = 0 ∨ i = 1 ∨ i = 2 ∨ i = 3) as [->|[->|[->| ->]]] by lia;
      reflexivity. }
  split.
  { intros i Hi.
    assert (i = 0 ∨ i = 1 ∨ i = 2 ∨ i = 3) as [->|[->|[->| ->]]] by lia;
      vm_compute; reflexivity. }
  split; vm_compute; repeat split.
Qed.

(** ** C1: the ascertainment-bias correction of a split partition *)

Lemma land_lor_zero (a b f : Z) :
  Z.land a f = 0 → Z.land b f = 0 → Z.land (Z.lor a b) f = 0.
Proof. intros Ha Hb. by rewrite Z.land_lor_distr_l, Ha, Hb. Qed.

Lemma land_lor_flag (a c f : Z) :
  f ≠ 0 → Z.land (Z.lor (Z.lor a f) c) f ≠ 0.
Proof.
  intros Hf. rewrite !Z.land_lor_distr_l, Z.land_diag.
  intros Hz. apply Z.lor_eq_0_iff in Hz as [Hz _].
  apply Z.lor_eq_0_iff in Hz as [_ Hz]. done.
Qed.

Section BiasCorrection.
Context {constants : PllConstants} {shape : BasicTree}
        {pkernel : PartitionKernel}.

Lemma partition_attributes_ab_flag opts pinfo r attrs :
  ab_flag_distinct opts →
  partition_attributes opts pinfo r = Ok attrs →
  flag_set attrs PLL_ATTRIB_AB_FLAG
  = bool_decide (ascbias_type (pinfo_model pinfo) = asc_lewis)
    || (bool_decide (ascbias_type (pinfo_model pinfo) ≠ asc_none)
        && PartitionRange.master r).
Proof.
  intros (Hf & Hsimd & Hrs & Hpt & Hsr). unfold partition_attributes.
  set (a1 := if use_rate_scalers opts && (1 <? num_ratecats (pinfo_model pinfo))
             then Z.lor (simd_arch opts) PLL_ATTRIB_RATE_SCALERS
             else simd_arch opts).
  assert (H1 : Z.land a1 PLL_ATTRIB_AB_FLAG = 0).
  { subst a1.
    destruct (use_rate_scalers opts && (1 <? num_ratecats (pinfo_model pinfo)));
      [by apply land_lor_zero|done]. }
  set (a2 := if use_tip_inner opts && (100 <? msa_length (pinfo_msa pinfo))
             then Z.lor a1 PLL_ATTRIB_PATTERN_TIP else a1).
  assert (H2 : Z.land a2 PLL_ATTRIB_AB_FLAG = 0).
  { subst a2.
    destruct (use_tip_inner opts && (100 <? msa_length (pinfo_msa pinfo)));
      [by apply land_lor_zero|done]. }
  set (a3 := if use_repeats opts && (16 <? msa_length (pinfo_msa pinfo))
             then Z.lor a2 PLL_ATTRIB_SITE_REPEATS else a2).
  assert (H3 : Z.land a3 PLL_ATTRIB_AB_FLAG = 0).
  { subst a3.
    destruct (use_repeats opts && (16 <? msa_length (pinfo_msa pinfo)));
      [by apply land_lor_zero|done]. }
  set (cond := bool_decide (ascbias_type (pinfo_model pinfo) = asc_lewis)
               || (bool_decide (ascbias_type (pinfo_model pinfo) ≠ asc_none)
                   && PartitionRange.master r)).
  intros Hattrs.
  assert (Hres : attrs = if cond
                         then Z.lor (Z.lor a3 PLL_ATTRIB_AB_FLAG)
                                (ascbias_attr (ascbias_type (pinfo_model pinfo)))
                         else a3).
  { subst a1 a2 a3 cond. revert Hattrs.
    destruct (use_rate_scalers opts), (1 <? num_ratecats (pinfo_model pinfo)),
      (negb (num_states (pinfo_model pinfo) =? 4)), (use_tip_inner opts),
      (use_repeats opts), (100 <? msa_length (pinfo_msa pinfo)),
      (16 <? msa_length (pinfo_msa pinfo));
      cbn [andb mbind result_bind]; try done;
      by destruct (_ || _); intros [= <-]. }
  rewrite Hres. unfold flag_set. destruct cond.
  - apply negb_true_iff, Z.eqb_neq. by apply land_lor_flag.
  - apply negb_false_iff, Z.eqb_eq. done.
Qed.

Lemma bias_corrected_spec opts pinfo weights r :
  ab_flag_distinct opts →
  is_ok (create_pll_partition opts pinfo r weights) = true →
  bias_corrected opts pinfo weights r
  = bool_decide (ascbias_type (pinfo_model pinfo) = asc_lewis)
    || (bool_decide (ascbias_type (pinfo_model pinfo) ≠ asc_none)
        && PartitionRange.master r).
Proof.
  intros Hd Hok. unfold bias_corrected.
  destruct (create_pll_partition opts pinfo r weights) as [partition|e] eqn:Hc;
    [|done].
  apply create_pll_partition_ok in Hc
    as (attrs & created & Hattrs & _ & Hca & _ & ->).
  cbn [assign_partition attributes].
  rewrite <- (partition_attributes_ab_flag opts pinfo r attrs Hd Hattrs).
  f_equal. rewrite <- Hca.
  destruct (part_length r weights =? PartitionRange.length r).
  - rewrite set_partition_tips_attributes. by destruct (_ && _).
  - rewrite set_partition_tips_weights_attributes. by destruct (_ && _).
Qed.

Lemma asc_state_weights_master opts pinfo weights r partition :
  create_pll_partition opts pinfo r weights = Ok partition →
  asc_state_weights partition ≠ None → PartitionRange.master r = true.
Proof.
  intros Hc. apply create_pll_partition_ok in Hc
    as (attrs & created & _ & _ & _ & Hasc & ->).
  cbn [assign_partition asc_state_weights].
  destruct (PartitionRange.master r); [done|]. cbn [andb].
  destruct (part_length r weights =? PartitionRange.length r).
  - by rewrite set_partition_tips_asc, Hasc.
  - by rewrite set_partition_tips_weights_asc, Hasc.
Qed.

End BiasCorrection.

(** C1 (as amended).  Let a partition be split into the ranges [rs], one
    per worker, each of which the kernel accepts.  If its model enables an
    ascertainment-bias correction other than the Lewis one, the kernel
    partitions that carry the correction flag are exactly those built from
    the ranges flagged master, so with one master range the correction is
    applied once.  Under the Lewis correction every worker's kernel partition
    carries the flag.  In both cases the state weights of the correction are
    handed to the kernel for master ranges only. *)
Theorem bias_correction_by_master
    {constants : PllConstants} {shape : BasicTree} {pkernel : PartitionKernel}
    (opts : Options) (pinfo : PartitionInfo) (weights : list Z)
    (rs : list PartitionRange.t) :
  ab_flag_distinct opts →
  Forall (fun r => is_ok (create_pll_partition opts pinfo r weights) = true) rs →
  let asc := ascbias_type (pinfo_model pinfo) in
  (asc ≠ asc_none → asc ≠ asc_lewis →
   List.filter (bias_corrected opts pinfo weights) rs
   = List.filter PartitionRange.master rs)
  ∧ (asc = asc_lewis → List.filter (bias_corrected opts pinfo weights) rs = rs)
  ∧ (∀ r partition,
        create_pll_partition opts pinfo r weights = Ok partition →
        asc_state_weights partition ≠ None → PartitionRange.master r = true).
Proof.
  intros Hd Hok asc. split; [|split].
  - intros Hnone Hlewis. induction Hok as [|r rs Hr Hrs IH]; [done|].
    cbn [List.filter]. rewrite IH.
    rewrite (bias_corrected_spec opts pinfo weights r Hd Hr).
    fold asc. rewrite (bool_decide_eq_false_2 _ Hlewis).
    by rewrite (bool_decide_eq_true_2 _ Hnone).
  - intros Hlewis. induction Hok as [|r rs Hr Hrs IH]; [done|].
    cbn [List.filter]. rewrite IH.
    rewrite (bias_corrected_spec opts pinfo weights r Hd Hr).
    fold asc. by rewrite (bool_decide_eq_true_2 _ Hlewis).
  - intros r partition. apply asc_state_weights_master.
Qed.

(** A partition under the Felsenstein correction, split between two
    workers. *)
Lemma bias_correction_by_master_witness :
  let pinfo := {| pinfo_msa := Fixtures.msa4;
                  pinfo_model := Fixtures.dna_model asc_felsenstein |} in
  let rs := [PartitionRange.mk 0 0 3 true; PartitionRange.mk 0 3 3 false] in
  List.filter (bias_corrected (constants := Fixtures.pll_constants)
                 (shape := Fixtures.basic_tree) (pkernel := Fixtures.accepting)
                 Fixtures.options pinfo (msa_weights Fixtures.msa4)) rs
  = [PartitionRange.mk 0 0 3 true].
Proof.
  intros pinfo rs.
  destruct (bias_correction_by_master
              (constants := Fixtures.pll_constants)
              (shape := Fixtures.basic_tree) (pkernel := Fixtures.accepting)
              Fixtures.options pinfo (msa_weights Fixtures.msa4) rs)
    as (Hmaster & _ & _).
  - repeat split; try reflexivity. simpl. lia.
  - repeat constructor.
  - apply Hmaster; simpl; congruence.
Defined.

(** C1 as stated fails for the Lewis correction: of the two workers that
    share the partition, one holds the master range, and both kernel
    partitions carry the correction flag. *)
Lemma bias_correction_lewis_on_every_worker :
  let pinfo := {| pinfo_msa := Fixtures.msa4;
                  pinfo_model := Fixtures.dna_model asc_lewis |} in
  let rs := [PartitionRange.mk 0 0 3 true; PartitionRange.mk 0 3 3 false] in
  ascbias_type (pinfo_model pinfo) ≠ asc_none
  ∧ length (List.filter PartitionRange.master rs) = 1%nat
  ∧ List.filter (bias_corrected (constants := Fixtures.pll_constants)
                   (shape := Fixtures.basic_tree) (pkernel := Fixtures.accepting)
                   Fixtures.options pinfo (msa_weights Fixtures.msa4)) rs
    = rs.
Proof.
  split; [simpl; congruence|].
  split; [reflexivity | vm_compute; reflexivity].
Qed.

(** ** C9: the model setter *)

(** C9.  On a tree-info structure whose arrays have one entry per
    partition, [TreeInfo::model(partition_id, model)] throws an out-of-range
    error and leaves the state as it is when [partition_id] is not below the
    partition count; returns normally and changes nothing when the slot of
    the partition is null; and for a partition the worker holds overwrites
    the model parameters of that partition (afterwards the partition holds
    the parameters of the model given, whatever it held before, and is
    otherwise as it was), its alpha and (where the structure has
    branch-length scalers) its scaler, and nothing else. *)
Theorem model_setter_cases {kernel : LikelihoodKernel}
    (t : TreeInfo) (partition_id : Z) (m : Model) :
  let ti := _pll_treeinfo t in
  let i := Z.to_nat partition_id in
  0 ≤ partition_id →
  length (partitions ti) = Z.to_nat (partition_count ti) →
  length (alphas ti) = Z.to_nat (partition_count ti) →
  (∀ s, brlen_scalers ti = Some s → length s = Z.to_nat (partition_count ti)) →
  (partition_count ti ≤ partition_id →
   model partition_id m t
   = (Throw (out_of_range "Partition ID out of range"), t))
  ∧ (partition_id < partition_count ti → partitions ti !! i = Some None →
     model partition_id m t = (Ok (), t))
  ∧ (partition_id < partition_count ti →
     ∀ partition, partitions ti !! i = Some (Some partition) →
     ∃ t' partition', model partition_id m t = (Ok (), t')
       ∧ partitions (_pll_treeinfo t') !! i = Some (Some partition')
       ∧ partition_params partition' = Some (model_params m)
       ∧ (tips partition', clv_buffers partition', states partition',
          sites partition', rate_matrices partition', prob_matrices partition',
          rate_cats partition', scale_buffers partition', attributes partition')
         = (tips partition, clv_buffers partition, states partition,
            sites partition, rate_matrices partition, prob_matrices partition,
            rate_cats partition, scale_buffers partition, attributes partition)
       ∧ pattern_weights partition' = pattern_weights partition
       ∧ asc_state_weights partition' = asc_state_weights partition
       ∧ tip partition' = tip partition
       ∧ alphas (_pll_treeinfo t') !! i = Some (model_alpha m)
       ∧ (∀ s, brlen_scalers ti = Some s →
          ∃ s', brlen_scalers (_pll_treeinfo t') = Some s'
                ∧ s' !! i = Some (model_brlen_scaler m)
                ∧ ∀ j, j ≠ i → s' !! j = s !! j)
       ∧ (brlen_scalers ti = None → brlen_scalers (_pll_treeinfo t') = None)
       ∧ (∀ j, j ≠ i →
          partitions (_pll_treeinfo t') !! j = partitions ti !! j
          ∧ alphas (_pll_treeinfo t') !! j = alphas ti !! j)
       ∧ params_to_optimize (_pll_treeinfo t') = params_to_optimize ti
       ∧ partition_count (_pll_treeinfo t') = partition_count ti
       ∧ treeinfo_brlen_linkage (_pll_treeinfo t') = treeinfo_brlen_linkage ti
       ∧ root (_pll_treeinfo t') = root ti
       ∧ _parts_master t' = _parts_master t
       ∧ pll_errno t' = pll_errno t
       ∧ kernel_calls t' = kernel_calls t).
Proof.
  intros ti i Hpos Hparts Halphas Hscalers. subst ti i.
  split; [|split].
  - intros Hge. unfold model.
    by destruct (Z.leb_spec (partition_count (_pll_treeinfo t)) partition_id);
      [|lia].
  - intros Hlt Hnull. unfold model.
    destruct (Z.leb_spec (partition_count (_pll_treeinfo t)) partition_id);
      [lia|].
    unfold at_. by rewrite (list_lookup_total_correct _ _ _ Hnull).
  - intros Hlt partition Hown. unfold model.
    destruct (Z.leb_spec (partition_count (_pll_treeinfo t)) partition_id);
      [lia|].
    unfold at_. rewrite (list_lookup_total_correct _ _ _ Hown).
    eexists _, (assign_partition partition m). split; [reflexivity|]. cbn.
    split; [apply list_lookup_insert_eq; lia|].
    do 5 (split; [reflexivity|]).
    split; [apply list_lookup_insert_eq; lia|].
    split.
    { intros s Hs. rewrite Hs. eexists. split; [reflexivity|].
      specialize (Hscalers s Hs).
      split; [apply list_lookup_insert_eq; lia|].
      intros j Hj. by apply list_lookup_insert_ne. }
    split; [by intros ->|].
    split; [|done].
    intros j Hj. split; by apply list_lookup_insert_ne.
Qed.

Lemma model_setter_cases_witness :
  let t := Fixtures.state2 (Fixtures.quiet dzero) (Fixtures.treeinfo2 0 0) in
  fst (model 2 Fixtures.model2 t) = Throw (out_of_range "Partition ID out of range")
  ∧ model 1 Fixtures.model2 t = (Ok (), t)
  ∧ ∃ t' partition',
      model 0 Fixtures.model2 t = (Ok (), t')
      ∧ partitions (_pll_treeinfo t') !! 0%nat = Some (Some partition')
      ∧ partition_params Fixtures.partition0
        ≠ Some (model_params Fixtures.model2)
      ∧ partition_params partition' = Some (model_params Fixtures.model2)
      ∧ sites partition' = sites Fixtures.partition0
      ∧ alphas (_pll_treeinfo t') !! 0%nat = Some (model_alpha Fixtures.model2).
Proof.
  intros t.
  destruct (model_setter_cases (kernel := Fixtures.quiet dzero) t 2 Fixtures.model2)
    as (Hout & _ & _); [lia|reflexivity|reflexivity|by intros s [= <-]|].
  destruct (model_setter_cases (kernel := Fixtures.quiet dzero) t 1 Fixtures.model2)
    as (_ & Hnull & _); [lia|reflexivity|reflexivity|by intros s [= <-]|].
  destruct (model_setter_cases (kernel := Fixtures.quiet dzero) t 0 Fixtures.model2)
    as (_ & _ & Hown); [lia|reflexivity|reflexivity|by intros s [= <-]|].
  split; [rewrite Hout; [reflexivity|simpl; lia]|].
  split; [apply Hnull; [simpl; lia|reflexivity]|].
  destruct (Hown ltac:(simpl; lia) Fixtures.partition0 eq_refl)
    as (t' & partition' & Ht' & Hslot & Hparams & Hshape & _ & _ & _ & Ha & _).
  exists t', partition'. split; [exact Ht'|]. split; [exact Hslot|].
  split; [vm_compute; discriminate|]. split; [exact Hparams|].
  split; [by injection Hshape|exact Ha].
Defined.

(** ** C3: a round of subtree pruning and regrafting *)

Lemma double_to_bool_false (v : double) :
  double_to_bool v = false ↔ kernel_reports_failure v.
Proof.
  unfold double_to_bool, kernel_reports_failure. split.
  - intros Hv. destruct v as [s|[]| |[] m e]; cbn in Hv;
      try discriminate Hv; by eexists.
  - by intros [s ->].
Qed.

Lemma M_bind_unfold {kernel : LikelihoodKernel} {A B}
    (m : M A) (k : A → M B) (t : TreeInfo) :
  (m ≫= k) t
  = match m t with
    | (Ok a, t') => k a t'
    | (Throw e, t') => (Throw e, t')
    end.
Proof. reflexivity. Qed.

Lemma call_eq {kernel : LikelihoodKernel} (c : kernel_call) (t : TreeInfo) :
  call c t = (Ok (value_of c t), after c t).
Proof. reflexivity. Qed.

Lemma after_calls {kernel : LikelihoodKernel} (c : kernel_call) (t : TreeInfo) :
  kernel_calls (after c t) = kernel_calls t ++ [c].
Proof. reflexivity. Qed.

Lemma after_fixed {constants : PllConstants} {kernel : LikelihoodKernel}
    (c : kernel_call) (t : TreeInfo) :
  params_to_optimize (_pll_treeinfo (after c t))
  = params_to_optimize (_pll_treeinfo t)
  ∧ scaled_multi (_pll_treeinfo (after c t)) = scaled_multi (_pll_treeinfo t).
Proof. split; reflexivity. Qed.

Lemma spr_round_unfold {raxml : RaxmlConstants} {kernel : LikelihoodKernel}
    (params : spr_round_params) (t : TreeInfo) :
  let c := pllmod_algo_spr_round
             (radius_min params) (radius_max params) (ntopol_keep params)
             (thorough params) RAXML_BRLEN_MIN RAXML_BRLEN_MAX
             RAXML_BRLEN_SMOOTHINGS d0_1
             (dltb dzero (subtree_cutoff params)) (subtree_cutoff params) in
  spr_round params t
  = if double_to_bool (value_of c t) then (Ok (value_of c t), after c t)
    else (Throw (runtime_error
                   ("ERROR in SPR round: " +:+ pll_errmsg (after c t))),
          after c t).
Proof.
  cbv zeta. unfold spr_round. rewrite M_bind_unfold, call_eq.
  rewrite M_bind_unfold. unfold get.
  by destruct (double_to_bool _).
Qed.

(** C3.  [spr_round] makes one call into the kernel, the search round; it
    raises a search error if and only if the kernel reports failure for the
    round, and otherwise returns the log-likelihood of the round as the
    kernel gave it. *)
Theorem spr_round_error_iff
    {raxml : RaxmlConstants} {kernel : LikelihoodKernel}
    (params : spr_round_params) (t : TreeInfo) :
  ∃ c, is_spr_round c = true
    ∧ kernel_calls (snd (spr_round params t)) = kernel_calls t ++ [c]
    ∧ (throws (fst (spr_round params t)) = true
       ↔ kernel_reports_failure (value_of c t))
    ∧ (kernel_reports_failure (value_of c t) →
       ∃ msg, fst (spr_round params t)
              = Throw (runtime_error ("ERROR in SPR round: " +:+ msg)))
    ∧ (¬ kernel_reports_failure (value_of c t) →
       fst (spr_round params t) = Ok (value_of c t)).
Proof.
  pose proof (spr_round_unfold params t) as Hu. cbv zeta in Hu.
  set (c := pllmod_algo_spr_round _ _ _ _ _ _ _ _ _ _) in Hu.
  exists c. rewrite Hu, <- double_to_bool_false.
  split; [reflexivity|].
  destruct (double_to_bool _) eqn:Hb; cbn [fst snd].
  - split; [apply after_calls|]. split; [done|]. split; [done|]. done.
  - split; [apply after_calls|]. split; [done|]. split; [by eexists|]. done.
Qed.

(** ** C4: the optimisation of branch lengths *)

Section OptimizeBranches.
Context {constants : PllConstants} {raxml : RaxmlConstants}
        {kernel : LikelihoodKernel}.

Lemma optimize_branches_unfold (lh_epsilon brlen_smooth_factor : double)
    (t : TreeInfo) :
  let blo := brlen_opt_call lh_epsilon brlen_smooth_factor in
  let t1 := after loglh_call t in
  let t2 := after blo t1 in
  let scale (v : double) (t : TreeInfo) :=
    if scaled_multi (_pll_treeinfo t)
    then (Ok (dmul dminus_one (value_of scaler_opt_call t)),
          after pllmod_treeinfo_normalize_brlen_scalers (after scaler_opt_call t))
    else (Ok v, t) in
  optimize_branches lh_epsilon brlen_smooth_factor t
  = if iterative_enabled t then
      if negb (pll_errno t2 =? 0)
      then (Throw (runtime_error
                     ("ERROR in branch lenght optimization: " +:+ pll_errmsg t2)),
            t2)
      else scale (dmul dminus_one (value_of blo t1)) t2
    else scale (value_of loglh_call t) t1.
Proof.
  cbv zeta. unfold optimize_branches, loglh, iterative_enabled.
  rewrite M_bind_unfold, call_eq. fold loglh_call.
  rewrite M_bind_unfold. unfold get at 1. cbn iota.
  rewrite M_bind_unfold.
  destruct (after_fixed loglh_call t) as [-> _].
  destruct (flag_set _ _).
  - rewrite M_bind_unfold, call_eq. fold (brlen_opt_call lh_epsilon brlen_smooth_factor).
    rewrite M_bind_unfold. unfold get at 1. cbn iota.
    destruct (negb (pll_errno _ =? 0)); [reflexivity|].
    unfold mret, M_ret. rewrite M_bind_unfold. unfold get. cbn iota.
    destruct (scaled_multi _); [|reflexivity].
    rewrite M_bind_unfold, call_eq. fold scaler_opt_call.
    by rewrite M_bind_unfold, call_eq.
  - unfold mret, M_ret. rewrite M_bind_unfold. unfold get. cbn iota.
    destruct (scaled_multi _); [|reflexivity].
    rewrite M_bind_unfold, call_eq. fold scaler_opt_call.
    by rewrite M_bind_unfold, call_eq.
Qed.

End OptimizeBranches.

(** C4 (as amended).  [optimize_branches] first re-evaluates the
    log-likelihood.  It raises a numerical error exactly when the iterative
    stage runs (the flags of partition 0 enable it) and the kernel's error
    indicator is set after that stage.  Otherwise it returns the
    log-likelihood of the last stage executed: of the scaler optimisation
    under proportional linkage with more than one partition, else of the
    iterative stage if it ran, else of the initial evaluation.  The error
    indicator is not consulted after the scaler stage. *)
Theorem optimize_branches_result
    {constants : PllConstants} {raxml : RaxmlConstants}
    {kernel : LikelihoodKernel}
    (lh_epsilon brlen_smooth_factor : double) (t : TreeInfo) :
  let blo := brlen_opt_call lh_epsilon brlen_smooth_factor in
  let t1 := after loglh_call t in
  let t2 := after blo t1 in
  let r := optimize_branches lh_epsilon brlen_smooth_factor t in
  let failed := iterative_enabled t && negb (pll_errno t2 =? 0) in
  (throws (fst r) = failed)
  ∧ (failed = true →
     r = (Throw (runtime_error
                   ("ERROR in branch lenght optimization: " +:+ pll_errmsg t2)),
          t2))
  ∧ (failed = false →
     let t' := if iterative_enabled t then t2 else t1 in
     fst r
     = Ok (if scaled_multi (_pll_treeinfo t)
           then dmul dminus_one (value_of scaler_opt_call t')
           else if iterative_enabled t
                then dmul dminus_one (value_of blo t1)
                else value_of loglh_call t)).
Proof.
  cbv zeta. rewrite optimize_branches_unfold. cbv zeta.
  destruct (iterative_enabled t); cbn [andb].
  - destruct (negb (pll_errno _ =? 0)).
    + split; [done|]. split; [done|]. done.
    + destruct (after_fixed (brlen_opt_call lh_epsilon brlen_smooth_factor)
                  (after loglh_call t)) as [_ ->].
      destruct (after_fixed loglh_call t) as [_ ->].
      by destruct (scaled_multi _).
  - destruct (after_fixed loglh_call t) as [_ ->].
    by destruct (scaled_multi _).
Qed.

(** C4 as stated fails for the scaler stage: with two partitions under
    proportional linkage, a kernel whose one-dimensional optimiser sets the
    error indicator makes [optimize_branches] run all its stages and return
    normally, the indicator still set. *)
Lemma optimize_branches_ignores_scaler_error :
  let t := Fixtures.state2 (Fixtures.failing_onedim (double_of_Z (-100)))
             (Fixtures.treeinfo2 1 64) in
  let r := optimize_branches (constants := Fixtures.pll_constants)
             (raxml := Fixtures.raxml_constants) d0_1 d_one t in
  let blo := brlen_opt_call (raxml := Fixtures.raxml_constants) d0_1 d_one in
  let sc := scaler_opt_call (constants := Fixtures.pll_constants)
              (raxml := Fixtures.raxml_constants) in
  kernel_calls (snd r)
  = [loglh_call; blo; sc; pllmod_treeinfo_normalize_brlen_scalers]
  ∧ pll_errno (after blo (after loglh_call t)) = 0
  ∧ pll_errno (after sc (after blo (after loglh_call t))) = 1
  ∧ fst r = Ok (double_of_Z 100)
  ∧ pll_errno (snd r) = 1.
Proof. vm_compute. repeat split. Qed.

(** ** C5: the optimisation of model parameters *)

Section OptimizeParams.
Context {constants : PllConstants} {raxml : RaxmlConstants}
        {kernel : LikelihoodKernel}.

Lemma after_if_calls (b : bool) (c : kernel_call) (t : TreeInfo) :
  kernel_calls (after_if b c t) = kernel_calls t ++ (if b then [c] else []).
Proof. destruct b; [apply after_calls|by rewrite app_nil_r]. Qed.

Lemma after_if_fixed (b : bool) (c : kernel_call) (t : TreeInfo) :
  iterative_enabled (after_if b c t) = iterative_enabled t
  ∧ scaled_multi (_pll_treeinfo (after_if b c t)) = scaled_multi (_pll_treeinfo t).
Proof. by destruct b. Qed.

(** One stage of [optimize_params]. *)
Lemma stage_step (b : bool) (c : kernel_call) (x : double) (t : TreeInfo) :
  (if b then v ← call c; mret (dmul dminus_one v) else mret x) t
  = (Ok (if b then dmul dminus_one (value_of c t) else x), after_if b c t).
Proof. destruct b; [|done]. by rewrite M_bind_unfold, call_eq. Qed.

(** The calls [optimize_branches] makes. *)
Lemma optimize_branches_calls (lh_epsilon brlen_smooth_factor : double)
    (t : TreeInfo) :
  let r := optimize_branches lh_epsilon brlen_smooth_factor t in
  kernel_calls (snd r)
  = kernel_calls t
    ++ loglh_call
       :: (if iterative_enabled t
           then [brlen_opt_call lh_epsilon brlen_smooth_factor] else [])
       ++ (if throws (fst r) then []
           else if scaled_multi (_pll_treeinfo t)
                then [scaler_opt_call; pllmod_treeinfo_normalize_brlen_scalers]
                else []).
Proof.
  cbv zeta. rewrite optimize_branches_unfold. cbv zeta.
  destruct (iterative_enabled t).
  - destruct (negb (pll_errno _ =? 0)).
    + cbn [fst snd throws is_ok negb]. rewrite !after_calls.
      by rewrite <- ?app_assoc.
    + destruct (after_fixed (brlen_opt_call lh_epsilon brlen_smooth_factor)
                  (after loglh_call t)) as [_ ->].
      destruct (after_fixed loglh_call t) as [_ ->].
      destruct (scaled_multi _); cbn [fst snd throws is_ok negb];
        rewrite !after_calls; by rewrite <- ?app_assoc.
  - destruct (after_fixed loglh_call t) as [_ ->].
    destruct (scaled_multi _); cbn [fst snd throws is_ok negb];
      rewrite !after_calls; by rewrite <- ?app_assoc.
Qed.

Lemma optimize_branches_throws (lh_epsilon brlen_smooth_factor : double)
    (t : TreeInfo) :
  throws (fst (optimize_branches lh_epsilon brlen_smooth_factor t)) = true →
  iterative_enabled t = true.
Proof.
  rewrite optimize_branches_unfold. cbv beta zeta.
  destruct (iterative_enabled t); [done|].
  by destruct (scaled_multi _).
Qed.

End OptimizeParams.

Section OptimizeParamsCalls.
Context {constants : PllConstants} {raxml : RaxmlConstants}
        {kernel : LikelihoodKernel}.

Lemma free_rates_step (b : bool) (x : double) (t : TreeInfo) :
  (if b then
     v ← call free_rates_call;
     t' ← get;
     _ ← (if scaled_multi (_pll_treeinfo t')
          then call pllmod_treeinfo_normalize_brlen_scalers
          else mret dzero);
     mret (dmul dminus_one v)
   else mret x) t
  = (Ok (if b then dmul dminus_one (value_of free_rates_call t) else x),
     if b
     then after_if (scaled_multi (_pll_treeinfo t))
            pllmod_treeinfo_normalize_brlen_scalers (after free_rates_call t)
     else t).
Proof.
  destruct b; [|done].
  rewrite M_bind_unfold, call_eq, M_bind_unfold. unfold get at 1. cbn iota.
  destruct (after_fixed free_rates_call t) as [_ ->].
  rewrite M_bind_unfold.
  destruct (scaled_multi _); [by rewrite call_eq|done].
Qed.

Lemma optimize_params_unfold (flags : Z) (lh_epsilon indeterminate : double)
    (t : TreeInfo) :
  let b1 := flag_set flags PLLMOD_OPT_PARAM_SUBST_RATES in
  let b2 := flag_set flags PLLMOD_OPT_PARAM_FREQUENCIES in
  let b3 := flag_set flags PLLMOD_OPT_PARAM_ALPHA in
  let b4 := flag_set flags PLLMOD_OPT_PARAM_PINV in
  let b5 := flag_set flags PLLMOD_OPT_PARAM_FREE_RATES in
  let t1 := after_if b1 rates_call t in
  let t2 := after_if b2 freqs_call t1 in
  let t3 := after_if b3 alpha_call t2 in
  let t4 := after_if b4 pinv_call t3 in
  let t5 := if b5
            then after_if (scaled_multi (_pll_treeinfo t4))
                   pllmod_treeinfo_normalize_brlen_scalers
                   (after free_rates_call t4)
            else t4 in
  ∃ v, optimize_params flags lh_epsilon indeterminate t
       = if flag_set flags PLLMOD_OPT_PARAM_BRANCHES_ITERATIVE
         then optimize_branches lh_epsilon d0_25 t5
         else (Ok v, t5).
Proof.
  cbv zeta. unfold optimize_params.
  rewrite M_bind_unfold. fold rates_call. rewrite stage_step.
  rewrite M_bind_unfold. fold freqs_call. rewrite stage_step.
  rewrite M_bind_unfold. fold alpha_call. rewrite stage_step.
  rewrite M_bind_unfold. fold pinv_call. rewrite stage_step.
  rewrite M_bind_unfold. fold free_rates_call. rewrite free_rates_step.
  eexists. destruct (flag_set flags PLLMOD_OPT_PARAM_BRANCHES_ITERATIVE);
    reflexivity.
Qed.

End OptimizeParamsCalls.

(** C5 (as amended).  For every set of requested flags, [optimize_params]
    calls the kernel's optimisers for the five classes of model parameters
    exactly for the classes whose flag is set, in the order substitution
    rates, base frequencies, alpha, proportion of invariant sites, free
    rates and weights (followed by the normalisation of the branch-length
    scalers under proportional linkage with more than one partition), and
    then, exactly when the branch-length flag is set, runs the branch-length
    stage [optimize_branches].  That stage re-evaluates the log-likelihood,
    calls the iterative branch-length optimiser only if the state's own
    flags for partition 0 enable it, and, unless that call failed, optimises
    and normalises the scalers under proportional linkage with more than one
    partition.  No other call is made; an exception can only come from an
    enabled iterative branch-length optimisation. *)
Theorem optimize_params_calls
    {constants : PllConstants} {raxml : RaxmlConstants}
    {kernel : LikelihoodKernel}
    (flags : Z) (lh_epsilon indeterminate : double) (t : TreeInfo) :
  let r := optimize_params flags lh_epsilon indeterminate t in
  kernel_calls (snd r)
  = kernel_calls t ++ model_stage_calls flags t
    ++ branch_stage_calls flags lh_epsilon t (throws (fst r))
  ∧ (throws (fst r) = true →
     flag_set flags PLLMOD_OPT_PARAM_BRANCHES_ITERATIVE = true
     ∧ iterative_enabled t = true).
Proof.
  cbv zeta.
  destruct (optimize_params_unfold flags lh_epsilon indeterminate t)
    as [v Hu]. cbv zeta in Hu. rewrite Hu. clear Hu.
  unfold model_stage_calls, branch_stage_calls.
  set (b1 := flag_set flags PLLMOD_OPT_PARAM_SUBST_RATES).
  set (b2 := flag_set flags PLLMOD_OPT_PARAM_FREQUENCIES).
  set (b3 := flag_set flags PLLMOD_OPT_PARAM_ALPHA).
  set (b4 := flag_set flags PLLMOD_OPT_PARAM_PINV).
  set (b5 := flag_set flags PLLMOD_OPT_PARAM_FREE_RATES).
  set (t1 := after_if b1 rates_call t).
  set (t2 := after_if b2 freqs_call t1).
  set (t3 := after_if b3 alpha_call t2).
  set (t4 := after_if b4 pinv_call t3).
  set (t5 := if b5 then _ else t4).
  assert (Hfix4 : iterative_enabled t4 = iterative_enabled t
                  ∧ scaled_multi (_pll_treeinfo t4)
                    = scaled_multi (_pll_treeinfo t)).
  { subst t4 t3 t2 t1.
    destruct (after_if_fixed b4 pinv_call
                (after_if b3 alpha_call
                   (after_if b2 freqs_call (after_if b1 rates_call t))))
      as [-> ->].
    destruct (after_if_fixed b3 alpha_call
                (after_if b2 freqs_call (after_if b1 rates_call t)))
      as [-> ->].
    destruct (after_if_fixed b2 freqs_call (after_if b1 rates_call t))
      as [-> ->].
    by destruct (after_if_fixed b1 rates_call t) as [-> ->]. }
  destruct Hfix4 as [Hit4 Hsc4].
  assert (Hfix5 : iterative_enabled t5 = iterative_enabled t
                  ∧ scaled_multi (_pll_treeinfo t5)
                    = scaled_multi (_pll_treeinfo t)).
  { subst t5. destruct b5; [|done].
    destruct (after_if_fixed (scaled_multi (_pll_treeinfo t4))
                pllmod_treeinfo_normalize_brlen_scalers
                (after free_rates_call t4)) as [-> ->].
    by rewrite <- Hit4, <- Hsc4. }
  destruct Hfix5 as [Hit5 Hsc5].
  assert (Hcalls5 : kernel_calls t5
                    = kernel_calls t
                      ++ (if b1 then [rates_call] else [])
                      ++ (if b2 then [freqs_call] else [])
                      ++ (if b3 then [alpha_call] else [])
                      ++ (if b4 then [pinv_call] else [])
                      ++ (if b5
                          then free_rates_call
                               :: (if scaled_multi (_pll_treeinfo t)
                                   then [pllmod_treeinfo_normalize_brlen_scalers]
                                   else [])
                          else [])).
  { assert (H4 : kernel_calls t4
                 = kernel_calls t
                   ++ (if b1 then [rates_call] else [])
                   ++ (if b2 then [freqs_call] else [])
                   ++ (if b3 then [alpha_call] else [])
                   ++ (if b4 then [pinv_call] else [])).
    { subst t4 t3 t2 t1. rewrite !after_if_calls. by rewrite <- !app_assoc. }
    subst t5. destruct b5.
    - rewrite after_if_calls, after_calls, H4, Hsc4.
      rewrite <- !app_assoc. done.
    - by rewrite H4, app_nil_r. }
  destruct (flag_set flags PLLMOD_OPT_PARAM_BRANCHES_ITERATIVE).
  - pose proof (optimize_branches_calls lh_epsilon d0_25 t5) as Hb.
    cbv zeta in Hb. rewrite Hb, Hcalls5, Hit5, Hsc5. clear Hb.
    split; [by rewrite <- !app_assoc|].
    intros Hth. split; [done|].
    rewrite <- Hit5. by apply (optimize_branches_throws lh_epsilon d0_25).
  - cbn [fst snd throws is_ok negb]. split; [|done].
    rewrite Hcalls5, <- !app_assoc. by rewrite app_nil_r.
Qed.

(** C5 as stated fails for the last class: branch lengths are requested,
    but the state's own flags do not enable their optimisation, and the only
    call into the kernel is the evaluation of the log-likelihood. *)
Lemma optimize_params_skips_branch_lengths :
  let t := Fixtures.state2 (Fixtures.quiet (double_of_Z (-100)))
             (Fixtures.treeinfo2 0 0) in
  let flags := PLLMOD_OPT_PARAM_BRANCHES_ITERATIVE
                 (PllConstants := Fixtures.pll_constants) in
  flag_set flags (PLLMOD_OPT_PARAM_BRANCHES_ITERATIVE
                    (PllConstants := Fixtures.pll_constants)) = true
  ∧ kernel_calls
      (snd (optimize_params (constants := Fixtures.pll_constants)
              (raxml := Fixtures.raxml_constants) flags d0_1 dzero t))
    = [loglh_call].
Proof. split; vm_compute; reflexivity. Qed.

(** ** C6: the construction of the tree-search state *)

Section InitFacts.
Context {constants : PllConstants} {raxml : RaxmlConstants}
        {shape : BasicTree} {pkernel : PartitionKernel}
        {kernel : LikelihoodKernel}.

(** One turn of the loop that succeeds. *)
Lemma init_partition_ok opts pa sw ob p pinfo (t t1 : TreeInfo) :
  init_partition opts pa sw ob p pinfo t = Ok t1 →
  match PartitionAssignment_find pa p with
  | Some r =>
      ∃ w partition,
        partition_weights sw pinfo p = Ok w
        ∧ create_pll_partition opts pinfo r w = Ok partition
        ∧ partitions (_pll_treeinfo t1)
          = <[Z.to_nat p := Some partition]> (partitions (_pll_treeinfo t))
        ∧ params_to_optimize (_pll_treeinfo t1)
          = <[Z.to_nat p := partition_flags opts ob pinfo]>
              (params_to_optimize (_pll_treeinfo t))
        ∧ alphas (_pll_treeinfo t1)
          = <[Z.to_nat p := model_alpha (pinfo_model pinfo)]>
              (alphas (_pll_treeinfo t))
  | None =>
      partitions (_pll_treeinfo t1) = partitions (_pll_treeinfo t)
      ∧ params_to_optimize (_pll_treeinfo t1)
        = <[Z.to_nat p := partition_flags opts ob pinfo]>
            (params_to_optimize (_pll_treeinfo t))
      ∧ alphas (_pll_treeinfo t1) = alphas (_pll_treeinfo t)
  end.
Proof.
  unfold init_partition.
  destruct (PartitionAssignment_find pa p) as [r|]; [|by intros [= <-]].
  destruct (partition_weights sw pinfo p) as [w|e] eqn:Hw; [|done].
  cbn [mbind result_bind].
  destruct (create_pll_partition opts pinfo r w) as [partition|e] eqn:Hc;
    [|done].
  cbn [mbind result_bind]. unfold pllmod_treeinfo_init_partition.
  destruct (pllmod_treeinfo_init_partition_error _ _ _ _ _ _); [done|].
  intros [= <-]. exists w, partition. split; [done|]. split; [done|].
  split; [reflexivity|]. split; reflexivity.
Qed.

(** One turn of the loop that throws. *)
Lemma init_partition_throw opts pa sw ob p pinfo (t : TreeInfo) (e : exn) :
  init_partition opts pa sw ob p pinfo t = Throw e
  ↔ ∃ r, PartitionAssignment_find pa p = Some r
      ∧ (partition_weights sw pinfo p = Throw e
         ∨ ∃ w, partition_weights sw pinfo p = Ok w
             ∧ (create_pll_partition opts pinfo r w = Throw e
                ∨ ∃ partition msg,
                    create_pll_partition opts pinfo r w = Ok partition
                    ∧ pllmod_treeinfo_init_partition_error
                        (_pll_treeinfo t) p partition
                        (partition_flags opts ob pinfo)
                        (gamma_mode (pinfo_model pinfo))
                        (model_alpha (pinfo_model pinfo)) = Some msg
                    ∧ e = runtime_error
                            ("ERROR adding treeinfo partition: " +:+ msg))).
Proof.
  unfold init_partition.
  destruct (PartitionAssignment_find pa p) as [r|].
  2: { split; [intros [=]|]. by intros (r & [=] & _). }
  destruct (partition_weights sw pinfo p) as [w|e'] eqn:Hw.
  2: { cbn [mbind result_bind]. split.
       - intros [= ->]. exists r. split; [done|]. by left.
       - by intros (r' & _ & [[= ->]|(w & [=] & _)]). }
  cbn [mbind result_bind].
  destruct (create_pll_partition opts pinfo r w) as [partition|e'] eqn:Hc.
  2: { cbn [mbind result_bind]. split.
       - intros [= ->]. exists r. split; [done|]. right. exists w.
         split; [done|]. by left.
       - intros (r' & [= <-] & [[=]|(w' & [= <-] & [Hc'|(pt & msg & Hc' & _)])]).
         + rewrite Hc in Hc'. by injection Hc' as ->.
         + by rewrite Hc in Hc'. }
  cbn [mbind result_bind]. unfold pllmod_treeinfo_init_partition.
  destruct (pllmod_treeinfo_init_partition_error _ _ _ _ _ _) as [msg|] eqn:He.
  - cbn [default]. split.
    + intros [= <-]. exists r. split; [done|]. right. exists w.
      split; [done|]. right. by exists partition, msg.
    + intros (r' & [= <-] & [[=]|(w' & [= <-] & [Hc'|(pt & msg' & Hc' & Hm & ->)])]).
      * by rewrite Hc in Hc'.
      * rewrite Hc in Hc'. injection Hc' as <-.
        rewrite He in Hm. by injection Hm as ->.
  - split; [intros [=]|].
    intros (r' & [= <-] & [[=]|(w' & [= <-] & [Hc'|(pt & msg' & Hc' & Hm & _)])]).
    + by rewrite Hc in Hc'.
    + rewrite Hc in Hc'. injection Hc' as <-. by rewrite He in Hm.
Qed.

(** The loop throws exactly when some turn throws after all the turns
    before it succeeded. *)
Lemma init_partitions_throw opts pa sw ob (parts : list PartitionInfo) :
  ∀ (p : Z) (t : TreeInfo) (e : exn),
    init_partitions opts pa sw ob p parts t = Throw e
    ↔ ∃ (k : nat) pinfo t_k,
        parts !! k = Some pinfo
        ∧ init_partitions opts pa sw ob p (take k parts) t = Ok t_k
        ∧ init_partition opts pa sw ob (p + Z.of_nat k) pinfo t_k = Throw e.
Proof.
  induction parts as [|pinfo parts IH]; intros p t e.
  - split; [done|]. by intros (k & ? & ? & ? & _).
  - cbn [init_partitions].
    destruct (init_partition opts pa sw ob p pinfo t) as [t1|e1] eqn:H1;
      cbn [mbind result_bind].
    + rewrite IH. split.
      * intros (k & pk & t_k & Hk & Hpre & Hth).
        exists (S k), pk, t_k. split; [done|]. split.
        -- cbn [take init_partitions]. rewrite H1. done.
        -- by replace (p + Z.of_nat (S k)) with (p + 1 + Z.of_nat k) by lia.
      * intros (k & pk & t_k & Hk & Hpre & Hth).
        destruct k as [|k].
        { cbn in Hk, Hpre. injection Hk as <-. injection Hpre as <-.
          rewrite Z.add_0_r in Hth. congruence. }
        exists k, pk, t_k. split; [done|]. split.
        -- cbn [take init_partitions] in Hpre. by rewrite H1 in Hpre.
        -- by replace (p + 1 + Z.of_nat k) with (p + Z.of_nat (S k)) by lia.
    + split.
      * intros [= <-]. exists 0%nat, pinfo, t. split; [done|]. split; [done|].
        by rewrite Z.add_0_r.
      * intros (k & pk & t_k & Hk & Hpre & Hth).
        destruct k as [|k].
        { cbn in Hk, Hpre. injection Hk as <-. injection Hpre as <-.
          rewrite Z.add_0_r in Hth. congruence. }
        cbn [take init_partitions] in Hpre. by rewrite H1 in Hpre.
Qed.

End InitFacts.

Section InitSlots.
Context {constants : PllConstants} {raxml : RaxmlConstants}
        {shape : BasicTree} {pkernel : PartitionKernel}
        {kernel : LikelihoodKernel}.

(** What the loop leaves in the slots of the partitions it went through,
    and that it leaves the slots before them alone. *)
Lemma init_partitions_slots opts pa sw ob (parts : list PartitionInfo) :
  ∀ (p : nat) (t t' : TreeInfo),
    init_partitions opts pa sw ob (Z.of_nat p) parts t = Ok t' →
    (p + length parts ≤ length (partitions (_pll_treeinfo t)))%nat →
    (p + length parts ≤ length (params_to_optimize (_pll_treeinfo t)))%nat →
    (p + length parts ≤ length (alphas (_pll_treeinfo t)))%nat →
    (∀ q, (q < p)%nat →
       partitions (_pll_treeinfo t') !! q = partitions (_pll_treeinfo t) !! q
       ∧ params_to_optimize (_pll_treeinfo t') !! q
         = params_to_optimize (_pll_treeinfo t) !! q
       ∧ alphas (_pll_treeinfo t') !! q = alphas (_pll_treeinfo t) !! q)
    ∧ (∀ k pinfo, parts !! k = Some pinfo →
       match PartitionAssignment_find pa (Z.of_nat (p + k)) with
       | Some r =>
           ∃ w partition,
             partition_weights sw pinfo (Z.of_nat (p + k)) = Ok w
             ∧ create_pll_partition opts pinfo r w = Ok partition
             ∧ partitions (_pll_treeinfo t') !! (p + k)%nat
               = Some (Some partition)
       | None =>
           partitions (_pll_treeinfo t') !! (p + k)%nat
           = partitions (_pll_treeinfo t) !! (p + k)%nat
           ∧ params_to_optimize (_pll_treeinfo t') !! (p + k)%nat
             = Some (partition_flags opts ob pinfo)
           ∧ alphas (_pll_treeinfo t') !! (p + k)%nat
             = alphas (_pll_treeinfo t) !! (p + k)%nat
       end).
Proof.
  induction parts as [|pinfo parts IH]; intros p t t' Hrun Hlp Hlf Hla.
  - injection Hrun as <-. split; [done|]. by intros k pk.
  - cbn [init_partitions] in Hrun. cbn [length] in Hlp, Hlf, Hla.
    destruct (init_partition opts pa sw ob (Z.of_nat p) pinfo t)
      as [t1|e1] eqn:H1; [|done].
    cbn [mbind result_bind] in Hrun.
    replace (Z.of_nat p + 1) with (Z.of_nat (S p)) in Hrun by lia.
    apply init_partition_ok in H1. rewrite Nat2Z.id in H1.
    assert (Hstep :
      length (partitions (_pll_treeinfo t1))
      = length (partitions (_pll_treeinfo t))
      ∧ length (params_to_optimize (_pll_treeinfo t1))
        = length (params_to_optimize (_pll_treeinfo t))
      ∧ length (alphas (_pll_treeinfo t1)) = length (alphas (_pll_treeinfo t))
      ∧ ∀ q, q ≠ p →
          partitions (_pll_treeinfo t1) !! q = partitions (_pll_treeinfo t) !! q
          ∧ params_to_optimize (_pll_treeinfo t1) !! q
            = params_to_optimize (_pll_treeinfo t) !! q
          ∧ alphas (_pll_treeinfo t1) !! q = alphas (_pll_treeinfo t) !! q).
    { destruct (PartitionAssignment_find pa (Z.of_nat p)) as [r|].
      - destruct H1 as (w & partition & _ & _ & -> & -> & ->).
        rewrite !length_insert. split; [done|]. split; [done|]. split; [done|].
        intros q Hq. by rewrite !list_lookup_insert_ne by done.
      - destruct H1 as (-> & -> & ->).
        rewrite !length_insert. split; [done|]. split; [done|]. split; [done|].
        intros q Hq. by rewrite !list_lookup_insert_ne by done. }
    destruct Hstep as (Hp1 & Hf1 & Ha1 & Hother).
    destruct (IH (S p) t1 t' Hrun) as [Hbefore Hslots]; [lia..|].
    split.
    + intros q Hq. destruct (Hbefore q) as (-> & -> & ->); [lia|].
      apply Hother. lia.
    + intros [|k] pk Hk.
      * cbn in Hk. injection Hk as <-. rewrite Nat.add_0_r.
        destruct (Hbefore p) as (-> & -> & ->); [lia|].
        destruct (PartitionAssignment_find pa (Z.of_nat p)) as [r|].
        -- destruct H1 as (w & partition & Hw & Hc & -> & _).
           exists w, partition. split; [done|]. split; [done|].
           apply list_lookup_insert_eq. lia.
        -- destruct H1 as (-> & -> & ->). split; [done|]. split; [|done].
           apply list_lookup_insert_eq. lia.
      * cbn in Hk. specialize (Hslots k pk Hk).
        replace (p + S k)%nat with (S p + k)%nat by lia.
        destruct (PartitionAssignment_find pa (Z.of_nat (S p + k))); [done|].
        destruct Hslots as (-> & -> & ->).
        destruct (Hother (S p + k)%nat) as (-> & _ & ->); [lia|]. done.
Qed.

End InitSlots.

(** C6 (as amended).  When the construction succeeds, the slot of a
    partition holds a kernel partition object, the one
    [create_pll_partition] built from the worker's range, if and only if
    the assignment gives this worker a range of that partition; for a
    partition owned elsewhere the slot stays null and only the flags are
    recorded.  The construction raises an error exactly when the kernel
    rejects the tree-info structure, or when, all earlier partitions having
    been set up, for a partition of this worker the site weights are
    missing, [create_pll_partition] raises an error (its own checks of the
    options, or the kernel rejecting the partition), or the kernel rejects
    the initialisation of the partition. *)
Theorem init_outcome
    {constants : PllConstants} {raxml : RaxmlConstants}
    {shape : BasicTree} {pkernel : PartitionKernel}
    {kernel : LikelihoodKernel}
    (pc : ParallelContext) (errno : Z) (errmsg : string) (opts : Options)
    (tree : Tree) (parted_msa : list PartitionInfo)
    (pa : PartitionAssignment) (sw : list (list Z)) :
  let part_count := Z.of_nat (length parted_msa) in
  let ob := branch_flags opts part_count in
  (∀ t, init pc errno errmsg opts tree parted_msa pa sw = Ok t →
     ∀ (p : nat) pinfo, parted_msa !! p = Some pinfo →
       match PartitionAssignment_find pa (Z.of_nat p) with
       | Some r =>
           ∃ w partition,
             partition_weights sw pinfo (Z.of_nat p) = Ok w
             ∧ create_pll_partition opts pinfo r w = Ok partition
             ∧ partitions (_pll_treeinfo t) !! p = Some (Some partition)
       | None =>
           partitions (_pll_treeinfo t) !! p = Some None
           ∧ params_to_optimize (_pll_treeinfo t) !! p
             = Some (partition_flags opts ob pinfo)
           ∧ alphas (_pll_treeinfo t) !! p = Some dzero
       end)
  ∧ (∀ e, init pc errno errmsg opts tree parted_msa pa sw = Throw e
     ↔ (∃ msg,
          pllmod_treeinfo_create_error (pll_utree_root tree) (num_tips tree)
            part_count (brlen_linkage opts) = Some msg
          ∧ e = runtime_error ("ERROR creating treeinfo structure: " +:+ msg))
       ∨ ∃ ti0 (k : nat) pinfo r t_k,
           pllmod_treeinfo_create (pll_utree_root tree) (num_tips tree)
             part_count (brlen_linkage opts) = Some ti0
           ∧ parted_msa !! k = Some pinfo
           ∧ PartitionAssignment_find pa (Z.of_nat k) = Some r
           ∧ init_partitions opts pa sw ob 0 (take k parted_msa)
               (before_partitions pc errno errmsg ti0) = Ok t_k
           ∧ (partition_weights sw pinfo (Z.of_nat k) = Throw e
              ∨ ∃ w, partition_weights sw pinfo (Z.of_nat k) = Ok w
                  ∧ (create_pll_partition opts pinfo r w = Throw e
                     ∨ ∃ partition msg,
                         create_pll_partition opts pinfo r w = Ok partition
                         ∧ pllmod_treeinfo_init_partition_error
                             (_pll_treeinfo t_k) (Z.of_nat k) partition
                             (partition_flags opts ob pinfo)
                             (gamma_mode (pinfo_model pinfo))
                             (model_alpha (pinfo_model pinfo)) = Some msg
                         ∧ e = runtime_error
                                 ("ERROR adding treeinfo partition: " +:+ msg)))).
Proof.
  intros part_count ob. unfold init. fold part_count. fold ob.
  unfold pllmod_treeinfo_create.
  destruct (pllmod_treeinfo_create_error (pll_utree_root tree) (num_tips tree)
              part_count (brlen_linkage opts)) as [msg|] eqn:Hcreate.
  { cbn [default]. split; [done|]. intros e. split.
    - intros [= <-]. left. by exists msg.
    - intros [(msg' & [= <-] & ->)|(ti0 & k & pinfo & r & t_k & [=] & _)].
      done. }
  set (ti0 := {| tip_count := num_tips tree; partition_count := part_count |}).
  set (t0 := before_partitions pc errno errmsg ti0).
  assert (Hn : Z.to_nat part_count = length parted_msa)
    by (subst part_count; lia).
  assert (Hp0 : partitions (_pll_treeinfo t0) = replicate (length parted_msa) None).
  { subst t0 ti0. unfold before_partitions. cbn [_pll_treeinfo].
    destruct (1 <? num_procs pc); cbn [partitions]; by rewrite Hn. }
  assert (Hf0 : params_to_optimize (_pll_treeinfo t0)
                = replicate (length parted_msa) 0).
  { subst t0 ti0. unfold before_partitions. cbn [_pll_treeinfo].
    destruct (1 <? num_procs pc); cbn [params_to_optimize]; by rewrite Hn. }
  assert (Ha0 : alphas (_pll_treeinfo t0) = replicate (length parted_msa) dzero).
  { subst t0 ti0. unfold before_partitions. cbn [_pll_treeinfo].
    destruct (1 <? num_procs pc); cbn [alphas]; by rewrite Hn. }
  split.
  - intros t Hrun p pinfo Hp.
    destruct (init_partitions_slots opts pa sw ob parted_msa 0 t0 t Hrun)
      as [_ Hslots].
    { rewrite Hp0, length_replicate. lia. }
    { rewrite Hf0, length_replicate. lia. }
    { rewrite Ha0, length_replicate. lia. }
    specialize (Hslots p pinfo Hp). rewrite Nat.add_0_l in Hslots.
    destruct (PartitionAssignment_find pa (Z.of_nat p)); [done|].
    destruct Hslots as (-> & -> & ->). rewrite Hp0, Ha0.
    apply lookup_lt_Some in Hp.
    by rewrite !lookup_replicate_2 by done.
  - intros e. rewrite init_partitions_throw. split.
    + intros (k & pinfo & t_k & Hk & Hpre & Hth). right.
      rewrite Z.add_0_l in Hth.
      apply init_partition_throw in Hth as (r & Hr & Hcases).
      by exists ti0, k, pinfo, r, t_k.
    + intros [(msg & [=] & _)|(ti0' & k & pinfo & r & t_k & [= <-] & Hk & Hr
                              & Hpre & Hcases)].
      exists k, pinfo, t_k. split; [done|]. split; [done|].
      rewrite Z.add_0_l. apply init_partition_throw. by exists r.
Qed.

(** C6 as stated fails for the errors [create_pll_partition] raises by
    itself: with a kernel that rejects nothing, per-rate scalers requested
    for a protein partition make the construction fail. *)
Lemma init_fails_without_kernel_rejection :
  let pinfo := {| pinfo_msa := Fixtures.msa4;
                  pinfo_model := Fixtures.protein_model |} in
  (∀ partition,
     pll_partition_create_error (PartitionKernel := Fixtures.accepting)
       partition = None)
  ∧ (∀ root tips parts linkage,
       pllmod_treeinfo_create_error (LikelihoodKernel := Fixtures.quiet dzero)
         root tips parts linkage = None)
  ∧ (∀ ti p partition flags gamma alpha,
       pllmod_treeinfo_init_partition_error
         (LikelihoodKernel := Fixtures.quiet dzero)
         ti p partition flags gamma alpha = None)
  ∧ init (constants := Fixtures.pll_constants) (shape := Fixtures.basic_tree)
      (pkernel := Fixtures.accepting) (kernel := Fixtures.quiet dzero)
      Fixtures.one_proc 0 EmptyString
      (Fixtures.with_rate_scalers Fixtures.options) Fixtures.tree4
      [pinfo] [PartitionRange.mk 0 0 6 true] []
    = Throw (runtime_error
               ("Per-rate scalers are implemented for DNA data only!" +:+ nl)).
Proof.
  split; [done|]. split; [done|]. split; [done|]. vm_compute. reflexivity.
Qed.

(** ** C2: re-balancing for a bootstrap replicate *)

Lemma positive_before_succ (ws : list Z) (j : Z) :
  0 ≤ j < Z.of_nat (length ws) →
  positive_before ws (j + 1)
  = positive_before ws j + (if 0 <? at_ ws j then 1 else 0).
Proof.
  intros Hj. unfold positive_before, at_.
  destruct (lookup_lt_is_Some_2 ws (Z.to_nat j)) as [x Hx]; [lia|].
  replace (Z.to_nat (j + 1)) with (S (Z.to_nat j)) by lia.
  rewrite (take_S_r _ _ _ Hx), count_if_app.
  rewrite (list_lookup_total_correct _ _ _ Hx). cbn [count_if]. lia.
Qed.

(** The positive-weight sites of a slice, counted through the prefixes. *)
Lemma count_if_slice (ws : list Z) (a b : Z) :
  0 ≤ a ≤ b →
  count_if (fun w => 0 <? w) (take (Z.to_nat (b - a)) (drop (Z.to_nat a) ws))
  = positive_before ws b - positive_before ws a.
Proof.
  intros Hab. unfold positive_before.
  replace (Z.to_nat b) with (Z.to_nat a + Z.to_nat (b - a))%nat by lia.
  rewrite <- take_take_drop, count_if_app.
  symmetry. apply Z.add_simpl_l.
Qed.

Lemma positive_before_mono (ws : list Z) (a b : Z) :
  0 ≤ a ≤ b → positive_before ws a ≤ positive_before ws b.
Proof.
  intros Hab. pose proof (count_if_slice ws a b Hab) as Hs.
  pose proof (count_if_bounds (fun w => 0 <? w)
                (take (Z.to_nat (b - a)) (drop (Z.to_nat a) ws))). lia.
Qed.

Lemma positive_before_all (ws : list Z) :
  positive_before ws (Z.of_nat (length ws)) = count_if (fun w => 0 <? w) ws.
Proof. unfold positive_before. by rewrite Nat2Z.id, take_ge. Qed.

(** The index map lists the sites of positive weight in increasing order. *)
Lemma comp_pos_map_filter (ws : list Z) :
  Z.of_nat (length ws) ≤ uint_range →
  comp_pos_map ws
  = filter (fun s => 0 < at_ ws s) (seqZ 0 (Z.of_nat (length ws))).
Proof.
  intros Hlen. unfold comp_pos_map.
  rewrite (foldl_push_back (at_ ws) (fun s => s mod uint_range)). simpl.
  rewrite <- (list_fmap_id (filter _ _)) at 2.
  apply Forall_fmap_ext, Forall_forall. intros s Hs.
  apply list_elem_of_filter in Hs as [_ Hs]. apply elem_of_seqZ in Hs.
  unfold id. apply Z.mod_small. lia.
Qed.

Lemma comp_pos_map_lookup (ws : list Z) (k : nat) (j : Z) :
  Z.of_nat (length ws) ≤ uint_range →
  comp_pos_map ws !! k = Some j →
  0 ≤ j < Z.of_nat (length ws)
  ∧ 0 < at_ ws j
  ∧ positive_before ws j = Z.of_nat k.
Proof.
  intros Hlen Hk. rewrite comp_pos_map_filter in Hk by done.
  set (n := Z.of_nat (length ws)) in *.
  set (P := fun s => 0 < at_ ws s) in *.
  assert (Hin : P j ∧ 0 ≤ j < 0 + n).
  { apply list_elem_of_lookup_2, list_elem_of_filter in Hk as [? Hk].
    by apply elem_of_seqZ in Hk. }
  destruct Hin as [Hpos Hj]. split; [lia|]. split; [done|].
  assert (Hsplit : filter P (seqZ 0 n)
                   = filter P (seqZ 0 j) ++ j :: filter P (seqZ (j + 1) (n - j - 1))).
  { replace n with (j + (n - j)) at 1 by lia.
    rewrite seqZ_app, filter_app by lia. f_equal.
    rewrite Z.add_0_l, seqZ_cons by lia.
    rewrite filter_cons_True by done.
    by replace (Z.succ j) with (j + 1) by lia;
       replace (Z.pred (n - j)) with (n - j - 1) by lia. }
  assert (Hk' : filter P (seqZ 0 n) !! length (filter P (seqZ 0 j)) = Some j).
  { rewrite Hsplit. by apply list_lookup_middle. }
  assert (k = length (filter P (seqZ 0 j))) as ->.
  { eapply NoDup_lookup; [|exact Hk|exact Hk'].
    apply NoDup_filter, NoDup_seqZ. }
  unfold positive_before.
  change (take (Z.to_nat j) ws) with (take (Z.to_nat j) (drop (Z.to_nat 0) ws)).
  rewrite slice_by_index by lia.
  apply count_if_fmap.
Qed.

Lemma comp_pos_map_length (ws : list Z) :
  Z.of_nat (length ws) ≤ uint_range →
  Z.of_nat (length (comp_pos_map ws)) = count_if (fun w => 0 <? w) ws.
Proof.
  intros Hlen. rewrite comp_pos_map_filter by done.
  rewrite <- (count_if_fmap (at_ ws)).
  rewrite <- slice_by_index by lia.
  change (Z.to_nat 0) with 0%nat.
  by rewrite drop_0, Nat2Z.id, take_ge.
Qed.

Lemma translate_range_original (psw : list (list Z)) (r : PartitionRange.t) :
  Forall (fun ws => Z.of_nat (length ws) ≤ uint_range) psw →
  valid_compressed psw r →
  original_coordinates psw r (translate_range (comp_pos_map <$> psw) r).
Proof.
  intros Hsize (Hid & ws & Hws & Hcs & Hlen & Hend).
  assert (Hn : Z.of_nat (length ws) ≤ uint_range).
  { rewrite Forall_forall in Hsize. apply Hsize.
    by eapply list_elem_of_lookup_2. }
  exists ws. split; [done|]. split; [done|]. split; [done|].
  unfold translate_range.
  cbn [PartitionRange.start PartitionRange.length].
  assert (Hmap : at_ (comp_pos_map <$> psw) (PartitionRange.part_id r)
                 = comp_pos_map ws).
  { unfold at_. apply list_lookup_total_correct.
    by rewrite list_lookup_fmap, Hws. }
  rewrite Hmap.
  pose proof (comp_pos_map_length ws Hn) as HN.
  pose proof (count_if_bounds (fun w => 0 <? w) ws) as Hcount.
  set (cs := PartitionRange.start r) in *.
  set (len := PartitionRange.length r) in *.
  assert (Hwrap : wrap (cs + len - 1) = cs + len - 1).
  { apply wrap_small. unfold size_t_range, uint_range in *. lia. }
  rewrite Hwrap.
  (* the last site *)
  destruct (lookup_lt_is_Some_2 (comp_pos_map ws) (Z.to_nat (cs + len - 1)))
    as [e He]; [lia|].
  destruct (comp_pos_map_lookup ws _ e Hn He) as (Hebound & Hepos & Hebefore).
  rewrite Z2Nat.id in Hebefore by lia.
  assert (Hat_e : at_ (comp_pos_map ws) (cs + len - 1) = e)
    by (unfold at_; by apply list_lookup_total_correct).
  rewrite Hat_e.
  (* the first site *)
  set (s' := if 0 <? cs then at_ (comp_pos_map ws) cs else 0).
  assert (Hs' : 0 ≤ s' ≤ e ∧ positive_before ws s' = cs
                ∧ (0 < cs → 0 < at_ ws s') ∧ (cs = 0 → s' = 0)).
  { subst s'. destruct (Z.ltb_spec 0 cs) as [Hpos|Hzero].
    - destruct (lookup_lt_is_Some_2 (comp_pos_map ws) (Z.to_nat cs))
        as [s Hs]; [lia|].
      destruct (comp_pos_map_lookup ws _ s Hn Hs) as (Hsbound & Hspos & Hsbefore).
      rewrite Z2Nat.id in Hsbefore by lia.
      assert (Hat_s : at_ (comp_pos_map ws) cs = s)
        by (unfold at_; by apply list_lookup_total_correct).
      rewrite Hat_s. split; [|split; [done|split; [done|lia]]].
      split; [lia|].
      destruct (Z.le_gt_cases s e) as [|Hgt]; [done|].
      pose proof (positive_before_mono ws (e + 1) s ltac:(lia)) as Hmono.
      rewrite positive_before_succ in Hmono by lia.
      destruct (Z.ltb_spec 0 (at_ ws e)); lia.
    - assert (cs = 0) as Hcs0 by lia. split; [lia|].
      split; [by rewrite Hcs0|]. split; [lia|done]. }
  destruct Hs' as (Hs'e & Hs'before & Hs'pos & Hs'zero).
  assert (Hwrap' : wrap (e - s' + 1) = e - s' + 1).
  { apply wrap_small. unfold size_t_range, uint_range in *. lia. }
  rewrite Hwrap'. cbv zeta.
  replace (s' + (e - s' + 1) - 1) with e by lia.
  split; [done|]. split; [by intros; split; [apply Hs'pos|]|].
  split; [lia|]. split; [lia|]. split; [done|]. split; [done|].
  unfold part_length. cbn [PartitionRange.start PartitionRange.length].
  assert (Hne : empty_vec ws = false).
  { destruct ws; [cbn in Hebound; lia|done]. }
  rewrite Hne.
  replace (e - s' + 1) with (e + 1 - s') by lia.
  rewrite count_if_slice by lia.
  rewrite positive_before_succ by lia.
  destruct (Z.ltb_spec 0 (at_ ws e)); lia.
Qed.

(** C2 (as amended).  For every bootstrap replicate's per-partition
    site-weight vectors (each of a size an [unsigned int] index can hold),
    every PartitionRange of the recomputed Assignment that comes from a
    range of positive length lying inside its compressed partition is that
    range re-expressed in original site coordinates by the index map: it
    keeps its partition and master flag, extends to the original index of
    its last positive-weight site, starts at the original index of its first
    positive-weight site unless it is the first range of the partition,
    which starts at site 0, and the number of its sites of positive weight
    is the length of the compressed range.  Sites of weight zero between
    those bounds stay inside the range; they are left out later, when the
    kernel partition is built.  Nothing is said here of ranges of length 0. *)
Theorem balance_load_weights_ranges
    {collaborators : Collaborators}
    (pc : ParallelContext) (i : RaxmlInstance) (psw : list (list Z)) :
  Forall (fun ws => Z.of_nat (length ws) ≤ uint_range) psw →
  Forall2 (Forall2 (fun r r' =>
                      valid_compressed psw r → original_coordinates psw r r'))
    (compressed_assignment pc psw)
    (proc_part_assign (balance_load_weights pc i psw)).
Proof.
  intros Hsize. unfold balance_load_weights.
  cbn [set_proc_part_assign proc_part_assign].
  apply Forall2_fmap_r, Forall_Forall2_diag, Forall_forall. intros a _.
  apply Forall2_fmap_r, Forall_Forall2_diag, Forall_forall. intros r _ Hr.
  by apply translate_range_original.
Qed.

(** A replicate that drops the second and the fourth of six columns, on a
    single worker: the four sites left become the range of the sites 0 to
    5. *)
Lemma balance_load_weights_ranges_witness :
  let psw := [[1; 0; 2; 0; 1; 1]] in
  let run :=
    balance_load_weights
      (collaborators := Fixtures.single_worker Fixtures.msa4 6)
      Fixtures.one_proc (Fixtures.instance4 Fixtures.options) psw in
  proc_part_assign run = [[PartitionRange.mk 0 0 6 true]]
  ∧ original_coordinates psw (PartitionRange.mk 0 0 4 true)
      (PartitionRange.mk 0 0 6 true).
Proof.
  intros psw run. split; [vm_compute; reflexivity|].
  pose proof (balance_load_weights_ranges
                (collaborators := Fixtures.single_worker Fixtures.msa4 6)
                Fixtures.one_proc (Fixtures.instance4 Fixtures.options) psw)
    as Hranges.
  assert (Hc : compressed_assignment
                 (collaborators := Fixtures.single_worker Fixtures.msa4 6)
                 Fixtures.one_proc psw
               = [[PartitionRange.mk 0 0 4 true]])
    by (vm_compute; reflexivity).
  assert (Hr : proc_part_assign
                 (balance_load_weights
                    (collaborators := Fixtures.single_worker Fixtures.msa4 6)
                    Fixtures.one_proc (Fixtures.instance4 Fixtures.options) psw)
               = [[PartitionRange.mk 0 0 6 true]])
    by (vm_compute; reflexivity).
  rewrite Hc, Hr in Hranges.
  assert (Hsize : Forall (fun ws => Z.of_nat (length ws) ≤ uint_range) psw).
  { apply Forall_singleton. unfold uint_range. simpl. lia. }
  specialize (Hranges Hsize).
  apply Forall2_cons_1 in Hranges as [Hrow _].
  apply Forall2_cons_1 in Hrow as [Hrange _].
  apply Hrange. split; [simpl; lia|].
  exists [1; 0; 2; 0; 1; 1]. repeat split; simpl; lia.
Defined.

(** C2 as stated fails at the first range of a partition whose first site
    is not resampled: the range returned for the weights 0, 1, 0, 1 starts at
    site 0, of weight zero, not at site 1, and holds the sites 0 and 2 of
    weight zero. *)
Lemma balance_load_weights_keeps_zero_weight_sites :
  let ws := [0; 1; 0; 1] in
  let r' := PartitionRange.mk 0 0 4 true in
  proc_part_assign
    (balance_load_weights
       (collaborators := Fixtures.single_worker Fixtures.msa4 4)
       Fixtures.one_proc (Fixtures.instance4 Fixtures.options) [ws])
  = [[r']]
  ∧ positive_sites ws r' = [1; 3]
  ∧ at_ ws (PartitionRange.start r') = 0
  ∧ at_ ws 2 = 0.
Proof. vm_compute. repeat split. Qed.

(** ** C7: validation of the alignment at load time *)

Lemma D_bind_unfold {A B} (m : D A) (k : A → D B) (d : driver) :
  (m ≫= k) d
  = match m d with
    | (Ok a, d') => k a d'
    | (Throw e, d') => (Throw e, d')
    end.
Proof. reflexivity. Qed.


Section LoadMsa.
Context {raxml : RaxmlConstants} {collaborators : Collaborators}.





End LoadMsa.




(** ** C8: the number of patterns per thread *)

(** C8 (as amended).  On the coordinating rank of a run with more than one
    execution unit: when the normalised number of patterns per thread is
    below the fatal threshold, a warning with a suggested thread count is
    emitted and the run aborts with a fatal error unless force mode is set;
    when it is below the advisory threshold but not below the fatal one (or
    force mode is set), the warning is emitted and the run continues, the
    instance unchanged; otherwise nothing is emitted.  (The normalised
    number is taken over the partitions of the alignment; with no partition
    at all, reading the first one throws.)  On every other rank, and in a run
    with a single execution unit, no check is made: nothing is emitted and
    the run continues, whatever the number of patterns. *)
Theorem check_patterns_per_thread_cases
    {collaborators : Collaborators} (pc : ParallelContext) (d : driver) :
  let i := instance d in
  let warned :=
    {| instance := i;
       log := log d ++ [warning_too_many_threads (num_threads pc)
                          (total_sites (proc_part_assign i)) (opt_threads i)] |} in
  (master_rank pc = true → 1 < num_procs pc →
   (∀ n, norm_thread_pats pc i = Ok n →
      (n < hard_limit → force_mode (opts i) = false →
       check_patterns_per_thread pc d
       = (Throw (runtime_error too_few_patterns), warned))
      ∧ (n < hard_limit → force_mode (opts i) = true →
         check_patterns_per_thread pc d = (Ok (), warned))
      ∧ (hard_limit ≤ n < soft_limit →
         check_patterns_per_thread pc d = (Ok (), warned))
      ∧ (soft_limit ≤ n → check_patterns_per_thread pc d = (Ok (), d)))
   ∧ (part_list (parted_msa i) ≠ [] → ∃ n, norm_thread_pats pc i = Ok n)
   ∧ (part_list (parted_msa i) = [] →
      check_patterns_per_thread pc d
      = (Throw (out_of_range "vector::at"), d)))
  ∧ (master_rank pc = false ∨ num_procs pc ≤ 1 →
     check_patterns_per_thread pc d = (Ok (), d)).
Proof.
  intros i warned. split.
  - intros Hrank Hprocs. unfold check_patterns_per_thread.
    rewrite Hrank. destruct (Z.ltb_spec 1 (num_procs pc)) as [_|]; [|lia].
    cbn [andb when]. rewrite D_bind_unfold. cbn [get_instance].
    rewrite D_bind_unfold. unfold lift. fold i.
    split; [|split].
    + intros n ->. unfold hard_limit, soft_limit in *.
      split; [|split; [|split]].
      * intros Hn Hforce.
        destruct (Z.ltb_spec n 600); [|lia]. destruct (Z.ltb_spec n 150); [|lia].
        cbn [when]. rewrite D_bind_unfold. cbn [emit]. fold i. fold warned.
        by rewrite Hforce.
      * intros Hn Hforce.
        destruct (Z.ltb_spec n 600); [|lia]. destruct (Z.ltb_spec n 150); [|lia].
        cbn [when]. rewrite D_bind_unfold. cbn [emit]. fold i. fold warned.
        by rewrite Hforce.
      * intros Hn.
        destruct (Z.ltb_spec n 600); [|lia]. destruct (Z.ltb_spec n 150); [lia|].
        cbn [when]. rewrite D_bind_unfold. cbn [emit]. by fold i.
      * intros Hn. destruct (Z.ltb_spec n 600); [lia|]. done.
    + intros Hparts. unfold norm_thread_pats, max_states, part_info.
      destruct (part_list (parted_msa i)) as [|pinfo parts]; [done|].
      cbn [lookup list_lookup Z.to_nat mbind result_bind]. by eexists.
    + intros Hparts. unfold norm_thread_pats, max_states, part_info.
      by rewrite Hparts.
  - intros Hsingle. unfold check_patterns_per_thread.
    destruct Hsingle as [-> | Hone]; [done|].
    destruct (Z.ltb_spec 1 (num_procs pc)) as [|_]; [lia|].
    by rewrite andb_false_r.
Qed.

(** Four threads with ten patterns each are refused; with one hundred
    patterns each they are warned about. *)
Lemma check_patterns_per_thread_cases_witness :
  let d := {| instance := Fixtures.instance4 Fixtures.options; log := [] |} in
  fst (check_patterns_per_thread (collaborators := Fixtures.single_worker Fixtures.msa4 10)
         Fixtures.four_procs d)
  = Throw (runtime_error too_few_patterns)
  ∧ fst (check_patterns_per_thread (collaborators := Fixtures.single_worker Fixtures.msa4 100)
           Fixtures.four_procs d)
    = Ok ().
Proof.
  intros d. split.
  - destruct (check_patterns_per_thread_cases
                (collaborators := Fixtures.single_worker Fixtures.msa4 10)
                Fixtures.four_procs d) as ((Hcases & _) & _);
      [reflexivity|simpl; lia|].
    destruct (Hcases 30) as (Hfatal & _); [vm_compute; reflexivity|].
    rewrite Hfatal; [reflexivity|vm_compute; reflexivity|reflexivity].
  - destruct (check_patterns_per_thread_cases
                (collaborators := Fixtures.single_worker Fixtures.msa4 100)
                Fixtures.four_procs d) as ((Hcases & _) & _);
      [reflexivity|simpl; lia|].
    destruct (Hcases 300) as (_ & _ & Hwarn & _); [vm_compute; reflexivity|].
    rewrite Hwarn; [reflexivity|].
    split; vm_compute; [discriminate|reflexivity].
Defined.

(** C8 as stated fails for a run with a single execution unit: ten
    patterns give a normalised count of 30, below the fatal threshold, force
    mode is off, and the check neither aborts nor warns. *)
Lemma check_patterns_per_thread_single_unit :
  let d := {| instance := Fixtures.instance4 Fixtures.options; log := [] |} in
  norm_thread_pats (collaborators := Fixtures.single_worker Fixtures.msa4 10)
    Fixtures.one_proc (instance d) = Ok 30
  ∧ 30 < hard_limit
  ∧ force_mode (opts (instance d)) = false
  ∧ check_patterns_per_thread (collaborators := Fixtures.single_worker Fixtures.msa4 10)
      Fixtures.one_proc d
    = (Ok (), d).
Proof. vm_compute. repeat split. Qed.

(** ** Examples *)

(** A search round for which the kernel returns zero fails; any other value
    is handed back. *)
Example spr_round_failure :
  fst (spr_round (raxml := Fixtures.raxml_constants)
         (kernel := Fixtures.quiet dzero) Fixtures.spr_params
         (Fixtures.state2 (Fixtures.quiet dzero) (Fixtures.treeinfo2 0 0)))
  = Throw (runtime_error "ERROR in SPR round: ").
Proof. reflexivity. Qed.

Example spr_round_success :
  fst (spr_round (raxml := Fixtures.raxml_constants)
         (kernel := Fixtures.quiet (double_of_Z (-100))) Fixtures.spr_params
         (Fixtures.state2 (Fixtures.quiet (double_of_Z (-100)))
            (Fixtures.treeinfo2 0 0)))
  = Ok (double_of_Z (-100)).
Proof. reflexivity. Qed.

(** All six classes requested, proportional linkage, two partitions. *)
Example optimize_params_all_classes :
  let flags := 1 + 8 + 2 + 4 + 256 + 64 in
  kernel_calls
    (snd (optimize_params (constants := Fixtures.pll_constants)
            (raxml := Fixtures.raxml_constants)
            (kernel := Fixtures.quiet (double_of_Z (-100)))
            flags d0_1 dzero
            (Fixtures.state2 (Fixtures.quiet (double_of_Z (-100)))
               (Fixtures.treeinfo2 1 64))))
  = [rates_call (raxml := Fixtures.raxml_constants);
     freqs_call (raxml := Fixtures.raxml_constants);
     alpha_call (constants := Fixtures.pll_constants)
       (raxml := Fixtures.raxml_constants);
     pinv_call (constants := Fixtures.pll_constants)
       (raxml := Fixtures.raxml_constants);
     free_rates_call (raxml := Fixtures.raxml_constants);
     pllmod_treeinfo_normalize_brlen_scalers;
     loglh_call;
     brlen_opt_call (raxml := Fixtures.raxml_constants) d0_1 d0_25;
     scaler_opt_call (constants := Fixtures.pll_constants)
       (raxml := Fixtures.raxml_constants);
     pllmod_treeinfo_normalize_brlen_scalers].
Proof. vm_compute. reflexivity. Qed.

(** A worker that holds the first of two partitions: one kernel partition
    is built, of six sites; the other slot stays null and only its flags
    are recorded. *)
Example init_two_partitions :
  let pinfo := {| pinfo_msa := Fixtures.msa4;
                  pinfo_model := Fixtures.dna_model asc_none |} in
  match init (constants := Fixtures.pll_constants)
          (shape := Fixtures.basic_tree) (pkernel := Fixtures.accepting)
          (kernel := Fixtures.quiet dzero)
          Fixtures.four_procs 0 EmptyString Fixtures.options Fixtures.tree4
          [pinfo; pinfo] [PartitionRange.mk 0 0 6 true] [] with
  | Ok t =>
      fmap (M := list) (fmap (M := option) sites) (partitions (_pll_treeinfo t))
      = [Some 6; None]
      ∧ params_to_optimize (_pll_treeinfo t) = [64; 64]
  | Throw _ => False
  end.
Proof. vm_compute. split; reflexivity. Qed.

(** The index map of a replicate and the translation of a range that does
    not begin its partition. *)
Example translate_second_range :
  comp_pos_map [0; 1; 0; 1; 2; 0; 1] = [1; 3; 4; 6]
  ∧ translate_range [comp_pos_map [0; 1; 0; 1; 2; 0; 1]]
      (PartitionRange.mk 0 2 2 false)
    = PartitionRange.mk 0 4 3 false.
Proof. vm_compute. split; reflexivity. Qed.

(** * Further properties of the code *)

(** ** The data handed to the kernel for one partition *)

Lemma slice_by_index_any {A} `{Inhabited A} (v : list A) (start len : Z) :
  0 ≤ start → 0 ≤ len → start + len ≤ Z.of_nat (length v) →
  take (Z.to_nat len) (drop (Z.to_nat start) v) = at_ v <$> seqZ start len.
Proof.
  intros Hs Hl Hb. apply list_eq. intros i.
  rewrite list_lookup_fmap.
  destruct (decide (Z.of_nat i < len)) as [Hi|Hi].
  - rewrite lookup_take_lt by lia. rewrite lookup_drop.
    rewrite lookup_seqZ_lt by done. simpl. unfold at_.
    destruct (lookup_lt_is_Some_2 v (Z.to_nat start + i)) as [x Hx]; [lia|].
    rewrite Hx. f_equal. symmetry. apply list_lookup_total_correct.
    by replace (Z.to_nat (start + Z.of_nat i)) with (Z.to_nat start + i)%nat by lia.
  - rewrite lookup_take_ge by lia. by rewrite lookup_seqZ_ge by lia.
Qed.

Lemma seqZ_span (pstart len : Z) :
  seqZ pstart (pstart + len - pstart) = seqZ pstart len.
Proof. by replace (pstart + len - pstart) with len by lia. Qed.

Lemma filter_all {A} (P : A → Prop) `{∀ x, Decision (P x)} (l : list A) :
  Forall P l → filter P l = l.
Proof.
  induction 1 as [|a l Ha Hl IH]; [done|].
  by rewrite filter_cons_True, IH.
Qed.

(** A loop that sets one tip after the other appends one entry per taxon,
    when what is written does not depend on the tips written before. *)
Lemma foldl_set_tip (d : pll_partition_t → Z → tip_data) (l : list Z)
    (p : pll_partition_t) :
  (∀ p i x j, d (set_tip p i x) j = d p j) →
  tip (foldl (fun p i => set_tip p i (d p i)) p l)
  = tip p ++ ((fun i => (i, d p i)) <$> l).
Proof.
  intros Hd. revert p. induction l as [|i l IH]; intros p; simpl.
  - by rewrite app_nil_r.
  - rewrite IH. cbn [set_tip tip]. rewrite <- app_assoc. simpl.
    do 2 f_equal. apply list_fmap_ext. intros _ j _. by rewrite Hd.
Qed.

Lemma positive_sites_all (ws : list Z) (r : PartitionRange.t) :
  0 ≤ PartitionRange.start r → 0 ≤ PartitionRange.length r →
  PartitionRange.start r + PartitionRange.length r ≤ Z.of_nat (length ws) →
  part_length r ws = PartitionRange.length r →
  columns_of ws r
  = seqZ (PartitionRange.start r) (PartitionRange.length r).
Proof.
  intros Hs Hl Hb Hpl. unfold columns_of.
  rewrite part_length_spec in Hpl by done.
  destruct (empty_vec ws); [done|].
  unfold positive_sites in *. apply filter_all.
  apply (proj1 (filter_length_all _ _)). rewrite length_seqZ. lia.
Qed.

Section PartitionData.
Context {constants : PllConstants} {shape : BasicTree}
        {pkernel : PartitionKernel}.

(** What [pll_partition_create] returns holds no data yet. *)
Lemma create_pll_partition_fresh opts pinfo r ws partition :
  create_pll_partition opts pinfo r ws = Ok partition →
  ∃ created,
    sites created = part_length r ws
    ∧ tip created = []
    ∧ pattern_weights created = None
    ∧ partition =
        assign_partition
          (let partition :=
             if PartitionRange.master r
                && negb (empty_vec (ascbias_weights (pinfo_model pinfo)))
             then pll_set_asc_state_weights created
                    (ascbias_weights (pinfo_model pinfo))
             else created in
           if part_length r ws =? PartitionRange.length r
           then set_partition_tips opts (pinfo_msa pinfo) r partition
           else set_partition_tips_weights opts (pinfo_msa pinfo) r partition ws)
          (pinfo_model pinfo).
Proof.
  unfold create_pll_partition.
  destruct (partition_attributes opts pinfo r) as [attrs|e]; [|done].
  cbn [mbind result_bind].
  unfold pll_partition_create.
  destruct (pll_partition_create_error _); [done|].
  intros [= <-]. eexists.
  split; [|split; [|split]]; [| | |reflexivity]; reflexivity.
Qed.

Lemma set_partition_tips_tip opts msa r partition :
  use_prob_msa opts && probabilistic msa = false →
  tip (set_partition_tips opts msa r partition)
  = tip partition
    ++ ((fun i =>
           (i, TipStates
                 (take (Z.to_nat (sites partition))
                    (drop (Z.to_nat (PartitionRange.start r))
                       (at_ (sequences msa) i)))))
          <$> seqZ 0 (msa_size msa)).
Proof.
  intros Hprob. unfold set_partition_tips. rewrite Hprob.
  unfold pll_set_tip_states.
  rewrite (foldl_set_tip
             (fun p i =>
                TipStates
                  (take (Z.to_nat (sites p))
                     (drop (Z.to_nat (PartitionRange.start r))
                        (at_ (sequences msa) i))))) by done.
  by destruct (negb (empty_vec (msa_weights msa))).
Qed.

Lemma set_partition_tips_weights_tip opts msa r partition ws :
  use_prob_msa opts && probabilistic msa = false →
  tip (set_partition_tips_weights opts msa r partition ws)
  = tip partition
    ++ ((fun i =>
           (i, TipStates
                 (take (Z.to_nat (sites partition))
                    (resize (Z.to_nat (PartitionRange.length r)) Ascii.zero
                       (bs_seq (at_ (sequences msa) i) ws
                          (PartitionRange.start r)
                          (wrap (PartitionRange.start r
                                 + PartitionRange.length r)))))))
          <$> seqZ 0 (msa_size msa)).
Proof.
  intros Hprob. unfold set_partition_tips_weights. rewrite Hprob.
  cbn [pll_set_pattern_weights tip].
  unfold pll_set_tip_states.
  by rewrite (foldl_set_tip
             (fun p i =>
                TipStates
                  (take (Z.to_nat (sites p))
                     (resize (Z.to_nat (PartitionRange.length r)) Ascii.zero
                        (bs_seq (at_ (sequences msa) i) ws
                           (PartitionRange.start r)
                           (wrap (PartitionRange.start r
                                  + PartitionRange.length r))))))) by done.
Qed.

End PartitionData.

(** X1.  When the alignment is handed over as characters, a partition
    that [create_pll_partition] returns holds, for every taxon of the
    alignment in order, the characters of that taxon at the columns of the
    worker's range: all of them when no weight vector is given, and the ones
    of positive weight otherwise.  When columns are left out, the pattern
    weights are the weights of the very same columns, so that the [k]-th
    weight belongs to the [k]-th character of every tip. *)
Theorem tips_hold_positive_columns
    {constants : PllConstants} {shape : BasicTree} {pkernel : PartitionKernel}
    (opts : Options) (pinfo : PartitionInfo) (r : PartitionRange.t)
    (weights : list Z) (partition : pll_partition_t) :
  0 ≤ PartitionRange.start r →
  0 ≤ PartitionRange.length r →
  PartitionRange.start r + PartitionRange.length r < size_t_range →
  weights = []
  ∨ PartitionRange.start r + PartitionRange.length r ≤ Z.of_nat (length weights) →
  Forall (fun seq =>
            PartitionRange.start r + PartitionRange.length r
            ≤ Z.of_nat (length seq)) (sequences (pinfo_msa pinfo)) →
  use_prob_msa opts && probabilistic (pinfo_msa pinfo) = false →
  create_pll_partition opts pinfo r weights = Ok partition →
  tip partition
  = (fun i =>
       (i, TipStates (at_ (at_ (sequences (pinfo_msa pinfo)) i)
                        <$> columns_of weights r)))
      <$> seqZ 0 (msa_size (pinfo_msa pinfo))
  ∧ (skips_zero_weights r weights = true →
     pattern_weights partition
     = Some (at_ weights <$> columns_of weights r)).
Proof.
  intros Hs Hl Hw Hb Hseq Hprob Hok.
  apply create_pll_partition_fresh in Hok
    as (created & Hsites & Htip & Hpw & ->).
  cbn [assign_partition tip pattern_weights]. cbv zeta.
  set (p0 := if PartitionRange.master r
                && negb (empty_vec (ascbias_weights (pinfo_model pinfo)))
             then pll_set_asc_state_weights created
                    (ascbias_weights (pinfo_model pinfo))
             else created).
  assert (Hp0 : sites p0 = part_length r weights ∧ tip p0 = []).
  { subst p0. by destruct (PartitionRange.master r && _). }
  destruct Hp0 as [Hp0s Hp0t].
  assert (Hwrap : wrap (PartitionRange.start r + PartitionRange.length r)
                  = PartitionRange.start r + PartitionRange.length r)
    by (apply wrap_small; lia).
  unfold skips_zero_weights.
  destruct (part_length r weights =? PartitionRange.length r) eqn:Hpl.
  - (* every column of the range is handed over *)
    split; [|done]. apply Z.eqb_eq in Hpl.
    rewrite set_partition_tips_tip, Hp0t, Hp0s, Hpl by done.
    cbn [app]. apply list_fmap_ext. intros k i Hi.
    apply lookup_seqZ in Hi as [-> Hk]. do 2 f_equal.
    assert (Hcols : columns_of weights r
                    = seqZ (PartitionRange.start r) (PartitionRange.length r)).
    { destruct Hb as [->|Hb]; [done|]. by apply positive_sites_all. }
    rewrite Hcols. apply slice_by_index_any; [done..|].
    rewrite Forall_forall in Hseq. apply Hseq.
    unfold at_. apply list_elem_of_lookup_total_2.
    unfold msa_size in Hk. lia.
  - (* the columns of weight zero are left out *)
    apply Z.eqb_neq in Hpl.
    assert (Hne : empty_vec weights = false).
    { destruct weights; [|done]. by cbn in Hpl. }
    assert (Hin : PartitionRange.start r + PartitionRange.length r
                  ≤ Z.of_nat (length weights)).
    { destruct Hb as [->|Hb]; [done|done]. }
    assert (Hn : part_length r weights
                 = Z.of_nat (length (positive_sites weights r))).
    { rewrite part_length_spec by done. by rewrite Hne. }
    unfold columns_of. rewrite Hne. split.
    + rewrite set_partition_tips_weights_tip, Hp0t, Hp0s, Hn, Hwrap by done.
      cbn [app]. apply list_fmap_ext. intros k i Hi. do 2 f_equal.
      pose proof (bs_seq_length (at_ (sequences (pinfo_msa pinfo)) i)
                    weights r) as Hlen.
      assert (Hle : (length (positive_sites weights r)
                     ≤ Z.to_nat (PartitionRange.length r))%nat).
      { unfold positive_sites.
        pose proof (length_filter (fun j => 0 < at_ weights j)
                      (seqZ (PartitionRange.start r) (PartitionRange.length r)))
          as Hf.
        rewrite length_seqZ in Hf. done. }
      rewrite take_resize, Nat2Z.id, Nat.min_l by done.
      rewrite resize_all_alt by done.
      unfold bs_seq, positive_sites.
      by rewrite (foldl_push_back (at_ weights)), seqZ_span.
    + intros _. rewrite set_partition_tips_weights_pattern, Hp0s, Hn, Hwrap.
      rewrite Nat2Z.id, take_ge by (by rewrite comp_weights_length).
      unfold comp_weights, positive_sites.
      by rewrite (foldl_push_back (at_ weights) (at_ weights)), seqZ_span.
Qed.

(** Four taxa and a replicate that drops the second and the fourth of six
    columns. *)
Lemma tips_hold_positive_columns_witness :
  let r := PartitionRange.mk 0 0 6 true in
  let w := [1; 0; 2; 0; 1; 1] in
  let pinfo := {| pinfo_msa := Fixtures.msa4;
                  pinfo_model := Fixtures.dna_model asc_none |} in
  ∃ partition,
    create_pll_partition (constants := Fixtures.pll_constants)
      (shape := Fixtures.basic_tree) (pkernel := Fixtures.accepting)
      Fixtures.options pinfo r w = Ok partition
    ∧ tip partition
      = [(0, TipStates (Fixtures.seq_of "AGAC"));
         (1, TipStates (Fixtures.seq_of "AGCA"));
         (2, TipStates (Fixtures.seq_of "AGAC"));
         (3, TipStates (Fixtures.seq_of "ATAA"))]
    ∧ pattern_weights partition = Some [1; 2; 1; 1].
Proof.
  intros r w pinfo. eexists. split; [vm_compute; reflexivity|].
  destruct (tips_hold_positive_columns
              (constants := Fixtures.pll_constants)
              (shape := Fixtures.basic_tree)
              (pkernel := Fixtures.accepting)
              Fixtures.options pinfo r w
              {| tips := 4; clv_buffers := 2; states := 4; sites := 4;
                 rate_matrices := 1; prob_matrices := 5; rate_cats := 4;
                 scale_buffers := 2; attributes := 2;
                 pattern_weights := Some [1; 2; 1; 1];
                 asc_state_weights := None;
                 tip := [(0, TipStates (Fixtures.seq_of "AGAC"));
                         (1, TipStates (Fixtures.seq_of "AGCA"));
                         (2, TipStates (Fixtures.seq_of "AGAC"));
                         (3, TipStates (Fixtures.seq_of "ATAA"))];
                 partition_params := Some [] |}) as [Ht Hp].
  - simpl; lia.
  - simpl; lia.
  - reflexivity.
  - right. simpl. lia.
  - repeat constructor; simpl; lia.
  - reflexivity.
  - reflexivity.
  - split; [exact Ht|exact (Hp eq_refl)].
Defined.

(** X2.  A weight vector without a zero inside the worker's range has no
    effect on the partition: [create_pll_partition] returns what it returns
    when no weight vector is given, and the pattern weights of the partition
    are those of the alignment itself (none when the alignment carries
    none), whatever the positive weights of the vector are. *)
Theorem weights_without_zero_are_ignored
    {constants : PllConstants} {shape : BasicTree} {pkernel : PartitionKernel}
    (opts : Options) (pinfo : PartitionInfo) (r : PartitionRange.t)
    (weights : list Z) :
  0 ≤ PartitionRange.start r →
  0 ≤ PartitionRange.length r →
  PartitionRange.start r + PartitionRange.length r ≤ Z.of_nat (length weights) →
  (∀ j, PartitionRange.start r ≤ j
        < PartitionRange.start r + PartitionRange.length r →
        0 < at_ weights j) →
  create_pll_partition opts pinfo r weights
  = create_pll_partition opts pinfo r []
  ∧ ∀ partition,
      create_pll_partition opts pinfo r weights = Ok partition →
      pattern_weights partition
      = if empty_vec (msa_weights (pinfo_msa pinfo)) then None
        else Some (take (Z.to_nat (PartitionRange.length r))
                     (drop (Z.to_nat (PartitionRange.start r))
                        (msa_weights (pinfo_msa pinfo)))).
Proof.
  intros Hs Hl Hb Hpos.
  assert (Hpl : part_length r weights = PartitionRange.length r).
  { rewrite part_length_spec by done.
    destruct (empty_vec weights); [done|].
    unfold positive_sites. rewrite filter_all.
    - rewrite length_seqZ. lia.
    - apply Forall_forall. intros j Hj. apply Hpos.
      by apply elem_of_seqZ in Hj. }
  split.
  - unfold create_pll_partition. rewrite Hpl.
    change (part_length r []) with (PartitionRange.length r).
    by rewrite Z.eqb_refl.
  - intros partition Hok.
    apply create_pll_partition_fresh in Hok
      as (created & Hsites & _ & Hpw & ->).
    cbn [assign_partition pattern_weights]. cbv zeta.
    rewrite Hpl, Z.eqb_refl.
    set (p0 := if PartitionRange.master r
                  && negb (empty_vec (ascbias_weights (pinfo_model pinfo)))
               then pll_set_asc_state_weights created
                      (ascbias_weights (pinfo_model pinfo))
               else created).
    assert (Hp0 : sites p0 = PartitionRange.length r
                  ∧ pattern_weights p0 = None).
    { subst p0. rewrite <- Hpl.
      by destruct (PartitionRange.master r && _). }
    destruct Hp0 as [Hp0s Hp0w].
    unfold set_partition_tips.
    destruct (use_prob_msa opts && probabilistic (pinfo_msa pinfo));
      rewrite (foldl_invariant _ pattern_weights) by done;
      destruct (empty_vec (msa_weights (pinfo_msa pinfo)));
      cbn [negb pll_set_pattern_weights pattern_weights];
      by rewrite ?Hp0s.
Qed.

(** A replicate that counts the first column twice and the third one three
    times. *)
Lemma weights_without_zero_are_ignored_witness :
  let r := PartitionRange.mk 0 0 6 true in
  let pinfo := {| pinfo_msa := Fixtures.msa4;
                  pinfo_model := Fixtures.dna_model asc_none |} in
  create_pll_partition (constants := Fixtures.pll_constants)
    (shape := Fixtures.basic_tree) (pkernel := Fixtures.accepting)
    Fixtures.options pinfo r [2; 1; 3; 1; 1; 1]
  = create_pll_partition (constants := Fixtures.pll_constants)
      (shape := Fixtures.basic_tree) (pkernel := Fixtures.accepting)
      Fixtures.options pinfo r [].
Proof.
  intros r pinfo.
  refine (proj1 (weights_without_zero_are_ignored
                   (constants := Fixtures.pll_constants)
                   (shape := Fixtures.basic_tree)
                   (pkernel := Fixtures.accepting)
                   Fixtures.options pinfo r [2; 1; 3; 1; 1; 1] _ _ _ _)).
  - simpl; lia.
  - simpl; lia.
  - simpl; lia.
  - intros j Hj. simpl in Hj.
    assert (Hc : j = 0 ∨ j = 1 ∨ j = 2 ∨ j = 3 ∨ j = 4 ∨ j = 5) by lia.
    destruct Hc as [->|[->|[->|[->|[->| ->]]]]]; vm_compute; reflexivity.
Defined.

(** ** The errors of [create_pll_partition] *)

Section PartitionErrors.
Context {constants : PllConstants} {shape : BasicTree}
        {pkernel : PartitionKernel}.

(** The attribute word, spelled out. *)
Lemma partition_attributes_word opts pinfo r :
  let model := pinfo_model pinfo in
  let msa := pinfo_msa pinfo in
  let a1 := if use_rate_scalers opts && (1 <? num_ratecats model)
            then Z.lor (simd_arch opts) PLL_ATTRIB_RATE_SCALERS
            else simd_arch opts in
  let a2 := if use_tip_inner opts && (100 <? msa_length msa)
            then Z.lor a1 PLL_ATTRIB_PATTERN_TIP else a1 in
  let a3 := if use_repeats opts && (16 <? msa_length msa)
            then Z.lor a2 PLL_ATTRIB_SITE_REPEATS else a2 in
  let a4 := if bool_decide (ascbias_type model = asc_lewis)
               || (bool_decide (ascbias_type model ≠ asc_none)
                   && PartitionRange.master r)
            then Z.lor (Z.lor a3 PLL_ATTRIB_AB_FLAG)
                   (ascbias_attr (ascbias_type model))
            else a3 in
  partition_attributes opts pinfo r =
    if scalers_not_dna opts model then
      Throw (runtime_error
               ("Per-rate scalers are implemented for DNA data only!" +:+ nl))
    else if repeats_and_tip_inner opts then
      Throw (runtime_error
               ("Repeats and tip-inner optimizations are incompatible" +:+ nl))
    else Ok a4.
Proof.
  unfold partition_attributes, scalers_not_dna, repeats_and_tip_inner.
  destruct (use_rate_scalers opts), (1 <? num_ratecats (pinfo_model pinfo)),
    (num_states (pinfo_model pinfo) =? 4), (use_tip_inner opts),
    (use_repeats opts), (100 <? msa_length (pinfo_msa pinfo)),
    (16 <? msa_length (pinfo_msa pinfo));
    cbn [andb negb mbind result_bind]; try done;
    by destruct (_ || _).
Qed.

Lemma create_pll_partition_attributes opts pinfo r ws partition :
  create_pll_partition opts pinfo r ws = Ok partition →
  partition_attributes opts pinfo r = Ok (attributes partition).
Proof.
  intros Hok. apply create_pll_partition_ok in Hok
    as (attrs & created & Hattrs & _ & Hca & _ & ->).
  rewrite Hattrs. f_equal. cbn [assign_partition attributes]. cbv zeta.
  rewrite <- Hca.
  destruct (part_length r ws =? PartitionRange.length r).
  - rewrite set_partition_tips_attributes.
    by destruct (PartitionRange.master r && _).
  - rewrite set_partition_tips_weights_attributes.
    by destruct (PartitionRange.master r && _).
Qed.

End PartitionErrors.

(** X3.  [create_pll_partition] fails in three ways only, each with a
    [runtime_error].  Per-rate scalers with more than one rate category on
    data that has not four states are refused first; then site repeats
    together with the tip-inner optimisation; and when the options pass,
    the only failure left is the kernel refusing to create the partition,
    whose message is handed on.  With a kernel that creates every partition
    the call succeeds exactly when the options pass. *)
Theorem create_pll_partition_errors
    {constants : PllConstants} {shape : BasicTree} {pkernel : PartitionKernel}
    (opts : Options) (pinfo : PartitionInfo) (r : PartitionRange.t)
    (weights : list Z) :
  let model := pinfo_model pinfo in
  match create_pll_partition opts pinfo r weights with
  | Ok _ =>
      scalers_not_dna opts model = false ∧ repeats_and_tip_inner opts = false
  | Throw e =>
      if scalers_not_dna opts model then
        e = runtime_error
              ("Per-rate scalers are implemented for DNA data only!" +:+ nl)
      else if repeats_and_tip_inner opts then
        e = runtime_error
              ("Repeats and tip-inner optimizations are incompatible" +:+ nl)
      else
        ∃ arguments msg,
          pll_partition_create_error arguments = Some msg
          ∧ sites arguments = part_length r weights
          ∧ e = runtime_error ("ERROR creating pll_partition: " +:+ msg)
  end
  ∧ ((∀ arguments, pll_partition_create_error arguments = None) →
     is_ok (create_pll_partition opts pinfo r weights)
     = negb (scalers_not_dna opts model) && negb (repeats_and_tip_inner opts)).
Proof.
  intros model. subst model.
  unfold create_pll_partition.
  rewrite (partition_attributes_word opts pinfo r). cbv zeta.
  destruct (scalers_not_dna opts (pinfo_model pinfo)).
  { cbn [mbind result_bind]. split; [done|]. intros _. done. }
  destruct (repeats_and_tip_inner opts).
  { cbn [mbind result_bind]. split; [done|]. intros _. done. }
  cbn [mbind result_bind].
  unfold pll_partition_create, pll_partition_create_errmsg.
  match goal with
  | |- context [pll_partition_create_error ?a] => set (arguments := a)
  end.
  split.
  - destruct (pll_partition_create_error arguments) as [msg|] eqn:Hk; [|done].
    exists arguments, msg. by split; [|split].
  - intros Hacc. by rewrite Hacc.
Qed.

(** Protein data under per-rate scalers. *)
Lemma create_pll_partition_errors_witness :
  is_ok (create_pll_partition (constants := Fixtures.pll_constants)
           (shape := Fixtures.basic_tree) (pkernel := Fixtures.accepting)
           (Fixtures.with_rate_scalers Fixtures.options)
           {| pinfo_msa := Fixtures.msa4;
              pinfo_model := Fixtures.protein_model |}
           (PartitionRange.mk 0 0 6 true) [])
  = false.
Proof.
  exact (proj2 (create_pll_partition_errors
                  (constants := Fixtures.pll_constants)
                  (shape := Fixtures.basic_tree)
                  (pkernel := Fixtures.accepting)
                  (Fixtures.with_rate_scalers Fixtures.options)
                  {| pinfo_msa := Fixtures.msa4;
                     pinfo_model := Fixtures.protein_model |}
                  (PartitionRange.mk 0 0 6 true) [])
               (fun _ => eq_refl)).
Defined.

(** ** The attribute word of a partition *)

Lemma lor_land_absorb (s g : Z) : Z.lor s (Z.land g s) = s.
Proof.
  apply Z.bits_inj'. intros n _.
  rewrite Z.lor_spec, Z.land_spec.
  by destruct (Z.testbit s n), (Z.testbit g n).
Qed.

Lemma land_lor_keep (x g s : Z) :
  Z.land x s = s → Z.land (Z.lor x g) s = s.
Proof.
  intros Hx. by rewrite Z.land_lor_distr_l, Hx, lor_land_absorb.
Qed.

Lemma flag_set_zero (f : Z) : flag_set 0 f = false.
Proof. unfold flag_set. by rewrite Z.land_0_l. Qed.

(** X4.  The attribute word of a partition that [create_pll_partition]
    returns, flag by flag (the flags being bits of their own): per-rate
    scalers are switched on exactly when the option is set and the model has
    more than one rate category, and then the data has four states; the
    tip-inner optimisation exactly when the option is set and the alignment
    is longer than 100 sites; site repeats exactly when the option is set
    and the alignment is longer than 16 sites; never the last two together;
    and every bit of the instruction-set word is kept. *)
Theorem partition_attribute_flags
    {constants : PllConstants} {shape : BasicTree} {pkernel : PartitionKernel}
    (opts : Options) (pinfo : PartitionInfo) (r : PartitionRange.t)
    (weights : list Z) (partition : pll_partition_t) :
  attribute_flags_distinct opts (pinfo_model pinfo) →
  create_pll_partition opts pinfo r weights = Ok partition →
  let attrs := attributes partition in
  flag_set attrs PLL_ATTRIB_RATE_SCALERS
  = use_rate_scalers opts && (1 <? num_ratecats (pinfo_model pinfo))
  ∧ flag_set attrs PLL_ATTRIB_PATTERN_TIP
    = use_tip_inner opts && (100 <? msa_length (pinfo_msa pinfo))
  ∧ flag_set attrs PLL_ATTRIB_SITE_REPEATS
    = use_repeats opts && (16 <? msa_length (pinfo_msa pinfo))
  ∧ flag_set attrs PLL_ATTRIB_PATTERN_TIP
    && flag_set attrs PLL_ATTRIB_SITE_REPEATS = false
  ∧ (flag_set attrs PLL_ATTRIB_RATE_SCALERS = true →
     num_states (pinfo_model pinfo) = 4)
  ∧ Z.land attrs (simd_arch opts) = simd_arch opts.
Proof.
  intros (Hrs & Hpt & Hsr) Hok attrs.
  apply create_pll_partition_attributes in Hok. fold attrs in Hok.
  rewrite (partition_attributes_word opts pinfo r) in Hok. cbv zeta in Hok.
  destruct (scalers_not_dna opts (pinfo_model pinfo)) eqn:Hsnd; [done|].
  destruct (repeats_and_tip_inner opts) eqn:Hrti; [done|].
  injection Hok as Hattrs.
  destruct Hrs as [Hrs0 Hrs], Hpt as [Hpt0 Hpt], Hsr as [Hsr0 Hsr].
  repeat match goal with
         | H : Forall _ (_ :: _) |- _ => apply Forall_cons in H as [? H]
         end.
  unfold scalers_not_dna in Hsnd. unfold repeats_and_tip_inner in Hrti.
  assert (Hflags :
    flag_set attrs PLL_ATTRIB_RATE_SCALERS
    = use_rate_scalers opts && (1 <? num_ratecats (pinfo_model pinfo))
    ∧ flag_set attrs PLL_ATTRIB_PATTERN_TIP
      = use_tip_inner opts && (100 <? msa_length (pinfo_msa pinfo))
    ∧ flag_set attrs PLL_ATTRIB_SITE_REPEATS
      = use_repeats opts && (16 <? msa_length (pinfo_msa pinfo))).
  { rewrite <- Hattrs. unfold flag_set.
    destruct (use_rate_scalers opts && (1 <? num_ratecats (pinfo_model pinfo))),
      (use_tip_inner opts && (100 <? msa_length (pinfo_msa pinfo))),
      (use_repeats opts && (16 <? msa_length (pinfo_msa pinfo))),
      (bool_decide (ascbias_type (pinfo_model pinfo) = asc_lewis)
       || (bool_decide (ascbias_type (pinfo_model pinfo) ≠ asc_none)
           && PartitionRange.master r));
      rewrite ?Z.land_lor_distr_l;
      repeat match goal with
             | H : Z.land _ _ = 0 |- _ => rewrite !H
             end;
      rewrite ?Z.land_diag, ?Z.lor_0_l, ?Z.lor_0_r;
      (split; [|split]);
      first [ apply negb_true_iff, Z.eqb_neq; assumption
            | apply negb_false_iff, Z.eqb_eq; reflexivity ]. }
  destruct Hflags as (Hf1 & Hf2 & Hf3).
  split; [done|]. split; [done|]. split; [done|]. split; [|split].
  - rewrite Hf2, Hf3.
    destruct (use_repeats opts), (use_tip_inner opts);
      cbn [andb]; rewrite ?andb_false_r; done.
  - rewrite Hf1. intros Hb. rewrite Hb in Hsnd. cbn in Hsnd.
    apply negb_false_iff, Z.eqb_eq in Hsnd. done.
  - rewrite <- Hattrs.
    destruct (use_rate_scalers opts && (1 <? num_ratecats (pinfo_model pinfo))),
      (use_tip_inner opts && (100 <? msa_length (pinfo_msa pinfo))),
      (use_repeats opts && (16 <? msa_length (pinfo_msa pinfo))),
      (bool_decide (ascbias_type (pinfo_model pinfo) = asc_lewis)
       || (bool_decide (ascbias_type (pinfo_model pinfo) ≠ asc_none)
           && PartitionRange.master r));
      repeat apply land_lor_keep; apply Z.land_diag.
Qed.

(** DNA data under per-rate scalers, with the flags of the kernel's
    headers. *)
Lemma partition_attribute_flags_witness :
  ∃ partition,
    create_pll_partition (constants := Fixtures.pll_constants)
      (shape := Fixtures.basic_tree) (pkernel := Fixtures.accepting)
      (Fixtures.with_rate_scalers Fixtures.options)
      {| pinfo_msa := Fixtures.msa4;
         pinfo_model := Fixtures.dna_model asc_none |}
      (PartitionRange.mk 0 0 6 true) [] = Ok partition
    ∧ flag_set (attributes partition)
        (PLL_ATTRIB_RATE_SCALERS (PllConstants := Fixtures.pll_constants))
      = true.
Proof.
  eexists. split; [vm_compute; reflexivity|].
  refine (proj1 (partition_attribute_flags
                   (constants := Fixtures.pll_constants)
                   (shape := Fixtures.basic_tree)
                   (pkernel := Fixtures.accepting)
                   (Fixtures.with_rate_scalers Fixtures.options)
                   {| pinfo_msa := Fixtures.msa4;
                      pinfo_model := Fixtures.dna_model asc_none |}
                   (PartitionRange.mk 0 0 6 true) [] _ _ _)).
  - unfold attribute_flags_distinct, own_bit.
    repeat split; try (intros [=]); repeat constructor.
  - reflexivity.
Defined.

(** ** [build_clv] *)

(** X5.  [build_clv] writes the probabilities of a site to the vector only
    when the site has a positive weight: given probabilities and weights
    for every site, the number of entries written is the number of states
    times the number of the [sites] weights that are positive.  The closing
    assertion of the source, that a vector of [sites * states] entries has
    been filled to its end, therefore holds exactly when none of these
    weights is zero (for at least one state). *)
Theorem build_clv_length
    (probs : list double) (sites : nat) (weights : list Z) (states : nat)
    (normalize : bool) :
  (sites * states ≤ length probs)%nat →
  (sites ≤ length weights)%nat →
  Z.of_nat (length (build_clv probs sites weights states normalize))
  = Z.of_nat states * count_if (fun w => 0 <? w) (take sites weights)
  ∧ ((0 < states)%nat →
     (length (build_clv probs sites weights states normalize)
      = (sites * states)%nat
      ↔ Forall (fun w => 0 < w) (take sites weights))).
Proof.
  intros Hprobs Hweights.
  assert (Hlen : ∀ sites probs weights,
            (sites * states ≤ length probs)%nat →
            (sites ≤ length weights)%nat →
            Z.of_nat (length (build_clv probs sites weights states normalize))
            = Z.of_nat states
              * count_if (fun w => 0 <? w) (take sites weights)).
  { clear. intros sites. induction sites as [|sites IH];
      intros probs weights Hprobs Hweights; [simpl; lia|].
    cbn [build_clv]. cbv zeta.
    assert (Hrest : (sites * states ≤ length (drop states probs))%nat)
      by (rewrite length_drop; lia).
    destruct weights as [|w weights]; [simpl in Hweights; lia|].
    cbn [length] in Hweights.
    specialize (IH (drop states probs) weights Hrest ltac:(lia)).
    change (at_ (w :: weights) 0) with w.
    change (drop 1 (w :: weights)) with weights.
    cbn [take count_if].
    destruct (0 <? w).
    - rewrite length_app, length_fmap, length_take.
      rewrite Nat.min_l by lia. lia.
    - lia. }
  split; [by apply Hlen|].
  intros Hst.
  assert (Hcount : ∀ l : list Z,
            count_if (fun w => 0 <? w) l = Z.of_nat (length l)
            ↔ Forall (fun w => 0 < w) l).
  { clear. induction l as [|w l IH]; [by split; [constructor|]|].
    cbn [count_if length]. pose proof (count_if_bounds (fun w => 0 <? w) l).
    destruct (Z.ltb_spec 0 w); split.
    - intros Hc. constructor; [done|]. apply IH. lia.
    - intros Hf. apply Forall_cons in Hf as [_ Hf]. apply IH in Hf. lia.
    - lia.
    - intros Hf. apply Forall_cons in Hf as [? _]. lia. }
  rewrite <- Hcount, length_take, Nat.min_l by done.
  specialize (Hlen sites probs weights Hprobs Hweights).
  split; intros Heq; nia.
Qed.

(** Three sites over two states, the second site of weight zero. *)
Lemma build_clv_length_witness :
  Z.of_nat (length (build_clv (replicate 6 d_one) 3 [1; 0; 2] 2 false))
  = 2 * 2.
Proof.
  exact (proj1 (build_clv_length (replicate 6 d_one) 3 [1; 0; 2] 2 false
                  ltac:(simpl; lia) ltac:(simpl; lia))).
Defined.

(** ** Re-balanced ranges and the partitions built from them *)

Lemma original_coordinates_weights (psw : list (list Z)) (r r' : PartitionRange.t)
    (ws : list Z) :
  psw !! Z.to_nat (PartitionRange.part_id r) = Some ws →
  original_coordinates psw r r' →
  let last := PartitionRange.start r' + PartitionRange.length r' - 1 in
  (PartitionRange.start r = 0 → PartitionRange.start r' = 0)
  ∧ (0 < PartitionRange.start r →
     0 < at_ ws (PartitionRange.start r')
     ∧ positive_before ws (PartitionRange.start r') = PartitionRange.start r)
  ∧ 0 ≤ PartitionRange.start r' ≤ last
  ∧ last < Z.of_nat (length ws)
  ∧ 0 < at_ ws last
  ∧ positive_before ws last
    = PartitionRange.start r + PartitionRange.length r - 1
  ∧ part_length r' ws = PartitionRange.length r.
Proof.
  intros Hws (ws' & Hws' & _ & _ & Hrest).
  rewrite Hws in Hws'. injection Hws' as <-. exact Hrest.
Qed.

Section TranslatedPartition.
Context {constants : PllConstants} {shape : BasicTree}
        {pkernel : PartitionKernel}.

Lemma translated_partition_sites opts pinfo (psw : list (list Z))
    (r : PartitionRange.t) (ws : list Z) (partition : pll_partition_t) :
  Forall (fun ws => Z.of_nat (length ws) ≤ uint_range) psw →
  valid_compressed psw r →
  psw !! Z.to_nat (PartitionRange.part_id r) = Some ws →
  create_pll_partition opts pinfo
    (translate_range (comp_pos_map <$> psw) r) ws = Ok partition →
  sites partition = PartitionRange.length r.
Proof.
  intros Hsize Hvalid Hws Hok.
  pose proof (translate_range_original psw r Hsize Hvalid) as Horig.
  destruct (original_coordinates_weights _ _ _ _ Hws Horig)
    as (_ & _ & _ & _ & _ & _ & Hpl).
  apply create_pll_partition_ok in Hok
    as (attrs & created & _ & Hcs & _ & _ & ->).
  cbn [assign_partition sites]. cbv zeta.
  set (r' := translate_range (comp_pos_map <$> psw) r) in *.
  destruct (part_length r' ws =? PartitionRange.length r').
  - rewrite set_partition_tips_sites, <- Hpl, <- Hcs.
    by destruct (PartitionRange.master r' && _).
  - rewrite set_partition_tips_weights_sites, <- Hpl, <- Hcs.
    by destruct (PartitionRange.master r' && _).
Qed.

End TranslatedPartition.

(** X6.  The partition a worker builds for a bootstrap replicate from its
    re-balanced range holds exactly as many sites as the load balancer
    assigned to it: [create_pll_partition], given the range that
    [balance_load] has translated to original coordinates and the weights of
    the replicate, creates a partition whose site count is the length of
    the range in compressed coordinates. *)
Theorem translated_range_partition_sites
    {constants : PllConstants} {shape : BasicTree} {pkernel : PartitionKernel}
    (opts : Options) (pinfo : PartitionInfo) (psw : list (list Z))
    (r : PartitionRange.t) (ws : list Z) (partition : pll_partition_t) :
  Forall (fun ws => Z.of_nat (length ws) ≤ uint_range) psw →
  valid_compressed psw r →
  psw !! Z.to_nat (PartitionRange.part_id r) = Some ws →
  create_pll_partition opts pinfo
    (translate_range (comp_pos_map <$> psw) r) ws = Ok partition →
  sites partition = PartitionRange.length r.
Proof.
  intros Hsize Hvalid Hws Hok.
  (* the translated range covers, in original coordinates, exactly the
     sites of positive weight that the compressed range counts *)
  pose proof (translate_range_original psw r Hsize Hvalid) as Horig.
  destruct (original_coordinates_weights _ _ _ _ Hws Horig)
    as (_ & _ & _ & _ & _ & _ & Hpl).
  (* the kernel creates the partition with [part_length] sites, and neither
     way of setting the tips changes the count *)
  apply create_pll_partition_ok in Hok
    as (attrs & created & _ & Hcs & _ & _ & ->).
  cbn [assign_partition sites]. cbv zeta.
  set (r' := translate_range (comp_pos_map <$> psw) r) in *.
  destruct (part_length r' ws =? PartitionRange.length r').
  - rewrite set_partition_tips_sites, <- Hpl, <- Hcs.
    by destruct (PartitionRange.master r' && _).
  - rewrite set_partition_tips_weights_sites, <- Hpl, <- Hcs.
    by destruct (PartitionRange.master r' && _).
Qed.

(** The second of two workers, on a replicate that drops the second and the
    fourth of six columns: two sites in compressed coordinates, three in
    original ones. *)
Lemma translated_range_partition_sites_witness :
  let psw := [[1; 0; 2; 0; 1; 1]] in
  let r := PartitionRange.mk 0 1 2 false in
  let pinfo := {| pinfo_msa := Fixtures.msa4;
                  pinfo_model := Fixtures.dna_model asc_none |} in
  translate_range (comp_pos_map <$> psw) r = PartitionRange.mk 0 2 3 false
  ∧ ∃ partition,
      create_pll_partition (constants := Fixtures.pll_constants)
        (shape := Fixtures.basic_tree) (pkernel := Fixtures.accepting)
        Fixtures.options pinfo (translate_range (comp_pos_map <$> psw) r)
        [1; 0; 2; 0; 1; 1] = Ok partition
      ∧ sites partition = 2.
Proof.
  intros psw r pinfo. split; [reflexivity|].
  eexists. split; [vm_compute; reflexivity|].
  refine (translated_range_partition_sites
            (constants := Fixtures.pll_constants)
            (shape := Fixtures.basic_tree) (pkernel := Fixtures.accepting)
            Fixtures.options pinfo psw r [1; 0; 2; 0; 1; 1] _ _ _ _ _).
  - repeat constructor. vm_compute. discriminate.
  - split; [simpl; lia|]. exists [1; 0; 2; 0; 1; 1].
    split; [reflexivity|]. simpl. lia.
  - reflexivity.
  - reflexivity.
Defined.

(** X7.  For a range of positive length that lies inside its compressed
    partition, re-balancing keeps exactly the sites the load balancer
    assigned: a site of positive weight lies inside the translated range
    exactly when its rank among the sites of positive weight of the
    partition lies inside the range in compressed coordinates.  (A range
    of length 0 is not covered.) *)
Theorem translated_range_membership
    (psw : list (list Z)) (r : PartitionRange.t) (ws : list Z) (j : Z) :
  Forall (fun ws => Z.of_nat (length ws) ≤ uint_range) psw →
  valid_compressed psw r →
  psw !! Z.to_nat (PartitionRange.part_id r) = Some ws →
  0 ≤ j < Z.of_nat (length ws) →
  0 < at_ ws j →
  let r' := translate_range (comp_pos_map <$> psw) r in
  PartitionRange.start r' ≤ j
  < PartitionRange.start r' + PartitionRange.length r'
  ↔ PartitionRange.start r ≤ positive_before ws j
    < PartitionRange.start r + PartitionRange.length r.
Proof.
  intros Hsize Hvalid Hws Hj Hpos r'.
  pose proof (translate_range_original psw r Hsize Hvalid) as Horig.
  fold r' in Horig.
  destruct (original_coordinates_weights _ _ _ _ Hws Horig)
    as (Hzero & Hfirst & Hord & Hlast & Hlastpos & Hlastrank & _).
  cbv zeta in *.
  destruct Hvalid as (_ & ws' & Hws' & Hcs & Hlen & _).
  set (s' := PartitionRange.start r') in *.
  set (last := s' + PartitionRange.length r' - 1) in *.
  set (cs := PartitionRange.start r) in *.
  set (len := PartitionRange.length r) in *.
  pose proof (positive_before_succ ws j Hj) as Hsucc.
  destruct (Z.ltb_spec 0 (at_ ws j)) as [_|]; [|lia].
  pose proof (positive_before_succ ws last ltac:(lia)) as Hsuccl.
  destruct (Z.ltb_spec 0 (at_ ws last)) as [_|]; [|lia].
  split.
  - intros [Hlo Hhi]. split.
    + destruct (Z.eq_dec cs 0) as [Hcs0|Hcs0].
      * rewrite Hcs0. apply count_if_bounds.
      * destruct (Hfirst ltac:(lia)) as [_ <-].
        apply positive_before_mono. lia.
    + pose proof (positive_before_mono ws j last ltac:(lia)). lia.
  - intros [Hlo Hhi]. split.
    + destruct (Z.eq_dec cs 0) as [Hcs0|Hcs0]; [rewrite (Hzero Hcs0); lia|].
      destruct (Hfirst ltac:(lia)) as [_ Hrank].
      destruct (Z.le_gt_cases s' j) as [|Hgt]; [done|].
      pose proof (positive_before_mono ws (j + 1) s' ltac:(lia)). lia.
    + destruct (Z.le_gt_cases j last) as [|Hgt]; [lia|].
      pose proof (positive_before_mono ws (last + 1) j ltac:(lia)). lia.
Qed.

(** The last column of the replicate above has rank 3 and belongs to the
    worker whose compressed range is [2, 4). *)
Lemma translated_range_membership_witness :
  let psw := [[1; 0; 2; 0; 1; 1]] in
  let r' := translate_range (comp_pos_map <$> psw)
              (PartitionRange.mk 0 2 2 false) in
  PartitionRange.start r' ≤ 5
  < PartitionRange.start r' + PartitionRange.length r'.
Proof.
  intros psw r'.
  apply (translated_range_membership psw (PartitionRange.mk 0 2 2 false)
           [1; 0; 2; 0; 1; 1] 5).
  - repeat constructor. vm_compute. discriminate.
  - split; [simpl; lia|]. exists [1; 0; 2; 0; 1; 1].
    split; [reflexivity|]. simpl. lia.
  - reflexivity.
  - simpl. lia.
  - vm_compute. reflexivity.
  - vm_compute. split; [discriminate|reflexivity].
Defined.

(** X8.  Ranges of positive length inside their compressed partition that
    follow one another in compressed coordinates follow one another in
    original coordinates: when such a range ends, in the compressed
    partition, at or before the start of another such range of the same
    partition, its translation ends at or before the start of the
    translation of the other.  (A range of length 0 is not covered.) *)
Theorem translated_ranges_ordered
    (psw : list (list Z)) (r1 r2 : PartitionRange.t) :
  Forall (fun ws => Z.of_nat (length ws) ≤ uint_range) psw →
  valid_compressed psw r1 →
  valid_compressed psw r2 →
  PartitionRange.part_id r1 = PartitionRange.part_id r2 →
  PartitionRange.start r1 + PartitionRange.length r1 ≤ PartitionRange.start r2 →
  let r1' := translate_range (comp_pos_map <$> psw) r1 in
  let r2' := translate_range (comp_pos_map <$> psw) r2 in
  PartitionRange.start r1' + PartitionRange.length r1'
  ≤ PartitionRange.start r2'.
Proof.
  intros Hsize Hv1 Hv2 Hid Hle r1' r2'.
  pose proof (translate_range_original psw r1 Hsize Hv1) as Ho1.
  pose proof (translate_range_original psw r2 Hsize Hv2) as Ho2.
  fold r1' in Ho1. fold r2' in Ho2.
  destruct Hv1 as (_ & ws & Hws & Hcs1 & Hlen1 & _).
  assert (Hws2 : psw !! Z.to_nat (PartitionRange.part_id r2) = Some ws)
    by (by rewrite <- Hid).
  destruct (original_coordinates_weights _ _ _ _ Hws Ho1)
    as (_ & _ & Hord1 & Hlast1 & _ & Hrank1 & _).
  destruct (original_coordinates_weights _ _ _ _ Hws2 Ho2)
    as (_ & Hfirst2 & Hord2 & _ & _ & _ & _).
  cbv zeta in *.
  destruct (Hfirst2 ltac:(lia)) as [_ Hrank2].
  set (last1 := PartitionRange.start r1' + PartitionRange.length r1' - 1) in *.
  destruct (Z.le_gt_cases (last1 + 1) (PartitionRange.start r2'))
    as [|Hgt]; [lia|].
  pose proof (positive_before_mono ws (PartitionRange.start r2') last1
                ltac:(lia)). lia.
Qed.

Lemma translated_ranges_ordered_witness :
  let psw := [[1; 0; 2; 0; 1; 1]] in
  let r1' := translate_range (comp_pos_map <$> psw)
               (PartitionRange.mk 0 0 2 true) in
  let r2' := translate_range (comp_pos_map <$> psw)
               (PartitionRange.mk 0 2 2 false) in
  PartitionRange.start r1' + PartitionRange.length r1'
  ≤ PartitionRange.start r2'.
Proof.
  intros psw r1' r2'.
  apply (translated_ranges_ordered psw (PartitionRange.mk 0 0 2 true)
           (PartitionRange.mk 0 2 2 false)).
  - repeat constructor. vm_compute. discriminate.
  - split; [simpl; lia|]. exists [1; 0; 2; 0; 1; 1].
    split; [reflexivity|]. simpl. lia.
  - split; [simpl; lia|]. exists [1; 0; 2; 0; 1; 1].
    split; [reflexivity|]. simpl. lia.
  - reflexivity.
  - simpl. lia.
Defined.

(** X24.  What re-balancing makes of a range of length 0 that starts at
    rank [s] of the resampled sites, with [0 < s] below their number: the
    translated range starts at the original index of the site of rank [s],
    and its length is 0 only when the sites of rank [s - 1] and [s] are
    neighbours in the alignment; when [k] sites of weight zero lie between
    them, the subtraction in [size_t] wraps round and the length is
    [2^64 - k]. *)
Theorem translated_empty_range
    (psw : list (list Z)) (r : PartitionRange.t) (ws : list Z) :
  Forall (fun ws => Z.of_nat (length ws) ≤ uint_range) psw →
  0 ≤ PartitionRange.part_id r →
  psw !! Z.to_nat (PartitionRange.part_id r) = Some ws →
  PartitionRange.length r = 0 →
  0 < PartitionRange.start r < count_if (fun w => 0 <? w) ws →
  let r' := translate_range (comp_pos_map <$> psw) r in
  ∃ before first,
    0 ≤ before < first ∧ first < Z.of_nat (length ws)
    ∧ 0 < at_ ws before
    ∧ positive_before ws before = PartitionRange.start r - 1
    ∧ 0 < at_ ws first
    ∧ positive_before ws first = PartitionRange.start r
    ∧ PartitionRange.start r' = first
    ∧ PartitionRange.length r'
      = (if first =? before + 1 then 0
         else size_t_range - (first - before - 1)).
Proof.
  intros Hsize Hid Hws Hlen Hstart r'. subst r'.
  assert (Hn : Z.of_nat (length ws) ≤ uint_range).
  { rewrite Forall_forall in Hsize. apply Hsize.
    by apply list_elem_of_lookup_2 in Hws. }
  pose proof (comp_pos_map_length ws Hn) as HN.
  pose proof (count_if_bounds (fun w => 0 <? w) ws) as Hcount.
  set (cs := PartitionRange.start r) in *.
  destruct (lookup_lt_is_Some_2 (comp_pos_map ws) (Z.to_nat (cs - 1)))
    as [before Hb]; [lia|].
  destruct (lookup_lt_is_Some_2 (comp_pos_map ws) (Z.to_nat cs))
    as [first Hf]; [lia|].
  destruct (comp_pos_map_lookup ws _ before Hn Hb) as (Hbb & Hbpos & Hbrank).
  destruct (comp_pos_map_lookup ws _ first Hn Hf) as (Hfb & Hfpos & Hfrank).
  rewrite Z2Nat.id in Hbrank, Hfrank by lia.
  assert (Hlt : before < first).
  { destruct (Z.lt_ge_cases before first) as [|Hge]; [done|].
    pose proof (positive_before_mono ws first before ltac:(lia)). lia. }
  exists before, first.
  split; [lia|]. split; [lia|]. split; [done|]. split; [done|].
  split; [done|]. split; [done|].
  unfold translate_range. fold cs. rewrite Hlen.
  assert (Hmap : at_ (comp_pos_map <$> psw) (PartitionRange.part_id r)
                 = comp_pos_map ws).
  { unfold at_. apply list_lookup_total_correct.
    by rewrite list_lookup_fmap, Hws. }
  rewrite Hmap.
  destruct (Z.ltb_spec 0 cs) as [_|]; [|lia].
  assert (Hwrap : wrap (cs + 0 - 1) = cs - 1).
  { replace (cs + 0 - 1) with (cs - 1) by lia.
    apply wrap_small. unfold size_t_range, uint_range in *. lia. }
  rewrite Hwrap.
  assert (Hat_b : at_ (comp_pos_map ws) (cs - 1) = before)
    by (unfold at_; by apply list_lookup_total_correct).
  assert (Hat_f : at_ (comp_pos_map ws) cs = first)
    by (unfold at_; by apply list_lookup_total_correct).
  rewrite Hat_b, Hat_f. cbn [PartitionRange.start PartitionRange.length].
  split; [done|].
  destruct (Z.eqb_spec first (before + 1)) as [->|Hgap].
  - replace (before - (before + 1) + 1) with 0 by lia. done.
  - unfold wrap.
    rewrite <- (Z_mod_plus_full (before - first + 1) 1 size_t_range).
    rewrite Z.mod_small; [lia|].
    unfold size_t_range, uint_range in *. lia.
Qed.

(** A replicate that drops the second and the fourth of six columns, and an
    empty range at rank 1: the sites of rank 0 and 1 are the columns 0 and 2,
    one dropped column lies between them, and the translated range has
    length [2^64 - 1]. *)
Lemma translated_empty_range_witness :
  let psw := [[1; 0; 2; 0; 1; 1]] in
  let ws := [1; 0; 2; 0; 1; 1] in
  let r := PartitionRange.mk 0 1 0 false in
  let r' := translate_range (comp_pos_map <$> psw) r in
  r' = PartitionRange.mk 0 2 (size_t_range - 1) false
  ∧ ∃ before first,
      0 ≤ before < first ∧ first < 6
      ∧ 0 < at_ ws before ∧ positive_before ws before = 0
      ∧ 0 < at_ ws first ∧ positive_before ws first = 1
      ∧ PartitionRange.start r' = first
      ∧ PartitionRange.length r'
        = (if first =? before + 1 then 0
           else size_t_range - (first - before - 1)).
Proof.
  intros psw ws r r'. split; [vm_compute; reflexivity|].
  apply (translated_empty_range psw r ws).
  - apply Forall_singleton. unfold uint_range. simpl. lia.
  - simpl. lia.
  - reflexivity.
  - reflexivity.
  - simpl. lia.
Defined.

(** ** What [TreeInfo::init] records besides the partitions *)

Section InitRecords.
Context {constants : PllConstants} {raxml : RaxmlConstants}
        {shape : BasicTree} {pkernel : PartitionKernel}
        {kernel : LikelihoodKernel}.

(** One turn of the loop: the master set and the fields it leaves alone. *)
Lemma init_partition_records opts pa sw ob p pinfo (t t1 : TreeInfo) :
  init_partition opts pa sw ob p pinfo t = Ok t1 →
  _parts_master t1
  = (if owns_master pa p then {[ p ]} ∪ _parts_master t else _parts_master t)
  ∧ params_to_optimize (_pll_treeinfo t1)
    = <[Z.to_nat p := partition_flags opts ob pinfo]>
        (params_to_optimize (_pll_treeinfo t))
  ∧ tip_count (_pll_treeinfo t1) = tip_count (_pll_treeinfo t)
  ∧ partition_count (_pll_treeinfo t1) = partition_count (_pll_treeinfo t)
  ∧ treeinfo_brlen_linkage (_pll_treeinfo t1)
    = treeinfo_brlen_linkage (_pll_treeinfo t)
  ∧ parallel_reduce_cb (_pll_treeinfo t1) = parallel_reduce_cb (_pll_treeinfo t).
Proof.
  unfold init_partition, owns_master.
  destruct (PartitionAssignment_find pa p) as [r|]; [|by intros [= <-]].
  destruct (partition_weights sw pinfo p) as [w|e]; [|done].
  cbn [mbind result_bind].
  destruct (create_pll_partition opts pinfo r w) as [partition|e]; [|done].
  cbn [mbind result_bind]. unfold pllmod_treeinfo_init_partition.
  destruct (pllmod_treeinfo_init_partition_error _ _ _ _ _ _); [done|].
  by intros [= <-].
Qed.

Lemma init_partitions_records opts pa sw ob (parts : list PartitionInfo) :
  ∀ (p : nat) (t t' : TreeInfo),
    init_partitions opts pa sw ob (Z.of_nat p) parts t = Ok t' →
    (p + length parts ≤ length (params_to_optimize (_pll_treeinfo t)))%nat →
    (∀ q, q ∈ _parts_master t'
          ↔ q ∈ _parts_master t
            ∨ (Z.of_nat p ≤ q < Z.of_nat (p + length parts)
               ∧ owns_master pa q = true))
    ∧ length (params_to_optimize (_pll_treeinfo t'))
      = length (params_to_optimize (_pll_treeinfo t))
    ∧ (∀ q, (q < p)%nat →
         params_to_optimize (_pll_treeinfo t') !! q
         = params_to_optimize (_pll_treeinfo t) !! q)
    ∧ (∀ k pinfo, parts !! k = Some pinfo →
         params_to_optimize (_pll_treeinfo t') !! (p + k)%nat
         = Some (partition_flags opts ob pinfo))
    ∧ tip_count (_pll_treeinfo t') = tip_count (_pll_treeinfo t)
    ∧ partition_count (_pll_treeinfo t') = partition_count (_pll_treeinfo t)
    ∧ treeinfo_brlen_linkage (_pll_treeinfo t')
      = treeinfo_brlen_linkage (_pll_treeinfo t)
    ∧ parallel_reduce_cb (_pll_treeinfo t')
      = parallel_reduce_cb (_pll_treeinfo t).
Proof.
  induction parts as [|pinfo parts IH]; intros p t t' Hrun Hlen.
  - injection Hrun as <-. split; [|done].
    intros q. cbn [length]. split; [by left|]. intros [?|[? _]]; [done|lia].
  - cbn [init_partitions] in Hrun. cbn [length] in Hlen.
    destruct (init_partition opts pa sw ob (Z.of_nat p) pinfo t)
      as [t1|e1] eqn:H1; [|done].
    cbn [mbind result_bind] in Hrun.
    replace (Z.of_nat p + 1) with (Z.of_nat (S p)) in Hrun by lia.
    apply init_partition_records in H1
      as (Hm1 & Hf1 & Htc1 & Hpc1 & Hbl1 & Hcb1).
    rewrite Nat2Z.id in Hf1.
    destruct (IH (S p) t1 t' Hrun)
      as (Hm & Hl & Hbefore & Hslots & Htc & Hpc & Hbl & Hcb).
    { rewrite Hf1, length_insert. lia. }
    rewrite Hf1, length_insert in Hl.
    split; [|split; [done|split; [|split; [|by rewrite Htc, Hpc, Hbl, Hcb]]]].
    + intros q. rewrite Hm, Hm1. cbn [length].
      destruct (owns_master pa (Z.of_nat p)) eqn:Hown.
      * rewrite elem_of_union, elem_of_singleton. split.
        -- intros [[->|?]|[? ?]]; [right; split; [lia|done]|by left|].
           right. split; [lia|done].
        -- intros [?|[Hq Ho]]; [left; by right|].
           destruct (decide (q = Z.of_nat p)) as [->|Hne]; [left; by left|].
           right. split; [lia|done].
      * split.
        -- intros [?|[? ?]]; [by left|]. right. split; [lia|done].
        -- intros [?|[Hq Ho]]; [by left|].
           destruct (decide (q = Z.of_nat p)) as [->|Hne]; [congruence|].
           right. split; [lia|done].
    + intros q Hq. rewrite Hbefore by lia. rewrite Hf1.
      apply list_lookup_insert_ne. lia.
    + intros [|k] pk Hk.
      * cbn in Hk. injection Hk as <-. rewrite Nat.add_0_r.
        rewrite Hbefore by lia. rewrite Hf1.
        apply list_lookup_insert_eq. lia.
      * cbn in Hk. replace (p + S k)%nat with (S p + k)%nat by lia.
        by apply Hslots.
Qed.

End InitRecords.

(** X9.  What a successful [TreeInfo::init] records besides the
    partitions.  The master set holds exactly the partitions of which the
    assignment gives this worker the master range.  The optimisation flags
    are recorded for every partition, owned or not, and they are the flags
    of the model (when the model is optimised) joined with the branch-length
    flags: they depend neither on the assignment nor on the site weights, so
    all workers hold the same flags.  The reduction callback is installed
    exactly when more than one execution unit runs. *)
Theorem init_records
    {constants : PllConstants} {raxml : RaxmlConstants}
    {shape : BasicTree} {pkernel : PartitionKernel}
    {kernel : LikelihoodKernel}
    (pc : ParallelContext) (errno : Z) (errmsg : string) (opts : Options)
    (tree : Tree) (parted_msa : list PartitionInfo)
    (pa : PartitionAssignment) (sw : list (list Z)) (t : TreeInfo) :
  init pc errno errmsg opts tree parted_msa pa sw = Ok t →
  let part_count := Z.of_nat (length parted_msa) in
  (∀ p, p ∈ _parts_master t
        ↔ 0 ≤ p < part_count ∧ owns_master pa p = true)
  ∧ params_to_optimize (_pll_treeinfo t)
    = partition_flags opts (branch_flags opts part_count) <$> parted_msa
  ∧ tip_count (_pll_treeinfo t) = num_tips tree
  ∧ partition_count (_pll_treeinfo t) = part_count
  ∧ treeinfo_brlen_linkage (_pll_treeinfo t) = brlen_linkage opts
  ∧ parallel_reduce_cb (_pll_treeinfo t) = (1 <? num_procs pc).
Proof.
  intros Hinit part_count. unfold init in Hinit. fold part_count in Hinit.
  unfold pllmod_treeinfo_create in Hinit.
  destruct (pllmod_treeinfo_create_error (pll_utree_root tree) (num_tips tree)
              part_count (brlen_linkage opts)); [done|].
  match type of Hinit with
  | init_partitions _ _ _ _ _ _ ?s = _ => set (t0 := s) in Hinit
  end.
  assert (Hn : Z.to_nat part_count = length parted_msa)
    by (subst part_count; lia).
  assert (H0 : params_to_optimize (_pll_treeinfo t0)
               = replicate (length parted_msa) 0
               ∧ _parts_master t0 = ∅
               ∧ tip_count (_pll_treeinfo t0) = num_tips tree
               ∧ partition_count (_pll_treeinfo t0) = part_count
               ∧ treeinfo_brlen_linkage (_pll_treeinfo t0) = brlen_linkage opts
               ∧ parallel_reduce_cb (_pll_treeinfo t0) = (1 <? num_procs pc)).
  { subst t0. unfold before_partitions. cbn [_pll_treeinfo _parts_master].
    destruct (1 <? num_procs pc);
      cbn [params_to_optimize tip_count partition_count
           treeinfo_brlen_linkage parallel_reduce_cb];
      by rewrite Hn. }
  destruct H0 as (Hf0 & Hm0 & Htc0 & Hpc0 & Hbl0 & Hcb0).
  destruct (init_partitions_records opts pa sw
              (branch_flags opts part_count) parted_msa 0 t0 t Hinit)
    as (Hm & Hl & _ & Hslots & Htc & Hpc & Hbl & Hcb).
  { rewrite Hf0, length_replicate. lia. }
  split; [|split; [|by rewrite Htc, Hpc, Hbl, Hcb]].
  - intros p. rewrite Hm, Hm0. subst part_count.
    rewrite Nat.add_0_l. change (Z.of_nat 0) with 0. split.
    + intros [Hin|?]; [|done]. by apply not_elem_of_empty in Hin.
    + intros ?. by right.
  - apply list_eq. intros k. rewrite list_lookup_fmap.
    destruct (parted_msa !! k) as [pinfo|] eqn:Hk.
    + specialize (Hslots k pinfo Hk). rewrite Nat.add_0_l in Hslots.
      by rewrite Hslots.
    + apply lookup_ge_None. apply lookup_ge_None in Hk.
      rewrite Hl, Hf0, length_replicate. done.
Qed.

(** Two partitions, of which the worker owns the first as master and
    nothing of the second. *)
Lemma init_records_witness :
  let pinfo := {| pinfo_msa := Fixtures.msa4;
                  pinfo_model := Fixtures.dna_model asc_none |} in
  ∃ t,
    init (constants := Fixtures.pll_constants) (shape := Fixtures.basic_tree)
      (pkernel := Fixtures.accepting) (kernel := Fixtures.quiet dzero)
      Fixtures.four_procs 0 EmptyString Fixtures.options Fixtures.tree4
      [pinfo; pinfo] [PartitionRange.mk 0 0 6 true] [] = Ok t
    ∧ params_to_optimize (_pll_treeinfo t) = [64; 64]
    ∧ parallel_reduce_cb (_pll_treeinfo t) = true.
Proof.
  intros pinfo. eexists. split; [vm_compute; reflexivity|].
  match goal with
  | |- params_to_optimize (_pll_treeinfo ?s) = _ ∧ _ =>
      destruct (init_records (constants := Fixtures.pll_constants)
                  (raxml := Fixtures.raxml_constants)
                  (shape := Fixtures.basic_tree)
                  (pkernel := Fixtures.accepting)
                  (kernel := Fixtures.quiet dzero)
                  Fixtures.four_procs 0 EmptyString Fixtures.options
                  Fixtures.tree4 [pinfo; pinfo]
                  [PartitionRange.mk 0 0 6 true] [] s)
        as (_ & Hflags & _ & _ & _ & Hcb)
  end.
  - vm_compute. reflexivity.
  - split; [exact Hflags|exact Hcb].
Defined.

(** ** The tree-search state of a bootstrap replicate *)

Lemma find_fmap {A} (f : A → bool) (g : A → A) (l : list A) :
  (∀ x, f (g x) = f x) →
  List.find f (g <$> l) = g <$> List.find f l.
Proof.
  intros Hfg. induction l as [|x l IH]; [done|].
  rewrite fmap_cons. cbn [List.find]. rewrite Hfg.
  by destruct (f x).
Qed.

Lemma find_some_elem {A} (f : A → bool) (l : list A) (x : A) :
  List.find f l = Some x → x ∈ l ∧ f x = true.
Proof.
  induction l as [|y l IH]; [done|]. cbn [List.find].
  destruct (f y) eqn:Hy.
  - intros [= <-]. split; [by left|done].
  - intros Hx. destruct (IH Hx). split; [by right|done].
Qed.

Section InitOwned.
Context {constants : PllConstants} {raxml : RaxmlConstants}
        {shape : BasicTree} {pkernel : PartitionKernel}
        {kernel : LikelihoodKernel}.

(** The slot of a partition of which the assignment gives the worker a
    range. *)
Lemma init_owned_slot pc errno errmsg opts tree
    (parted_msa : list PartitionInfo) pa sw (t : TreeInfo)
    (p : nat) pinfo r :
  init pc errno errmsg opts tree parted_msa pa sw = Ok t →
  parted_msa !! p = Some pinfo →
  PartitionAssignment_find pa (Z.of_nat p) = Some r →
  ∃ w partition,
    partition_weights sw pinfo (Z.of_nat p) = Ok w
    ∧ create_pll_partition opts pinfo r w = Ok partition
    ∧ partitions (_pll_treeinfo t) !! p = Some (Some partition).
Proof.
  intros Hinit Hp Hfind. unfold init in Hinit.
  unfold pllmod_treeinfo_create in Hinit.
  destruct (pllmod_treeinfo_create_error _ _ _ _); [done|].
  match type of Hinit with
  | init_partitions _ _ _ _ _ _ ?s = _ => set (t0 := s) in Hinit
  end.
  assert (H0 : length (partitions (_pll_treeinfo t0)) = length parted_msa
               ∧ length (params_to_optimize (_pll_treeinfo t0))
                 = length parted_msa
               ∧ length (alphas (_pll_treeinfo t0)) = length parted_msa).
  { subst t0. unfold before_partitions. cbn [_pll_treeinfo].
    destruct (1 <? num_procs pc); cbn [partitions params_to_optimize alphas];
      rewrite !length_replicate; lia. }
  destruct H0 as (Hlp & Hlf & Hla).
  destruct (init_partitions_slots opts pa sw _ parted_msa 0 t0 t Hinit)
    as [_ Hslots]; [lia..|].
  specialize (Hslots p pinfo Hp). rewrite Nat.add_0_l in Hslots.
  by rewrite Hfind in Hslots.
Qed.

End InitOwned.

(** X10.  The tree-search state that a worker builds for a bootstrap
    replicate after re-balancing holds, for every partition of which the
    load balancer has given it a range of positive length inside the
    compressed partition, a kernel partition with exactly as many sites as
    that range is long in compressed coordinates: given the translated
    assignment and the site weights of the replicate, a successful
    [TreeInfo::init] leaves in the slot of the partition a partition object
    whose site count is the length the load balancer assigned.  (A range of
    length 0 is not covered.) *)
Theorem replicate_treeinfo_sites
    {constants : PllConstants} {raxml : RaxmlConstants}
    {shape : BasicTree} {pkernel : PartitionKernel}
    {kernel : LikelihoodKernel}
    (pc : ParallelContext) (errno : Z) (errmsg : string) (opts : Options)
    (tree : Tree) (parted_msa : list PartitionInfo)
    (psw : list (list Z)) (compressed : PartitionAssignment) (t : TreeInfo) :
  Forall (fun ws => Z.of_nat (length ws) ≤ uint_range) psw →
  init pc errno errmsg opts tree parted_msa
    (translate_range (comp_pos_map <$> psw) <$> compressed) psw = Ok t →
  ∀ (p : nat) (r : PartitionRange.t),
    (p < length parted_msa)%nat →
    PartitionAssignment_find compressed (Z.of_nat p) = Some r →
    valid_compressed psw r →
    ∃ partition,
      partitions (_pll_treeinfo t) !! p = Some (Some partition)
      ∧ sites partition = PartitionRange.length r.
Proof.
  intros Hsize Hinit p r Hp Hfind Hr.
  destruct (lookup_lt_is_Some_2 parted_msa p Hp) as [pinfo Hpinfo].
  assert (Hfind' :
    PartitionAssignment_find
      (translate_range (comp_pos_map <$> psw) <$> compressed) (Z.of_nat p)
    = Some (translate_range (comp_pos_map <$> psw) r)).
  { unfold PartitionAssignment_find in *.
    rewrite (find_fmap (fun r => PartitionRange.part_id r =? Z.of_nat p))
      by done.
    by rewrite Hfind. }
  destruct (init_owned_slot _ _ _ _ _ _ _ _ _ _ _ _ Hinit Hpinfo Hfind')
    as (w & partition & Hw & Hcreate & Hslot).
  exists partition. split; [done|].
  apply find_some_elem in Hfind as [Hin Hid]. apply Z.eqb_eq in Hid.
  pose proof Hr as (_ & ws & Hws & _).
  assert (w = ws) as ->.
  { unfold partition_weights in Hw. rewrite Hid, Nat2Z.id in Hws.
    destruct psw as [|w0 psw']; [done|]. cbn [empty_vec] in Hw.
    rewrite Nat2Z.id, Hws in Hw. by injection Hw. }
  exact (translated_partition_sites opts pinfo psw r ws partition
           Hsize Hr Hws Hcreate).
Qed.

(** A single worker and a replicate that drops the second and the fourth of
    six columns: the partition holds four sites. *)
Lemma replicate_treeinfo_sites_witness :
  let psw := [[1; 0; 2; 0; 1; 1]] in
  let pinfo := {| pinfo_msa := Fixtures.msa4;
                  pinfo_model := Fixtures.dna_model asc_none |} in
  let compressed := [PartitionRange.mk 0 0 4 true] in
  ∃ t partition,
    init (constants := Fixtures.pll_constants) (shape := Fixtures.basic_tree)
      (pkernel := Fixtures.accepting) (kernel := Fixtures.quiet dzero)
      Fixtures.one_proc 0 EmptyString Fixtures.options Fixtures.tree4
      [pinfo] (translate_range (comp_pos_map <$> psw) <$> compressed) psw
    = Ok t
    ∧ partitions (_pll_treeinfo t) !! 0%nat = Some (Some partition)
    ∧ sites partition = 4.
Proof.
  intros psw pinfo compressed. eexists.
  match goal with
  | |- ∃ partition, ?i = Ok ?t ∧ _ =>
      assert (Hinit : i = Ok t) by (vm_compute; reflexivity)
  end.
  destruct (replicate_treeinfo_sites
              (constants := Fixtures.pll_constants)
              (raxml := Fixtures.raxml_constants)
              (shape := Fixtures.basic_tree)
              (pkernel := Fixtures.accepting) (kernel := Fixtures.quiet dzero)
              Fixtures.one_proc 0 EmptyString Fixtures.options Fixtures.tree4
              [pinfo] psw compressed _
              ltac:(repeat constructor; vm_compute; discriminate)
              Hinit 0%nat (PartitionRange.mk 0 0 4 true)
              ltac:(simpl; lia) eq_refl
              ltac:(split; [simpl; lia|];
                    exists [1; 0; 2; 0; 1; 1];
                    split; [reflexivity|simpl; lia]))
    as (partition & Hslot & Hsites).
  exists partition. split; [exact Hinit|]. split; [exact Hslot|exact Hsites].
Defined.

(** ** Reading the parameters back *)

(** X11.  What [TreeInfo::model] stores, [assign] reads back.  After the
    model [m] has been set for a partition that this worker holds, [assign]
    for the same partition succeeds and yields a model that carries the
    alpha of [m] and, when the structure has branch-length scalers, the
    scaler of [m], on top of what is read from the kernel partition that
    the setter has filled from [m]. *)
Theorem assign_reads_back_model
    {kernel : LikelihoodKernel}
    (assign_from_partition : Model → pll_partition_t → Model)
    (partition_id : Z) (m m0 : Model) (t : TreeInfo) (partition : pll_partition_t) :
  0 ≤ partition_id < partition_count (_pll_treeinfo t) →
  partitions (_pll_treeinfo t) !! Z.to_nat partition_id = Some (Some partition) →
  partition_id < Z.of_nat (length (alphas (_pll_treeinfo t))) →
  (∀ scalers, brlen_scalers (_pll_treeinfo t) = Some scalers →
              partition_id < Z.of_nat (length scalers)) →
  let t' := snd (model partition_id m t) in
  let read := set_alpha
                (assign_from_partition m0 (assign_partition partition m))
                (model_alpha m) in
  ∃ m',
    assign_model assign_from_partition m0 t' partition_id = Ok m'
    ∧ m' = match brlen_scalers (_pll_treeinfo t) with
           | Some _ => set_brlen_scaler read (model_brlen_scaler m)
           | None => read
           end
    ∧ model_alpha m' = model_alpha m
    ∧ (brlen_scalers (_pll_treeinfo t) ≠ None →
       model_brlen_scaler m' = model_brlen_scaler m).
Proof.
  intros Hid Hslot Halpha Hscalers t' read. subst t' read.
  unfold model.
  destruct (Z.leb_spec (partition_count (_pll_treeinfo t)) partition_id)
    as [|_]; [lia|].
  assert (Hat : at_ (partitions (_pll_treeinfo t)) partition_id = Some partition)
    by (unfold at_; by apply list_lookup_total_correct).
  rewrite Hat. cbn [snd].
  unfold assign_model. cbn [_pll_treeinfo partition_count partitions alphas
                            brlen_scalers].
  destruct (Z.leb_spec (partition_count (_pll_treeinfo t)) partition_id)
    as [|_]; [lia|].
  assert (Hat' : at_ (<[Z.to_nat partition_id := Some (assign_partition partition m)]>
                        (partitions (_pll_treeinfo t))) partition_id
                 = Some (assign_partition partition m)).
  { unfold at_. apply list_lookup_total_correct, list_lookup_insert_eq.
    by eapply lookup_lt_Some. }
  rewrite Hat'. cbv zeta.
  assert (Ha : at_ (<[Z.to_nat partition_id := model_alpha m]>
                      (alphas (_pll_treeinfo t))) partition_id
               = model_alpha m).
  { unfold at_. apply list_lookup_total_correct, list_lookup_insert_eq. lia. }
  rewrite Ha.
  destruct (brlen_scalers (_pll_treeinfo t)) as [scalers|] eqn:Hs.
  - assert (Hb : at_ (<[Z.to_nat partition_id := model_brlen_scaler m]> scalers)
                   partition_id
                 = model_brlen_scaler m).
    { unfold at_. apply list_lookup_total_correct, list_lookup_insert_eq.
      specialize (Hscalers scalers eq_refl). lia. }
    rewrite Hb. eexists. split; [reflexivity|]. split; [reflexivity|].
    split; [reflexivity|]. by intros _.
  - eexists. split; [reflexivity|]. split; [reflexivity|].
    split; [reflexivity|]. by intros [].
Qed.

(** The first of two partitions, read back into another model. *)
Lemma assign_reads_back_model_witness :
  let t := Fixtures.state2 (Fixtures.quiet dzero) (Fixtures.treeinfo2 0 0) in
  ∃ m',
    assign_model (fun m _ => m) (Fixtures.dna_model asc_none)
      (snd (model 0 Fixtures.model2 t)) 0 = Ok m'
    ∧ model_alpha m' = double_of_Z 2
    ∧ model_brlen_scaler m' = double_of_Z 3.
Proof.
  intros t.
  destruct (assign_reads_back_model (kernel := Fixtures.quiet dzero)
              (fun m _ => m) 0 Fixtures.model2 (Fixtures.dna_model asc_none)
              t Fixtures.partition0) as (m' & Hm' & _ & Ha & Hb).
  - simpl. lia.
  - reflexivity.
  - simpl. lia.
  - intros scalers [= <-]. simpl. lia.
  - exists m'. split; [exact Hm'|]. split; [exact Ha|]. by apply Hb.
Defined.

Section AssignPartitions.
Context {kernel : LikelihoodKernel}.
Variable assign_from_partition : Model → pll_partition_t → Model.

Lemma assign_model_empty_slot (m : Model) (t : TreeInfo) (p : Z) :
  p < partition_count (_pll_treeinfo t) →
  at_ (partitions (_pll_treeinfo t)) p = None →
  assign_model assign_from_partition m t p = Ok m.
Proof.
  intros Hp Hslot. unfold assign_model. rewrite Hslot.
  by destruct (Z.leb_spec (partition_count (_pll_treeinfo t)) p); [lia|].
Qed.

Lemma assign_model_in_range (m : Model) (t : TreeInfo) (p : Z) :
  p < partition_count (_pll_treeinfo t) →
  ∃ m', assign_model assign_from_partition m t p = Ok m'.
Proof.
  intros Hp. unfold assign_model.
  destruct (Z.leb_spec (partition_count (_pll_treeinfo t)) p); [lia|].
  destruct (at_ _ p); by eexists.
Qed.

(** The loop over a list of distinct partitions inside both structures. *)
Lemma assign_partitions_spec (t : TreeInfo) (ps : list Z) :
  NoDup ps →
  ∀ pm : PartitionedMSA,
    (∀ p, p ∈ ps →
          0 ≤ p < part_count pm ∧ p < partition_count (_pll_treeinfo t)) →
    ∃ pm',
      assign_partitions assign_from_partition t ps pm = Ok pm'
      ∧ full_msa pm' = full_msa pm
      ∧ length (part_list pm') = length (part_list pm)
      ∧ ∀ (k : nat) pinfo,
          part_list pm !! k = Some pinfo →
          ∃ pinfo',
            part_list pm' !! k = Some pinfo'
            ∧ pinfo_msa pinfo' = pinfo_msa pinfo
            ∧ if decide (Z.of_nat k ∈ ps)
              then assign_model assign_from_partition (pinfo_model pinfo) t
                     (Z.of_nat k) = Ok (pinfo_model pinfo')
              else pinfo_model pinfo' = pinfo_model pinfo.
Proof.
  induction 1 as [|p ps Hp Hnd IH]; intros pm Hrange.
  - exists pm. split; [done|]. split; [done|]. split; [done|].
    intros k pinfo Hk. exists pinfo. split; [done|]. split; [done|].
    destruct (decide (Z.of_nat k ∈ [])) as [Hin|_]; [|done].
    by apply elem_of_nil in Hin.
  - destruct (Hrange p ltac:(left)) as [Hpm Hpt].
    cbn [assign_partitions].
    destruct (at_ (partitions (_pll_treeinfo t)) p) as [partition|] eqn:Hslot.
    + (* the worker holds the partition *)
      destruct (lookup_lt_is_Some_2 (part_list pm) (Z.to_nat p))
        as [pinfo_p Hpinfo]; [unfold part_count in Hpm; lia|].
      unfold part_model at 1. rewrite Hpinfo. cbn [mbind result_bind].
      destruct (assign_model_in_range (pinfo_model pinfo_p) t p Hpt)
        as [m' Hm']. rewrite Hm'. cbn [mbind result_bind].
      unfold set_part_model at 1. rewrite Hpinfo. cbn [mbind result_bind].
      set (pm1 := {| full_msa := full_msa pm; part_list := _ |}).
      destruct (IH pm1) as (pm' & Hrun & Hfull & Hlen & Hparts).
      { intros q Hq. destruct (Hrange q ltac:(by right)) as [Hq1 Hq2].
        split; [|done]. subst pm1. unfold part_count in *.
        cbn [part_list]. by rewrite length_insert. }
      exists pm'. split; [done|]. split; [done|].
      split; [by rewrite Hlen; subst pm1; cbn [part_list]; rewrite length_insert|].
      intros k pinfo Hk.
      destruct (decide (k = Z.to_nat p)) as [->|Hne].
      * rewrite Hpinfo in Hk. injection Hk as <-.
        destruct (Hparts (Z.to_nat p)
                    {| pinfo_msa := pinfo_msa pinfo_p; pinfo_model := m' |})
          as (pinfo' & Hk' & Hmsa & Hmodel).
        { subst pm1. cbn [part_list]. apply list_lookup_insert_eq.
          by eapply lookup_lt_Some. }
        exists pinfo'. split; [done|]. split; [done|].
        rewrite Z2Nat.id in * by lia.
        destruct (decide (p ∈ ps)) as [|_]; [done|].
        destruct (decide (p ∈ p :: ps)) as [_|Hnin]; [|by destruct Hnin; left].
        cbn [pinfo_model] in Hmodel. by rewrite Hmodel.
      * destruct (Hparts k pinfo) as (pinfo' & Hk' & Hmsa & Hmodel).
        { subst pm1. cbn [part_list]. by rewrite list_lookup_insert_ne. }
        exists pinfo'. split; [done|]. split; [done|].
        destruct (decide (Z.of_nat k ∈ ps)) as [Hin|Hnin].
        -- destruct (decide (Z.of_nat k ∈ p :: ps)) as [_|Hn]; [done|].
           by destruct Hn; right.
        -- destruct (decide (Z.of_nat k ∈ p :: ps)) as [Hin'|_]; [|done].
           apply elem_of_cons in Hin' as [Heq|?]; [lia|done].
    + (* the partition is held elsewhere *)
      destruct (IH pm) as (pm' & Hrun & Hfull & Hlen & Hparts).
      { intros q Hq. apply Hrange. by right. }
      exists pm'. split; [done|]. split; [done|]. split; [done|].
      intros k pinfo Hk.
      destruct (Hparts k pinfo Hk) as (pinfo' & Hk' & Hmsa & Hmodel).
      exists pinfo'. split; [done|]. split; [done|].
      destruct (decide (Z.of_nat k ∈ ps)) as [Hin|Hnin].
      * destruct (decide (Z.of_nat k ∈ p :: ps)) as [_|Hn]; [done|].
        by destruct Hn; right.
      * destruct (decide (Z.of_nat k ∈ p :: ps)) as [Hin'|_]; [|done].
        apply elem_of_cons in Hin' as [Heq|?]; [|done].
        rewrite Heq, Hmodel. by apply assign_model_empty_slot.
Qed.

End AssignPartitions.

(** X12.  [assign] on a partitioned alignment fails in one way only: when
    the alignment and the structure differ in their number of partitions,
    with the error "Incompatible arguments".  Otherwise it succeeds (the
    range check of the inner [assign] cannot fail), keeps the alignment and
    the number of partitions, and leaves every partition with the model that
    the inner [assign] yields for it, which for a partition held by another
    worker is the model it had. *)
Theorem assign_parted_msa_outcome
    {kernel : LikelihoodKernel}
    (assign_from_partition : Model → pll_partition_t → Model)
    (pm : PartitionedMSA) (t : TreeInfo) :
  if decide (part_count pm = partition_count (_pll_treeinfo t)) then
    ∃ pm',
      assign_parted_msa assign_from_partition pm t = Ok pm'
      ∧ full_msa pm' = full_msa pm
      ∧ part_count pm' = part_count pm
      ∧ ∀ (k : nat) pinfo,
          part_list pm !! k = Some pinfo →
          ∃ pinfo',
            part_list pm' !! k = Some pinfo'
            ∧ pinfo_msa pinfo' = pinfo_msa pinfo
            ∧ assign_model assign_from_partition (pinfo_model pinfo) t
                (Z.of_nat k) = Ok (pinfo_model pinfo')
            ∧ (at_ (partitions (_pll_treeinfo t)) (Z.of_nat k) = None →
               pinfo' = pinfo)
  else
    assign_parted_msa assign_from_partition pm t
    = Throw (runtime_error "Incompatible arguments").
Proof.
  unfold assign_parted_msa.
  destruct (decide (part_count pm = partition_count (_pll_treeinfo t)))
    as [Heq|Hne].
  2: { by destruct (Z.eqb_spec (part_count pm)
                      (partition_count (_pll_treeinfo t))). }
  rewrite <- Heq, Z.eqb_refl. cbn [negb].
  destruct (assign_partitions_spec assign_from_partition t
              (seqZ 0 (part_count pm)) (NoDup_seqZ _ _) pm)
    as (pm' & Hrun & Hfull & Hlen & Hparts).
  { intros p Hp. apply elem_of_seqZ in Hp. lia. }
  exists pm'. split; [done|]. split; [done|].
  split; [unfold part_count; by rewrite Hlen|].
  intros k pinfo Hk.
  destruct (Hparts k pinfo Hk) as (pinfo' & Hk' & Hmsa & Hmodel).
  exists pinfo'. split; [done|]. split; [done|].
  destruct (decide (Z.of_nat k ∈ seqZ 0 (part_count pm))) as [_|Hnin].
  2: { destruct Hnin. apply elem_of_seqZ. apply lookup_lt_Some in Hk.
       unfold part_count. lia. }
  split; [done|]. intros Hslot.
  rewrite assign_model_empty_slot in Hmodel.
  - injection Hmodel as Hmodel. destruct pinfo, pinfo'. cbn in *. congruence.
  - apply lookup_lt_Some in Hk. unfold part_count in Heq. lia.
  - done.
Qed.

(** Two partitions, of which the worker holds the first. *)
Lemma assign_parted_msa_outcome_witness :
  let pinfo := {| pinfo_msa := Fixtures.msa4;
                  pinfo_model := Fixtures.dna_model asc_none |} in
  let pm := {| full_msa := Fixtures.msa4; part_list := [pinfo; pinfo] |} in
  let t := Fixtures.state2 (Fixtures.quiet dzero) (Fixtures.treeinfo2 0 0) in
  ∃ pm', assign_parted_msa (fun m _ => m) pm t = Ok pm'
         ∧ part_count pm' = 2.
Proof.
  intros pinfo pm t.
  destruct (assign_parted_msa_outcome (kernel := Fixtures.quiet dzero)
              (fun m _ => m) pm t) as (pm' & Hrun & _ & Hcount & _).
  exists pm'. split; [exact Hrun|exact Hcount].
Defined.

(** ** [check_tree] *)

Section CheckTreeFacts.
Context {kernel : LikelihoodKernel}.

(** The loop over the tips: the labels seen, the two counters and the
    log. *)
Lemma check_tips_spec (msa_labels : gset string) (tips : list (Z * string)) :
  ∀ (seen : gset string) (d m : Z) (log : list tree_error)
    (seen' : gset string) (d' m' : Z) (log' : list tree_error),
    foldl (check_tip msa_labels) (seen, d, m, log) tips = (seen', d', m', log') →
    d ≤ d' ∧ m ≤ m'
    ∧ (d' = d ↔ NoDup tips.*2 ∧ ∀ l, l ∈ tips.*2 → l ∉ seen)
    ∧ (m' = m ↔ ∀ l, l ∈ tips.*2 → l ∈ msa_labels)
    ∧ (∀ l, taxon_not_found_in_alignment l ∈ log'
            ↔ taxon_not_found_in_alignment l ∈ log
              ∨ (l ∈ tips.*2 ∧ l ∉ msa_labels)).
Proof.
  induction tips as [|[i a] tips IH]; intros seen d m log seen' d' m' log' Hrun.
  - injection Hrun as <- <- <- <-. split; [lia|]. split; [lia|].
    split; [|split].
    + split; [|done]. intros _. split; [constructor|].
      intros l Hl. by apply elem_of_nil in Hl.
    + split; [|done]. intros _ l Hl. by apply elem_of_nil in Hl.
    + intros l. split; [by left|]. intros [?|[Hl _]]; [done|].
      by apply elem_of_nil in Hl.
  - cbn [foldl] in Hrun. unfold check_tip at 2 in Hrun. cbn [snd] in Hrun.
    set (d1 := if bool_decide (a ∈ seen) then d + 1 else d).
    set (m1 := if bool_decide (a ∉ msa_labels) then m + 1 else m).
    set (log1 := (if bool_decide (a ∈ seen)
                  then log ++ [taxon_appears_more_than_once a] else log)
                 ++ (if bool_decide (a ∉ msa_labels)
                     then [taxon_not_found_in_alignment a] else [])).
    assert (Hstep :
      (let '(duplicate_taxa, log0) :=
         if bool_decide (a ∈ seen)
         then (d + 1, log ++ [taxon_appears_more_than_once a])
         else (d, log) in
       let '(missing_taxa, log2) :=
         if bool_decide (a ∉ msa_labels)
         then (m + 1, log0 ++ [taxon_not_found_in_alignment a])
         else (m, log0) in
       ({[a]} ∪ seen, duplicate_taxa, missing_taxa, log2))
      = ({[a]} ∪ seen, d1, m1, log1)).
    { subst d1 m1 log1.
      destruct (bool_decide (a ∈ seen)), (bool_decide (a ∉ msa_labels));
        by rewrite ?app_nil_r. }
    rewrite Hstep in Hrun. clear Hstep.
    apply IH in Hrun as (Hd & Hm & Hdup & Hmiss & Hlog).
    rewrite fmap_cons. cbn [snd].
    assert (Hd1 : d ≤ d1 ∧ (d1 = d ↔ a ∉ seen)).
    { subst d1. destruct (bool_decide_reflect (a ∈ seen)); split; try lia.
      - split; [lia|done].
      - done. }
    assert (Hm1 : m ≤ m1 ∧ (m1 = m ↔ a ∈ msa_labels)).
    { subst m1. destruct (bool_decide_reflect (a ∉ msa_labels)) as [Hn|Hn];
        split; try lia.
      - split; [lia|done].
      - split; [|done]. intros _. by apply dec_stable. }
    destruct Hd1 as [Hd1 Hd1'], Hm1 as [Hm1 Hm1'].
    split; [lia|]. split; [lia|]. split; [|split].
    + split.
      * intros Heq. assert (d' = d1 ∧ d1 = d) as [Ha Hb] by lia.
        apply Hdup in Ha as [Hnd Hfresh]. apply Hd1' in Hb.
        split.
        -- constructor; [|done]. intros Hin. apply Hfresh in Hin.
           apply Hin. apply elem_of_union. left. by apply elem_of_singleton.
        -- intros l Hl. apply elem_of_cons in Hl as [->|Hl]; [done|].
           apply Hfresh in Hl. intros Hs. apply Hl, elem_of_union. by right.
      * intros [Hnd Hfresh]. apply NoDup_cons in Hnd as [Hnin Hnd].
        assert (d1 = d) as Hb by (apply Hd1', Hfresh; left).
        assert (d' = d1) as Ha; [|lia].
        apply Hdup. split; [done|]. intros l Hl Hs.
        apply elem_of_union in Hs as [Hs|Hs].
        -- apply elem_of_singleton in Hs as ->. done.
        -- apply (Hfresh l); [by right|done].
    + split.
      * intros Heq. assert (m' = m1 ∧ m1 = m) as [Ha Hb] by lia.
        intros l Hl. apply elem_of_cons in Hl as [->|Hl].
        -- by apply Hm1'.
        -- by apply Hmiss.
      * intros Hall. assert (m1 = m) as Hb by (apply Hm1', Hall; left).
        assert (m' = m1) as Ha; [|lia].
        apply Hmiss. intros l Hl. apply Hall. by right.
    + intros l. rewrite Hlog. subst log1.
      rewrite elem_of_app, elem_of_cons. split.
      * intros [[Hin|Hin]|[Hin Hn]].
        -- left. destruct (bool_decide (a ∈ seen)); [|done].
           apply elem_of_app in Hin as [?|Hin]; [done|].
           by apply list_elem_of_singleton in Hin.
        -- right. destruct (bool_decide_reflect (a ∉ msa_labels)) as [Hn|Hn].
           ++ apply list_elem_of_singleton in Hin. injection Hin as ->.
              split; [by left|done].
           ++ by apply elem_of_nil in Hin.
        -- right. split; [by right|done].
      * intros [Hin|[[->|Hin] Hn]].
        -- left. left. destruct (bool_decide (a ∈ seen)); [|done].
           apply elem_of_app. by left.
        -- left. right. rewrite bool_decide_eq_true_2 by done.
           by apply list_elem_of_singleton.
        -- right. done.
Qed.

End CheckTreeFacts.

(** X13.  [check_tree] accepts a tree exactly when the tree has as many
    tips as the alignment has taxa, no label occurs on two tips, every label
    is the name of a taxon of the alignment, and no branch has a length
    below zero (a length that is not a number passes).  A tree that is
    accepted therefore carries exactly the taxa of the alignment, each of
    them once.  Every label that the alignment does not know is written to
    the error log. *)
Theorem check_tree_outcome
    {kernel : LikelihoodKernel}
    (tip_labels : Tree → list (Z * string))
    (topology : Tree → list TreeBranch.t)
    (taxon_names : PartitionedMSA → list string)
    (msa : PartitionedMSA) (tree : Tree) :
  let run := check_tree tip_labels topology taxon_names msa tree in
  let labels := (tip_labels tree).*2 in
  (snd run = Ok ()
   ↔ taxon_count msa = num_tips tree
     ∧ NoDup labels
     ∧ (∀ l, l ∈ labels → l ∈ taxon_names msa)
     ∧ Forall (fun branch => dltb (TreeBranch.length branch) dzero = false)
         (topology tree))
  ∧ (Z.of_nat (length (tip_labels tree)) = num_tips tree →
     Z.of_nat (length (taxon_names msa)) = taxon_count msa →
     snd run = Ok () →
     labels ≡ₚ taxon_names msa)
  ∧ (∀ l, taxon_not_found_in_alignment l ∈ fst run
          ↔ taxon_count msa = num_tips tree
            ∧ l ∈ labels ∧ l ∉ taxon_names msa).
Proof.
  intros run labels.
  assert (Hrun :
    (snd run = Ok ()
     ↔ taxon_count msa = num_tips tree
       ∧ NoDup labels
       ∧ (∀ l, l ∈ labels → l ∈ taxon_names msa)
       ∧ Forall (fun branch => dltb (TreeBranch.length branch) dzero = false)
           (topology tree))
    ∧ (∀ l, taxon_not_found_in_alignment l ∈ fst run
            ↔ taxon_count msa = num_tips tree
              ∧ l ∈ labels ∧ l ∉ taxon_names msa)).
  { subst run. unfold check_tree.
    destruct (Z.ltb_spec (num_tips tree) (taxon_count msa)) as [Hlt|Hge].
    { cbn [fst snd]. split.
      - split; [done|]. intros [? _]. lia.
      - intros l. split; [intros Hl; by apply elem_of_nil in Hl|].
        intros [? _]. lia. }
    destruct (Z.eqb_spec (taxon_count msa) (num_tips tree)) as [Heq|Hne];
      cbn [negb].
    2: { cbn [fst snd]. split.
         - split; [done|]. by intros [? _].
         - intros l. split; [intros Hl; by apply elem_of_nil in Hl|].
           by intros [? _]. }
    destruct (foldl _ _ (tip_labels tree)) as [[[seen' d'] m'] log'] eqn:Hloop.
    apply check_tips_spec in Hloop as (Hd & Hm & Hdup & Hmiss & Hlog).
    fold labels in Hdup, Hmiss, Hlog.
    assert (Hnames : ∀ l, l ∈ (list_to_set (taxon_names msa) : gset string)
                          ↔ l ∈ taxon_names msa)
      by (intros l; apply elem_of_list_to_set).
    assert (Hlogs : ∀ l, taxon_not_found_in_alignment l ∈ log'
                         ↔ taxon_count msa = num_tips tree
                           ∧ l ∈ labels ∧ l ∉ taxon_names msa).
    { intros l. rewrite Hlog, Hnames. split.
      - intros [Hin|[? ?]]; [by apply elem_of_nil in Hin|done].
      - intros (_ & ? & ?). by right. }
    assert (Hdup0 : d' = 0 ↔ NoDup labels).
    { rewrite Hdup. split; [by intros [? _]|].
      intros Hnd. split; [done|]. intros l _. apply not_elem_of_empty. }
    assert (Hmiss0 : m' = 0 ↔ ∀ l, l ∈ labels → l ∈ taxon_names msa).
    { rewrite Hmiss. split; intros Hall l Hl; apply Hnames, Hall, Hl. }
    destruct (Z.ltb_spec 0 d') as [Hdpos|Hdz].
    { cbn [fst snd]. split; [|done]. split; [done|].
      intros (_ & Hnd & _). apply Hdup0 in Hnd. lia. }
    destruct (Z.ltb_spec 0 m') as [Hmpos|Hmz].
    { cbn [fst snd]. split; [|done]. split; [done|].
      intros (_ & _ & Hall & _). apply Hmiss0 in Hall. lia. }
    destruct (existsb _ (topology tree)) eqn:Hneg; cbn [fst snd].
    - split; [|done]. split; [done|]. intros (_ & _ & _ & Hall).
      apply existsb_exists in Hneg as (b & Hb & Hlt).
      rewrite Forall_forall in Hall.
      rewrite (Hall b) in Hlt; [done|]. by apply list_elem_of_In.
    - split; [|done]. split; [|done]. intros _.
      split; [done|]. split; [apply Hdup0; lia|].
      split; [apply Hmiss0; lia|].
      apply Forall_forall. intros b Hb.
      destruct (dltb (TreeBranch.length b) dzero) eqn:Hlt; [|done].
      assert (existsb (fun branch => dltb (TreeBranch.length branch) dzero)
                (topology tree) = true); [|congruence].
      apply existsb_exists. exists b. split; [by apply list_elem_of_In|done]. }
  destruct Hrun as [Hok Hlog]. split; [done|]. split; [|done].
  intros Htips Hnames Hsucc. apply Hok in Hsucc as (Hcount & Hnd & Hall & _).
  apply submseteq_length_Permutation.
  - by apply NoDup_submseteq.
  - subst labels. rewrite length_fmap. lia.
Qed.

(** A tree over the four taxa of the alignment. *)
Lemma check_tree_outcome_witness :
  ["t1"; "t2"; "t3"; "t4"]%string ≡ₚ labels Fixtures.msa4.
Proof.
  exact (proj1 (proj2
           (check_tree_outcome (kernel := Fixtures.quiet dzero)
              (fun _ => [(0, "t1"); (1, "t2"); (2, "t3"); (3, "t4")]%string)
              (fun _ => [])
              (fun pm => labels (full_msa pm))
              (parted_msa (Fixtures.instance4 Fixtures.options))
              Fixtures.tree4))
           eq_refl eq_refl eq_refl).
Defined.

(** ** [generate_bootstraps] *)

Section GenerateBootstrapsFacts.
Variable command : Options → Command.t.
Variable num_bootstraps : Options → Z.
Context {Checkpoint : Type}.
Variable bs_trees_size : Checkpoint → Z.
Context {rng : Type}.
Variable rand : rng → Z * rng.
Context {BootstrapGenerator : Type}.
Variable generate :
  BootstrapGenerator → PartitionedMSA → Z
  → BootstrapReplicate * BootstrapGenerator.

(** The loop from replicate [a] on, over [n] replicates. *)
Lemma generate_bootstrap_loop (checkp : Checkpoint)
    (replicate_of : PartitionedMSA → Z → BootstrapReplicate) :
  (∀ bg pm seed, (generate bg pm seed).1 = replicate_of pm seed) →
  ∀ (n : nat) (a : Z) (instance : RaxmlInstance) (bg : BootstrapGenerator)
    (g : rng),
    let run := foldl (Main.generate_bootstrap bs_trees_size rand generate checkp)
                 (instance, bg, g) (seqZ a (Z.of_nat n)) in
    bs_reps run.1.1
    = bs_reps instance
      ++ (replicate_of (parted_msa instance)
            <$> drop (Z.to_nat (bs_trees_size checkp - a)) (rand_seeds rand n g))
    ∧ opts run.1.1 = opts instance
    ∧ parted_msa run.1.1 = parted_msa instance
    ∧ proc_part_assign run.1.1 = proc_part_assign instance
    ∧ run.2 = rand_after rand n g.
Proof.
  intros Hgen n. induction n as [|n IH]; intros a instance bg g.
  - cbn. by rewrite drop_nil, app_nil_r.
  - replace (Z.of_nat (S n)) with (Z.succ (Z.of_nat n)) by lia.
    rewrite seqZ_cons by lia. cbn [foldl].
    replace (Z.pred (Z.succ (Z.of_nat n))) with (Z.of_nat n) by lia.
    assert (Hstep :
      Main.generate_bootstrap bs_trees_size rand generate checkp
        (instance, bg, g) a
      = if a <? bs_trees_size checkp then (instance, bg, (rand g).2)
        else (emplace_bs_rep instance
                (replicate_of (parted_msa instance) (rand g).1),
              (generate bg (parted_msa instance) (rand g).1).2,
              (rand g).2)).
    { unfold Main.generate_bootstrap. destruct (rand g) as [seed g1].
      cbn [fst snd]. destruct (a <? bs_trees_size checkp); [done|].
      specialize (Hgen bg (parted_msa instance) seed).
      destruct (generate bg (parted_msa instance) seed) as [rep bg1].
      cbn [fst snd] in *. by subst rep. }
    rewrite Hstep. clear Hstep. cbn [rand_seeds rand_after].
    destruct (Z.ltb_spec a (bs_trees_size checkp)) as [Hskip|Hnew].
    + (* saved by the earlier run: the seed is drawn and dropped *)
      specialize (IH (Z.succ a) instance bg (rand g).2).
      cbv zeta in IH. destruct IH as (Hreps & Ho & Hpm & Hpa & Hg).
      split; [|by split_and!]. rewrite Hreps. do 2 f_equal.
      replace (Z.to_nat (bs_trees_size checkp - a))
        with (S (Z.to_nat (bs_trees_size checkp - Z.succ a))) by lia.
      done.
    + specialize (IH (Z.succ a)
                    (emplace_bs_rep instance
                       (replicate_of (parted_msa instance) (rand g).1))
                    (generate bg (parted_msa instance) (rand g).1).2
                    (rand g).2).
      cbv zeta in IH. destruct IH as (Hreps & Ho & Hpm & Hpa & Hg).
      split; [|by split_and!]. rewrite Hreps.
      cbn [emplace_bs_rep bs_reps parted_msa].
      rewrite <- app_assoc. f_equal.
      replace (Z.to_nat (bs_trees_size checkp - Z.succ a)) with 0%nat by lia.
      replace (Z.to_nat (bs_trees_size checkp - a)) with 0%nat by lia.
      done.
Qed.

End GenerateBootstrapsFacts.

(** X14.  [generate_bootstraps] draws a seed for every replicate, also for
    the replicates that an earlier run has saved in the checkpoint, so a run
    that resumes generates the replicates that the uninterrupted run would
    have generated from the same state of [rand]: with a generator whose
    replicates depend on the alignment and the seed only, the replicates
    added are those of the seeds [k], [k + 1], ... of the sequence, [k] being
    the number of saved trees, and the state of [rand] afterwards does not
    depend on [k].  Under a command without bootstrapping nothing is
    generated and no number is drawn. *)
Theorem generate_bootstraps_resumed
    (command : Options → Command.t) (num_bootstraps : Options → Z)
    (Checkpoint : Type) (bs_trees_size : Checkpoint → Z)
    (rng : Type) (rand : rng → Z * rng)
    (BootstrapGenerator : Type) (bg : BootstrapGenerator)
    (generate : BootstrapGenerator → PartitionedMSA → Z
                → BootstrapReplicate * BootstrapGenerator)
    (replicate_of : PartitionedMSA → Z → BootstrapReplicate)
    (instance : RaxmlInstance) (checkp : Checkpoint) (g : rng) :
  (∀ bg pm seed, (generate bg pm seed).1 = replicate_of pm seed) →
  let run := Main.generate_bootstraps command num_bootstraps bs_trees_size
               rand bg generate instance checkp g in
  let n := Z.to_nat (num_bootstraps (opts instance)) in
  let k := Z.to_nat (bs_trees_size checkp) in
  if bool_decide (command (opts instance) = Command.bootstrap
                  ∨ command (opts instance) = Command.all)
  then
    bs_reps run.1
    = bs_reps instance
      ++ (replicate_of (parted_msa instance) <$> drop k (rand_seeds rand n g))
    ∧ opts run.1 = opts instance
    ∧ parted_msa run.1 = parted_msa instance
    ∧ run.2 = rand_after rand n g
  else run = (instance, g).
Proof.
  intros Hgen run n k. subst run. unfold Main.generate_bootstraps.
  destruct (bool_decide_reflect (command (opts instance) = Command.bootstrap))
    as [Hb|Hb]; cbn [orb].
  - rewrite bool_decide_eq_true_2 by (by left).
    pose proof (generate_bootstrap_loop bs_trees_size rand generate checkp
                  replicate_of Hgen n 0 instance bg g) as Hloop.
    cbv zeta in Hloop. rewrite Z.sub_0_r in Hloop.
    assert (Hseq : seqZ 0 (num_bootstraps (opts instance))
                   = seqZ 0 (Z.of_nat n)).
    { subst n. destruct (Z.le_gt_cases 0 (num_bootstraps (opts instance))).
      - by rewrite Z2Nat.id.
      - rewrite !seqZ_nil by lia. done. }
    rewrite Hseq.
    destruct (foldl _ _ (seqZ 0 (Z.of_nat n))) as [[i' bg'] g'].
    cbn [fst snd] in *. destruct Hloop as (? & ? & ? & _ & ?). done.
  - destruct (bool_decide_reflect (command (opts instance) = Command.all))
      as [Ha|Ha].
    + rewrite bool_decide_eq_true_2 by (by right).
      pose proof (generate_bootstrap_loop bs_trees_size rand generate checkp
                    replicate_of Hgen n 0 instance bg g) as Hloop.
      cbv zeta in Hloop. rewrite Z.sub_0_r in Hloop.
      assert (Hseq : seqZ 0 (num_bootstraps (opts instance))
                     = seqZ 0 (Z.of_nat n)).
      { subst n. destruct (Z.le_gt_cases 0 (num_bootstraps (opts instance))).
        - by rewrite Z2Nat.id.
        - rewrite !seqZ_nil by lia. done. }
      rewrite Hseq.
      destruct (foldl _ _ (seqZ 0 (Z.of_nat n))) as [[i' bg'] g'].
      cbn [fst snd] in *. destruct Hloop as (? & ? & ? & _ & ?). done.
    + rewrite bool_decide_eq_false_2 by (by intros [?|?]). done.
Qed.

(** Three replicates of which the first is saved; [rand] counts upwards and
    a replicate records its seed. *)
Lemma generate_bootstraps_resumed_witness :
  let rand := fun g : Z => (g, g + 1) in
  let replicate_of :=
    fun (_ : PartitionedMSA) seed => {| site_weights := [[seed]] |} in
  bs_reps
    (Main.generate_bootstraps (fun _ => Command.bootstrap) (fun _ => 3)
       (fun k : Z => k) rand tt (fun bg pm seed => (replicate_of pm seed, bg))
       (Fixtures.instance4 Fixtures.options) 1 10).1
  = [{| site_weights := [[11]] |}; {| site_weights := [[12]] |}].
Proof.
  intros rand replicate_of.
  exact (proj1 (generate_bootstraps_resumed
                  (fun _ => Command.bootstrap) (fun _ => 3) Z (fun k : Z => k)
                  Z rand unit tt
                  (fun bg pm seed => (replicate_of pm seed, bg)) replicate_of
                  (Fixtures.instance4 Fixtures.options) 1 10
                  (fun _ _ _ => eq_refl))).
Defined.

(** ** [check_models] *)

Section CheckModelsFacts.
Context {constants : PllConstants}.
Context {ParamValue : Type} {ParamValue_eq_dec : EqDecision ParamValue}.
Variable ParamValue_model : ParamValue.
Variable ParamValue_empirical : ParamValue.
Variable name : PartitionInfo → string.
Variable emp_base_freqs : PartitionInfo → list double.
Variable inv_count : PartitionInfo → Z.
Variable model_name : Model → string.
Variable param_mode : Model → Z → ParamValue.
Variable to_string : Model → bool → string.

Lemma zero_frequency_none (freqs : list double) :
  Main.zero_frequency freqs = None
  ↔ Forall (fun f => dltb dzero f = true) freqs.
Proof.
  unfold Main.zero_frequency. rewrite fmap_None, list_find_None.
  apply Forall_proper; [|done]. intros f. by destruct (dltb dzero f).
Qed.

Lemma check_model_ok (pinfo : PartitionInfo) :
  Main.check_model ParamValue_model ParamValue_empirical name emp_base_freqs
    inv_count model_name param_mode to_string pinfo = Ok ()
  ↔ acceptable_partition ParamValue_model ParamValue_empirical emp_base_freqs
      inv_count model_name param_mode pinfo.
Proof.
  unfold Main.check_model, acceptable_partition. cbv zeta.
  set (mode := param_mode (pinfo_model pinfo) PLLMOD_OPT_PARAM_FREQUENCIES).
  (* the LG4 models *)
  destruct ((bool_decide (model_name (pinfo_model pinfo) = "LG4X")
             || bool_decide (model_name (pinfo_model pinfo) = "LG4M"))
            && bool_decide (mode ≠ ParamValue_model)) eqn:Hc1;
    cbn [mbind result_bind].
  { split; [done|]. intros (Hlg & _).
    apply andb_true_iff in Hc1 as [Ho Hn]. apply orb_true_iff in Ho.
    rewrite !bool_decide_eq_true in Ho. rewrite bool_decide_eq_true in Hn.
    destruct Hn. by apply Hlg. }
  assert (Hlg : model_name (pinfo_model pinfo) = "LG4X"
                ∨ model_name (pinfo_model pinfo) = "LG4M" →
                mode = ParamValue_model).
  { intros Ho. apply andb_false_iff in Hc1 as [Hc|Hc].
    - apply orb_false_iff in Hc as [Hx Hm].
      rewrite bool_decide_eq_false in Hx. rewrite bool_decide_eq_false in Hm.
      tauto.
    - apply bool_decide_eq_false in Hc. by apply dec_stable. }
  (* the empirical frequencies *)
  set (freqs_ok := mode = ParamValue_empirical →
                   Forall (fun f => dltb dzero f = true) (emp_base_freqs pinfo)).
  assert (Hfreqs :
    match (if bool_decide (mode = ParamValue_empirical)
           then match Main.zero_frequency (emp_base_freqs pinfo) with
                | Some i =>
                    Throw (runtime_error
                             ("Frequency of state " +:+ pretty i +:+
                              " in partition " +:+ name pinfo +:+ " is 0!"
                              +:+ nl +:+
                              "Please either change your partitioning scheme or "
                              +:+
                              "use model state frequencies for this partition!"))
                | None => Ok ()
                end
           else Ok ()) with
    | Ok _ => freqs_ok
    | Throw _ => ¬ freqs_ok
    end).
  { subst freqs_ok.
    destruct (bool_decide_reflect (mode = ParamValue_empirical)) as [He|He];
      [|done].
    destruct (Main.zero_frequency (emp_base_freqs pinfo)) as [i|] eqn:Hz.
    - intros Hf. apply Hf, zero_frequency_none in He. congruence.
    - intros _. by apply zero_frequency_none. }
  destruct (if bool_decide (mode = ParamValue_empirical) then _ else _)
    as [[]|e]; cbn [mbind result_bind].
  2: { split; [done|]. intros (_ & Hf & _). by destruct Hfreqs. }
  (* invariant sites under an ascertainment-bias correction *)
  destruct (bool_decide_reflect (ascbias_type (pinfo_model pinfo) ≠ asc_none))
    as [Hasc|Hasc];
    destruct (Z.ltb_spec 0 (inv_count pinfo)) as [Hinv|Hinv]; cbn [andb].
  - split; [done|]. intros (_ & _ & Hi). specialize (Hi Hasc). lia.
  - split; [|done]. intros _. split; [done|]. split; [done|]. by intros _.
  - split; [|done]. intros _. split; [done|]. split; [done|]. by intros ?.
  - split; [|done]. intros _. split; [done|]. split; [done|]. by intros ?.
Qed.

Lemma check_partitions_ok (parts : list PartitionInfo) :
  Main.check_partitions ParamValue_model ParamValue_empirical name
    emp_base_freqs inv_count model_name param_mode to_string parts = Ok ()
  ↔ Forall (acceptable_partition ParamValue_model ParamValue_empirical
              emp_base_freqs inv_count model_name param_mode) parts.
Proof.
  induction parts as [|pinfo parts IH]; [by split; [constructor|]|].
  cbn [Main.check_partitions]. rewrite Forall_cons, <- IH, <- check_model_ok.
  destruct (Main.check_model _ _ _ _ _ _ _ _ pinfo) as [[]|e];
    cbn [mbind result_bind]; [tauto|].
  split; [done|]. by intros [? _].
Qed.

Lemma check_partitions_throw (parts : list PartitionInfo) (e : exn) :
  Main.check_partitions ParamValue_model ParamValue_empirical name
    emp_base_freqs inv_count model_name param_mode to_string parts = Throw e →
  ∃ (k : nat) pinfo,
    parts !! k = Some pinfo
    ∧ Forall (acceptable_partition ParamValue_model ParamValue_empirical
                emp_base_freqs inv_count model_name param_mode) (take k parts)
    ∧ Main.check_model ParamValue_model ParamValue_empirical name
        emp_base_freqs inv_count model_name param_mode to_string pinfo
      = Throw e.
Proof.
  induction parts as [|pinfo parts IH]; [done|].
  cbn [Main.check_partitions].
  destruct (Main.check_model _ _ _ _ _ _ _ _ pinfo) as [[]|e'] eqn:Hc;
    cbn [mbind result_bind].
  - intros Hrun. destruct (IH Hrun) as (k & pk & Hk & Hbefore & Hthrow).
    exists (S k), pk. split; [done|]. split; [|done].
    cbn [take]. constructor; [by apply check_model_ok|done].
  - intros [= ->]. exists 0%nat, pinfo. split; [done|]. split; [|done].
    constructor.
Qed.

End CheckModelsFacts.

(** X15.  [check_models] lets an instance pass exactly when every
    partition is acceptable: a partition under LG4M or LG4X keeps the
    frequencies of the model; empirical frequencies are all greater than
    zero (a frequency that is not a number is refused as well); and a
    partition with an ascertainment-bias correction has no invariant site.
    When it fails, the error is the one of the first partition that is not
    acceptable. *)
Theorem check_models_outcome
    {constants : PllConstants}
    {ParamValue : Type} {ParamValue_eq_dec : EqDecision ParamValue}
    (ParamValue_model ParamValue_empirical : ParamValue)
    (name : PartitionInfo → string)
    (emp_base_freqs : PartitionInfo → list double)
    (inv_count : PartitionInfo → Z)
    (model_name : Model → string)
    (param_mode : Model → Z → ParamValue)
    (to_string : Model → bool → string)
    (instance : RaxmlInstance) :
  let acceptable :=
    acceptable_partition ParamValue_model ParamValue_empirical emp_base_freqs
      inv_count model_name param_mode in
  let check_model :=
    Main.check_model ParamValue_model ParamValue_empirical name emp_base_freqs
      inv_count model_name param_mode to_string in
  let run :=
    Main.check_models ParamValue_model ParamValue_empirical name emp_base_freqs
      inv_count model_name param_mode to_string instance in
  (run = Ok () ↔ Forall acceptable (part_list (parted_msa instance)))
  ∧ (∀ e, run = Throw e →
       ∃ (k : nat) pinfo,
         part_list (parted_msa instance) !! k = Some pinfo
         ∧ Forall acceptable (take k (part_list (parted_msa instance)))
         ∧ ¬ acceptable pinfo
         ∧ check_model pinfo = Throw e).
Proof.
  intros acceptable check_model run. subst run. unfold Main.check_models.
  split; [apply check_partitions_ok|].
  intros e Hrun.
  destruct (check_partitions_throw _ _ _ _ _ _ _ _ _ _ Hrun)
    as (k & pinfo & Hk & Hbefore & Hthrow).
  exists k, pinfo. split; [done|]. split; [done|]. split; [|done].
  intros Hacc. subst check_model.
  apply (check_model_ok _ _ name _ _ _ _ to_string) in Hacc.
  rewrite Hacc in Hthrow. discriminate.
Qed.

(** A partition under LG4X with empirical frequencies is refused. *)
Lemma check_models_outcome_witness :
  let pinfo := {| pinfo_msa := Fixtures.msa4;
                  pinfo_model := Fixtures.protein_model |} in
  let i := {| opts := Fixtures.options;
              parted_msa := {| full_msa := Fixtures.msa4;
                               part_list := [pinfo] |};
              bs_reps := []; proc_part_assign := [] |} in
  Main.check_models (constants := Fixtures.pll_constants)
    false true (fun _ => "p1"%string) (fun _ => [d0_25; d0_25])
    (fun _ => 0) (fun _ => "LG4X"%string) (fun _ _ => true)
    (fun _ _ => "LG4X+FC"%string) i
  ≠ Ok ().
Proof.
  intros pinfo i Hok.
  apply (proj1 (check_models_outcome (constants := Fixtures.pll_constants)
                  false true (fun _ => "p1"%string) (fun _ => [d0_25; d0_25])
                  (fun _ => 0) (fun _ => "LG4X"%string) (fun _ _ => true)
                  (fun _ _ => "LG4X+FC"%string) i)) in Hok.
  apply Forall_cons in Hok as [(Hlg & _) _].
  specialize (Hlg (or_introl eq_refl)). discriminate Hlg.
Defined.

(** ** [check_msa] and [load_msa] *)

Section CheckMsaFacts.
Context {raxml : RaxmlConstants} {collaborators : Collaborators}.

(** [check_msa], run step by step. *)
Lemma check_msa_run (d : driver) :
  let i := instance d in
  let msa := full_msa (parted_msa i) in
  let n := taxon_count (parted_msa i) in
  let gaps := check_msa_gaps i in
  let enable := (RAXML_RATESCALERS_TAXA <? n)
                && negb (use_rate_scalers (opts gaps)) in
  check_msa d
  = if n <? 4 then
      (Throw (runtime_error "Your alignment contains less than 4 sequences!"), d)
    else
      match pllmod_msa_compute_stats msa with
      | Throw e => (Throw e, d)
      | Ok stats =>
          if 0 <? dup_taxa_pairs_count stats then
            (Throw (runtime_error "Please fix your alignment!"),
             {| instance := i;
                log := log d
                       ++ [error_duplicate_names (dup_taxa_pairs_count stats)] |})
          else
            (Ok (),
             {| instance :=
                  if enable
                  then set_opts gaps (enable_rate_scalers (opts gaps))
                  else gaps;
                log := (log d
                        ++ (if 0 <? dup_seqs_pairs_count stats
                            then [warning_duplicate_sequences
                                    (dup_seqs_pairs_count stats)]
                            else []))
                       ++ (if enable then [note_rate_scalers_enabled]
                           else []) |})
      end.
Proof.
  cbv zeta. unfold check_msa.
  rewrite D_bind_unfold. cbn [get_instance]. rewrite D_bind_unfold.
  destruct (taxon_count (parted_msa (instance d)) <? 4); [done|].
  cbn [when mret D_ret]. rewrite D_bind_unfold. unfold lift at 1.
  destruct (pllmod_msa_compute_stats _) as [stats|e]; [|done].
  rewrite D_bind_unfold.
  destruct (0 <? dup_taxa_pairs_count stats); [done|].
  cbn [when mret D_ret]. rewrite D_bind_unfold.
  destruct (0 <? dup_seqs_pairs_count stats);
    cbn [when emit mret D_ret]; rewrite D_bind_unfold;
    cbn [put_instance instance log]; rewrite D_bind_unfold;
    cbn [get_instance instance];
    destruct ((RAXML_RATESCALERS_TAXA <? _) && _);
    cbn [when mret D_ret]; rewrite ?D_bind_unfold;
    cbn [emit put_instance instance log];
    by rewrite ?app_nil_r.
Qed.

End CheckMsaFacts.

(** X16.  [check_msa], outcome by outcome.  It fails in three ways only,
    and then leaves the instance as it found it: fewer than four sequences;
    the kernel failing to compute the statistics, whose error is handed on;
    and duplicate sequence names, which are written to the error log.
    Duplicate sequences are reported as a warning and never make it fail.
    When it succeeds, the instance is the one the search for gap-only columns
    and sequences yields, with per-rate scalers switched on (and a note
    logged) when the alignment has more taxa than the threshold and they
    were off. *)
Theorem check_msa_outcome
    {raxml : RaxmlConstants} {collaborators : Collaborators} (d : driver) :
  let i := instance d in
  let msa := full_msa (parted_msa i) in
  let n := taxon_count (parted_msa i) in
  let gaps := check_msa_gaps i in
  let enable := (RAXML_RATESCALERS_TAXA <? n)
                && negb (use_rate_scalers (opts gaps)) in
  match check_msa d with
  | (Ok _, d') =>
      4 ≤ n
      ∧ ∃ stats,
          pllmod_msa_compute_stats msa = Ok stats
          ∧ dup_taxa_pairs_count stats ≤ 0
          ∧ instance d'
            = (if enable then set_opts gaps (enable_rate_scalers (opts gaps))
               else gaps)
          ∧ (RAXML_RATESCALERS_TAXA < n →
             use_rate_scalers (opts (instance d')) = true)
          ∧ log d'
            = log d
              ++ (if 0 <? dup_seqs_pairs_count stats
                  then [warning_duplicate_sequences (dup_seqs_pairs_count stats)]
                  else [])
              ++ (if enable then [note_rate_scalers_enabled] else [])
  | (Throw e, d') =>
      instance d' = instance d
      ∧ ((n < 4
          ∧ e = runtime_error "Your alignment contains less than 4 sequences!"
          ∧ log d' = log d)
         ∨ (4 ≤ n ∧ pllmod_msa_compute_stats msa = Throw e ∧ log d' = log d)
         ∨ (4 ≤ n
            ∧ ∃ stats,
                pllmod_msa_compute_stats msa = Ok stats
                ∧ 0 < dup_taxa_pairs_count stats
                ∧ e = runtime_error "Please fix your alignment!"
                ∧ log d'
                  = log d
                    ++ [error_duplicate_names (dup_taxa_pairs_count stats)]))
  end.
Proof.
  intros i msa n gaps enable.
  pose proof (check_msa_run d) as Hrun. cbv zeta in Hrun.
  fold i msa n gaps enable in Hrun. fold msa in Hrun. rewrite Hrun. clear Hrun.
  destruct (Z.ltb_spec n 4) as [Hlt|Hge].
  { split; [done|]. left. done. }
  destruct (pllmod_msa_compute_stats msa) as [stats|e] eqn:Hstats.
  2: { split; [done|]. right. left. done. }
  destruct (Z.ltb_spec 0 (dup_taxa_pairs_count stats)) as [Hdup|Hnodup].
  { split; [done|]. right. right. split; [done|]. by exists stats. }
  split; [done|]. exists stats. split; [done|]. split; [done|].
  cbn [instance log]. split; [done|]. split; [|by rewrite <- app_assoc].
  intros Hrich. subst enable.
  destruct (Z.ltb_spec RAXML_RATESCALERS_TAXA n) as [_|]; [|lia].
  cbn [andb]. by destruct (use_rate_scalers (opts gaps)) eqn:Hrs.
Qed.

(** The alignment of four taxa passes and leaves the log empty. *)
Lemma check_msa_outcome_witness :
  let d := {| instance := Fixtures.instance4 Fixtures.options; log := [] |} in
  match check_msa (raxml := Fixtures.raxml_constants)
          (collaborators := Fixtures.single_worker Fixtures.msa4 6) d with
  | (Ok _, d') => log d' = []
  | (Throw _, _) => False
  end.
Proof.
  intros d.
  pose proof (check_msa_outcome (raxml := Fixtures.raxml_constants)
                (collaborators := Fixtures.single_worker Fixtures.msa4 6) d)
    as Hrun.
  cbv zeta in Hrun.
  destruct (check_msa d) as [[[]|e] d'] eqn:Hc.
  - destruct Hrun as (_ & stats & Hstats & _ & _ & _ & Hlog).
    injection Hstats as <-. exact Hlog.
  - vm_compute in Hc. discriminate Hc.
Defined.

Section LoadMsaFacts.
Context {raxml : RaxmlConstants} {collaborators : Collaborators}.

(** A successful [check_msa] changes no option but the per-rate scalers,
    when the search for gaps changes none. *)
Lemma check_msa_options (d d' : driver) :
  (∀ i, opts (check_msa_gaps i) = opts i) →
  check_msa d = (Ok (), d') →
  opts (instance d') = opts (instance d)
  ∨ opts (instance d') = enable_rate_scalers (opts (instance d)).
Proof.
  intros Hgaps. rewrite check_msa_run. cbv zeta.
  destruct (_ <? 4); [done|].
  destruct (pllmod_msa_compute_stats _) as [stats|e]; [|done].
  destruct (0 <? dup_taxa_pairs_count stats); [done|].
  intros [= <-]. cbn [instance].
  destruct (_ && _); [right|left]; cbn [set_opts opts]; by rewrite Hgaps.
Qed.

(** [load_msa] up to the validation of the alignment. *)
Lemma load_msa_options (d d' : driver) :
  (∀ i, opts (check_msa_gaps i) = opts i) →
  load_msa d = (Ok (), d') →
  ∃ msa base,
    msa_load_from_file (opts (instance d)) = Ok msa
    ∧ (opts (instance d') = base
       ∨ opts (instance d') = enable_rate_scalers base)
    ∧ force_mode base = force_mode (opts (instance d))
    ∧ use_prob_msa base
      = probabilistic msa && use_prob_msa (opts (instance d))
    ∧ if probabilistic msa && use_prob_msa (opts (instance d))
      then use_tip_inner base = false
           ∧ use_pattern_compression base = false
           ∧ Z.of_nat (length (part_list (parted_msa (instance d)))) ≤ 1
      else use_tip_inner base = use_tip_inner (opts (instance d))
           ∧ use_pattern_compression base
             = use_pattern_compression (opts (instance d)).
Proof.
  intros Hgaps. unfold load_msa.
  rewrite D_bind_unfold. cbn [get_instance]. rewrite D_bind_unfold.
  unfold lift at 1.
  destruct (msa_load_from_file (opts (instance d))) as [msa|e]; [|done].
  rewrite D_bind_unfold.
  set (prob := probabilistic msa && use_prob_msa (opts (instance d))).
  set (o1 := {| simd_arch := _; use_tip_inner := false |}).
  set (o2 := {| simd_arch := _; use_prob_msa := false |}).
  set (base := if prob then o1 else o2).
  assert (Hstep :
    (if prob then
       _ ← put_instance (set_opts (instance d) o1);
       when (1 <? Z.of_nat (length (part_list (parted_msa (instance d)))))
         (raise (runtime_error
            "Partitioned probabilistic alignments are not supported yet, sorry..."))
     else put_instance (set_opts (instance d) o2)) d
    = (if prob && (1 <? Z.of_nat (length (part_list (parted_msa (instance d)))))
       then Throw (runtime_error
                     "Partitioned probabilistic alignments are not supported yet, sorry...")
       else Ok (),
       {| instance := set_opts (instance d) base; log := log d |})).
  { subst base. destruct prob; [|done].
    rewrite D_bind_unfold. cbn [put_instance andb]. by destruct (1 <? _). }
  rewrite Hstep. clear Hstep.
  destruct (prob && (1 <? _)) eqn:Hparts; [done|].
  rewrite D_bind_unfold. cbn [get_instance]. rewrite D_bind_unfold.
  cbn [put_instance instance log]. rewrite D_bind_unfold. cbn [get_instance].
  rewrite D_bind_unfold. cbn [instance set_parted_msa opts set_opts].
  set (d2 := {| instance := _; log := log d |}).
  assert (Hbase : force_mode base = force_mode (opts (instance d))
                  ∧ use_prob_msa base = prob
                  ∧ if prob
                    then use_tip_inner base = false
                         ∧ use_pattern_compression base = false
                         ∧ Z.of_nat (length (part_list (parted_msa (instance d))))
                           ≤ 1
                    else use_tip_inner base = use_tip_inner (opts (instance d))
                         ∧ use_pattern_compression base
                           = use_pattern_compression (opts (instance d))).
  { subst base. destruct prob eqn:Hprob.
    - cbn [andb] in Hparts. apply Z.ltb_ge in Hparts.
      split; [done|]. split; [|done]. subst o1. cbn [use_prob_msa].
      subst prob. by apply andb_true_iff in Hprob as [_ ->].
    - done. }
  assert (Hchecked :
    ∀ d3, when (negb (force_mode base)) check_msa d2 = (Ok (), d3) →
          opts (instance d3) = base
          ∨ opts (instance d3) = enable_rate_scalers base).
  { intros d3. destruct (force_mode base); cbn [negb when].
    - intros [= <-]. by left.
    - intros Hc. by apply check_msa_options in Hc. }
  destruct (when (negb (force_mode base)) check_msa d2) as [[[]|e] d3] eqn:Hc;
    [|done].
  specialize (Hchecked d3 eq_refl).
  rewrite D_bind_unfold. cbn [get_instance]. rewrite D_bind_unfold.
  intros Hrest.
  assert (Hopts : opts (instance d') = opts (instance d3)).
  { revert Hrest.
    destruct (use_pattern_compression (opts (instance d3)));
      cbn [when put_instance mret D_ret]; rewrite D_bind_unfold;
      cbn [get_instance instance]; rewrite D_bind_unfold;
      cbn [put_instance instance log]; rewrite D_bind_unfold;
      cbn [get_instance instance set_parted_msa opts];
      (destruct (negb (force_mode (opts (instance d3)))); cbn [when];
       [unfold lift; destruct (check_models _) as [[]|e]; [|done]|];
       by intros [= <-]). }
  exists msa, base. split; [done|]. rewrite Hopts. split; [done|].
  destruct Hbase as (Hf & Hp & Hrest'). done.
Qed.

End LoadMsaFacts.

(** X17.  After [load_msa] has succeeded, probabilistic tips are in use
    only if the alignment read is probabilistic and the option asked for
    them, and then the tip-inner optimisation and the compression of
    patterns are switched off and the alignment has at most one partition;
    otherwise the two options are as they were given.  (The search for
    gap-only columns is taken to leave the options alone, as lines 715-790
    do.) *)
Theorem load_msa_probabilistic_options
    {raxml : RaxmlConstants} {collaborators : Collaborators} (d : driver) :
  (∀ i, opts (check_msa_gaps i) = opts i) →
  fst (load_msa d) = Ok () →
  let given := opts (instance d) in
  let o := opts (instance (snd (load_msa d))) in
  ∃ msa,
    msa_load_from_file given = Ok msa
    ∧ use_prob_msa o = probabilistic msa && use_prob_msa given
    ∧ force_mode o = force_mode given
    ∧ if use_prob_msa o
      then use_tip_inner o = false
           ∧ use_pattern_compression o = false
           ∧ Z.of_nat (length (part_list (parted_msa (instance d)))) ≤ 1
      else use_tip_inner o = use_tip_inner given
           ∧ use_pattern_compression o = use_pattern_compression given.
Proof.
  intros Hgaps Hok given o. subst given o.
  destruct (load_msa d) as [r d'] eqn:Hrun. cbn [fst snd] in *. subst r.
  destruct (load_msa_options d d' Hgaps Hrun)
    as (msa & base & Hload & Ho & Hforce & Hprob & Hrest).
  exists msa. split; [done|].
  destruct Ho as [-> | ->]; cbn [enable_rate_scalers use_prob_msa force_mode
                                 use_tip_inner use_pattern_compression];
    rewrite Hprob; (split; [done|]); (split; [done|]); done.
Qed.

(** The alignment of four taxa, which is not probabilistic, read under the
    option for probabilistic tips. *)
Lemma load_msa_probabilistic_options_witness :
  let o := {| simd_arch := 2; use_rate_scalers := false; use_tip_inner := true;
              use_repeats := false; use_prob_msa := true;
              use_pattern_compression := true; optimize_model := true;
              optimize_brlen := true; brlen_linkage := 0;
              force_mode := false |} in
  let d := {| instance := Fixtures.unloaded o; log := [] |} in
  use_prob_msa
    (opts (instance
             (snd (load_msa (raxml := Fixtures.raxml_constants)
                     (collaborators := Fixtures.single_worker Fixtures.msa4 6)
                     d)))) = false.
Proof.
  intros o d.
  destruct (load_msa_probabilistic_options
              (raxml := Fixtures.raxml_constants)
              (collaborators := Fixtures.single_worker Fixtures.msa4 6) d)
    as (msa & Hload & Hprob & _).
  - done.
  - vm_compute. reflexivity.
  - injection Hload as <-. exact Hprob.
Defined.

(** ** The value [optimize_params] returns *)

(** X18.  [optimize_params] returns the negated value of the last model
    stage that ran when branch lengths are not requested, and what
    [optimize_branches] returns after the model stages otherwise.  When no
    class is requested at all, it makes no call into the kernel, leaves the
    state as it is, and returns what its local variable held before any
    assignment. *)
Theorem optimize_params_value
    {constants : PllConstants} {raxml : RaxmlConstants}
    {kernel : LikelihoodKernel}
    (flags : Z) (lh_epsilon indeterminate : double) (t : TreeInfo) :
  let b1 := flag_set flags PLLMOD_OPT_PARAM_SUBST_RATES in
  let b2 := flag_set flags PLLMOD_OPT_PARAM_FREQUENCIES in
  let b3 := flag_set flags PLLMOD_OPT_PARAM_ALPHA in
  let b4 := flag_set flags PLLMOD_OPT_PARAM_PINV in
  let b5 := flag_set flags PLLMOD_OPT_PARAM_FREE_RATES in
  let b6 := flag_set flags PLLMOD_OPT_PARAM_BRANCHES_ITERATIVE in
  let t1 := after_if b1 rates_call t in
  let t2 := after_if b2 freqs_call t1 in
  let t3 := after_if b3 alpha_call t2 in
  let t4 := after_if b4 pinv_call t3 in
  let t5 := if b5
            then after_if (scaled_multi (_pll_treeinfo t4))
                   pllmod_treeinfo_normalize_brlen_scalers
                   (after free_rates_call t4)
            else t4 in
  let v :=
    if b5 then dmul dminus_one (value_of free_rates_call t4)
    else if b4 then dmul dminus_one (value_of pinv_call t3)
    else if b3 then dmul dminus_one (value_of alpha_call t2)
    else if b2 then dmul dminus_one (value_of freqs_call t1)
    else if b1 then dmul dminus_one (value_of rates_call t)
    else indeterminate in
  optimize_params flags lh_epsilon indeterminate t
  = (if b6 then optimize_branches lh_epsilon d0_25 t5 else (Ok v, t5))
  ∧ (b1 || b2 || b3 || b4 || b5 || b6 = false →
     optimize_params flags lh_epsilon indeterminate t = (Ok indeterminate, t)).
Proof.
  intros b1 b2 b3 b4 b5 b6 t1 t2 t3 t4 t5 v.
  assert (Hrun :
    optimize_params flags lh_epsilon indeterminate t
    = (if b6 then optimize_branches lh_epsilon d0_25 t5 else (Ok v, t5))).
  { unfold optimize_params.
    rewrite M_bind_unfold. fold rates_call. rewrite stage_step.
    rewrite M_bind_unfold. fold freqs_call. rewrite stage_step.
    rewrite M_bind_unfold. fold alpha_call. rewrite stage_step.
    rewrite M_bind_unfold. fold pinv_call. rewrite stage_step.
    rewrite M_bind_unfold. fold free_rates_call. rewrite free_rates_step.
    subst b6. destruct (flag_set flags PLLMOD_OPT_PARAM_BRANCHES_ITERATIVE);
      reflexivity. }
  split; [done|].
  intros Hnone. rewrite Hrun.
  repeat (apply orb_false_iff in Hnone as [Hnone ?]).
  subst v t5 t4 t3 t2 t1.
  repeat match goal with H : _ = false |- _ => rewrite H; clear H end.
  done.
Qed.

(** No class requested. *)
Lemma optimize_params_value_witness :
  let t := Fixtures.state2 (Fixtures.quiet (double_of_Z (-100)))
             (Fixtures.treeinfo2 0 0) in
  optimize_params (constants := Fixtures.pll_constants)
    (raxml := Fixtures.raxml_constants) 0 d0_1 (double_of_Z 7) t
  = (Ok (double_of_Z 7), t).
Proof.
  intros t.
  exact (proj2 (optimize_params_value (constants := Fixtures.pll_constants)
                  (raxml := Fixtures.raxml_constants) 0 d0_1 (double_of_Z 7) t)
               eq_refl).
Defined.

(** ** [init_part_info] *)

Lemma count_if_none {A} (p : A → bool) (l : list A) :
  count_if p l ≤ 0 → Forall (fun x => p x = false) l.
Proof.
  induction l as [|x l IH]; [constructor|].
  cbn [count_if]. pose proof (count_if_bounds p l).
  destruct (p x) eqn:Hx; [lia|]. intros Hc. constructor; [done|].
  apply IH. lia.
Qed.

(** X20.  [init_part_info] refuses an alignment file that does not exist
    before it reads anything, and asks for a model when the input is not
    binary and the model given is neither a file nor a name.  When it
    succeeds, an alignment with a single partition runs with linked branch
    lengths, and an alignment with several partitions under linked branch
    lengths has no partition with a free-rate model; the linkage is changed
    in the first case only, and a binary alignment switches probabilistic
    tips off. *)
Theorem init_part_info_outcome
    {constants : PllConstants}
    {FileFormat : Type} {FileFormat_eq_dec : EqDecision FileFormat}
    {DataType : Type}
    (FileFormat_binary FileFormat_autodetect : FileFormat)
    (msa_file : Options → string) (msa_format : Options → FileFormat)
    (model_file : Options → string) (data_type : Options → DataType)
    (sysutil_file_exists rba_file : string → bool)
    (read_binary_msa read_partition_file :
       string → PartitionedMSA → result PartitionedMSA)
    (emplace_part_info :
       PartitionedMSA → string → DataType → string → result PartitionedMSA)
    {ParamValue : Type} (ParamValue_ML : ParamValue)
    (set_param_mode_default : Model → Z → ParamValue → Model)
    (ratehet_mode : Model → Z)
    (PLLMOD_COMMON_BRLEN_LINKED PLLMOD_COMMON_BRLEN_SCALED
     PLLMOD_UTIL_MIXTYPE_FREE : Z)
    (instance : RaxmlInstance) :
  let run :=
    Main.init_part_info FileFormat_binary FileFormat_autodetect msa_file
      msa_format model_file data_type sysutil_file_exists rba_file
      read_binary_msa read_partition_file emplace_part_info ParamValue_ML
      set_param_mode_default ratehet_mode PLLMOD_COMMON_BRLEN_LINKED
      PLLMOD_COMMON_BRLEN_SCALED PLLMOD_UTIL_MIXTYPE_FREE instance in
  let o := opts instance in
  let binary :=
    bool_decide (msa_format o = FileFormat_binary)
    || (bool_decide (msa_format o = FileFormat_autodetect)
        && rba_file (msa_file o)) in
  (sysutil_file_exists (msa_file o) = false →
   run = Throw (runtime_error ("Alignment file not found: " +:+ msa_file o)))
  ∧ (sysutil_file_exists (msa_file o) = true → binary = false →
     sysutil_file_exists (model_file o) = false →
     model_file o = EmptyString →
     run = Throw (runtime_error
                    "Please specify an evolutionary model with --model switch"))
  ∧ (∀ i', run = Ok i' →
       let n := part_count (parted_msa i') in
       sysutil_file_exists (msa_file o) = true
       ∧ (n = 1 → brlen_linkage (opts i') = PLLMOD_COMMON_BRLEN_LINKED)
       ∧ (n ≠ 1 → brlen_linkage (opts i') = brlen_linkage o)
       ∧ (1 < n → brlen_linkage (opts i') = PLLMOD_COMMON_BRLEN_LINKED →
          Forall (fun pinfo =>
                    ratehet_mode (pinfo_model pinfo) ≠ PLLMOD_UTIL_MIXTYPE_FREE)
            (part_list (parted_msa i')))
       ∧ use_prob_msa (opts i') = negb binary && use_prob_msa o).
Proof.
  intros run o binary. subst run. unfold Main.init_part_info. fold o.
  destruct (sysutil_file_exists (msa_file o)) eqn:Hfile; cbn [negb].
  2: { split; [done|]. split; [done|]. done. }
  split; [done|]. split.
  - intros _ Hbin Hmodel Hempty. unfold Main.read_part_info. fold o binary.
    rewrite Hbin, Hmodel, Hempty. by rewrite bool_decide_eq_true_2.
  - intros i'.
    assert (Hread : ∀ i1,
              Main.read_part_info FileFormat_binary FileFormat_autodetect
                msa_file msa_format model_file data_type sysutil_file_exists
                rba_file read_binary_msa read_partition_file emplace_part_info
                instance = Ok i1 →
              brlen_linkage (opts i1) = brlen_linkage o
              ∧ use_prob_msa (opts i1) = negb binary && use_prob_msa o).
    { intros i1. unfold Main.read_part_info. fold o binary.
      destruct binary.
      - destruct (read_binary_msa _ _); [|done]. by intros [= <-].
      - destruct (sysutil_file_exists (model_file o)).
        + destruct (read_partition_file _ _); [|done]. by intros [= <-].
        + destruct (negb _); [|done].
          destruct (emplace_part_info _ _ _ _); [|done]. by intros [= <-]. }
    destruct (Main.read_part_info _ _ _ _ _ _ _ _ _ _ _ instance)
      as [i1|e]; [|done].
    destruct (Hread i1 eq_refl) as [Hlink Hprob]. clear Hread.
    cbn [mbind result_bind]. cbv zeta.
    set (i2 := if part_count (parted_msa i1) =? 1 then _ else i1).
    set (i3 := if brlen_linkage (opts i2) =? PLLMOD_COMMON_BRLEN_SCALED
               then _ else i2).
    assert (H2 : part_count (parted_msa i2) = part_count (parted_msa i1)
                 ∧ use_prob_msa (opts i2) = use_prob_msa (opts i1)
                 ∧ (part_count (parted_msa i1) = 1 →
                    brlen_linkage (opts i2) = PLLMOD_COMMON_BRLEN_LINKED)
                 ∧ (part_count (parted_msa i1) ≠ 1 →
                    brlen_linkage (opts i2) = brlen_linkage (opts i1))).
    { subst i2. destruct (Z.eqb_spec (part_count (parted_msa i1)) 1); done. }
    destruct H2 as (Hn2 & Hp2 & Hone & Hmany).
    assert (H3 : part_count (parted_msa i3) = part_count (parted_msa i2)
                 ∧ opts i3 = opts i2).
    { subst i3. destruct (_ =? PLLMOD_COMMON_BRLEN_SCALED); [|done].
      split; [|done]. unfold part_count. cbn [set_parted_msa parted_msa part_list].
      by rewrite length_fmap. }
    destruct H3 as (Hn3 & Ho3).
    destruct ((1 <? part_count (parted_msa i3)) && _ && _) eqn:Hcheck; [done|].
    intros [= <-]. cbv zeta. rewrite Ho3, Hn3, Hn2, Hp2, Hprob.
    split; [done|]. split; [done|]. split; [by rewrite <- Hlink|].
    split; [|done].
    intros Hn Hlinked.
    rewrite Ho3, Hn3, Hn2 in Hcheck.
    destruct (Z.ltb_spec 1 (part_count (parted_msa i1))) as [_|]; [|lia].
    rewrite Hlinked, Z.eqb_refl, andb_true_r in Hcheck. cbn [andb] in Hcheck.
    apply Z.ltb_ge, count_if_none in Hcheck.
    eapply Forall_impl; [exact Hcheck|]. intros pinfo Hp. cbn beta in Hp.
    by apply Z.eqb_neq.
Qed.

(** No alignment file. *)
Lemma init_part_info_outcome_witness :
  Main.init_part_info true false (fun _ => "a.phy"%string) (fun _ => false)
    (fun _ => "GTR"%string) (fun _ => tt) (fun _ => false) (fun _ => false)
    (fun _ pm => Ok pm) (fun _ pm => Ok pm) (fun pm _ _ _ => Ok pm) tt
    (fun m _ _ => m) (fun _ => 0) 0 1 4
    (constants := Fixtures.pll_constants)
    (Fixtures.unloaded Fixtures.options)
  = Throw (runtime_error "Alignment file not found: a.phy").
Proof.
  exact (proj1 (init_part_info_outcome
                  (constants := Fixtures.pll_constants)
                  true false (fun _ => "a.phy"%string) (fun _ => false)
                  (fun _ => "GTR"%string) (fun _ => tt) (fun _ => false)
                  (fun _ => false) (fun _ pm => Ok pm) (fun _ pm => Ok pm)
                  (fun pm _ _ _ => Ok pm) tt (fun m _ _ => m) (fun _ => 0)
                  0 1 4 (Fixtures.unloaded Fixtures.options))
               eq_refl).
Defined.

(** ** [build_start_trees] on user trees *)

Section UserStartTrees.
Context {constants : PllConstants} {kernel : LikelihoodKernel}.
Variable tip_labels : Tree → list (Z * string).
Variable topology : Tree → list TreeBranch.t.
Variable taxon_names : PartitionedMSA → list string.
Variable start_tree : Options → StartingTree.t.
Variable read_past_end : result Tree.
Context {rng : Type}.
Variable rand : rng → Z * rng.
Variable buildRandom : list string → rng → Tree * rng.
Variable buildParsimony : PartitionedMSA → Z → Z → Tree.
Variable fix_missing_brlens : Tree → Tree.
Variable reset_tip_ids : Tree → PartitionedMSA → result Tree.
Context {Checkpoint : Type}.
Variable ml_trees_size : Checkpoint → Z.

(** One turn of the loop on a user tree that [check_tree] accepts. *)
Lemma start_trees_loop_turn (checkp : Checkpoint) (prepared : Tree → Tree)
    (tree : Tree) (rest : list (result Tree)) (fuel : nat) (i : Z)
    (st : Main.start_state rng) :
  start_tree (opts (Main.instance st)) = StartingTree.user →
  Main.start_tree_stream st = Ok tree :: rest →
  snd (check_tree tip_labels topology taxon_names
         (parted_msa (Main.instance st)) tree) = Ok () →
  reset_tip_ids (fix_missing_brlens tree) (parted_msa (Main.instance st))
  = Ok (prepared tree) →
  i < Main.num_searches st →
  Main.start_trees_loop tip_labels topology taxon_names start_tree
    read_past_end rand buildRandom buildParsimony fix_missing_brlens
    reset_tip_ids ml_trees_size checkp (S fuel) i st
  = Main.start_trees_loop tip_labels topology taxon_names start_tree
      read_past_end rand buildRandom buildParsimony fix_missing_brlens
      reset_tip_ids ml_trees_size checkp fuel (i + 1)
      {| Main.instance := Main.instance st;
         Main.num_searches :=
           Main.num_searches st + (if empty_vec rest then 0 else 1);
         Main.start_tree_stream := rest;
         Main.parted_msa_parsimony := Main.parted_msa_parsimony st;
         Main.start_trees :=
           Main.start_trees st
           ++ (if i <? ml_trees_size checkp then [] else [prepared tree]);
         Main.rand_state := Main.rand_state st |}.
Proof.
  intros Huser Hstream Hcheck Hreset Hi.
  cbn [Main.start_trees_loop].
  destruct (Z.ltb_spec i (Main.num_searches st)) as [_|]; [|lia].
  rewrite Huser. cbn [Main.generate_tree]. unfold Main.read_tree.
  rewrite Hstream. cbn [mbind result_bind Main.instance].
  rewrite Hcheck. cbn [mbind result_bind Main.instance Main.start_tree_stream].
  rewrite Huser, bool_decide_eq_true_2 by done. cbn [andb].
  destruct rest as [|parsed rest]; cbn [empty_vec negb];
    destruct (i <? ml_trees_size checkp);
    cbn [Main.one_more_search Main.instance Main.emplace_start_tree];
    rewrite ?Hreset; cbn [mbind result_bind Main.emplace_start_tree
                           Main.instance Main.num_searches
                           Main.start_tree_stream Main.parted_msa_parsimony
                           Main.start_trees Main.rand_state];
    rewrite ?app_nil_r, ?Z.add_0_r; reflexivity.
Qed.

(** The loop on a stream of well-formed trees that [check_tree] accepts:
    it reads them all and goes on from there. *)
Lemma start_trees_loop_reads_all (checkp : Checkpoint)
    (prepared : Tree → Tree) (pm : PartitionedMSA) (all_trees : list Tree) :
  (∀ tree, tree ∈ all_trees →
     snd (check_tree tip_labels topology taxon_names pm tree) = Ok ()
     ∧ reset_tip_ids (fix_missing_brlens tree) pm = Ok (prepared tree)) →
  ∀ (rest : list Tree) (tree : Tree) (fuel : nat) (i : Z)
    (st : Main.start_state rng),
    (∀ x, x ∈ tree :: rest → x ∈ all_trees) →
    start_tree (opts (Main.instance st)) = StartingTree.user →
    parted_msa (Main.instance st) = pm →
    Main.start_tree_stream st = Ok <$> (tree :: rest) →
    0 ≤ i < Main.num_searches st →
    (length (tree :: rest) ≤ fuel)%nat →
    Main.start_trees_loop tip_labels topology taxon_names start_tree
      read_past_end rand buildRandom buildParsimony fix_missing_brlens
      reset_tip_ids ml_trees_size checkp fuel i st
    = Main.start_trees_loop tip_labels topology taxon_names start_tree
        read_past_end rand buildRandom buildParsimony fix_missing_brlens
        reset_tip_ids ml_trees_size checkp
        (fuel - length (tree :: rest)) (i + Z.of_nat (length (tree :: rest)))
        (after_reading st prepared (tree :: rest) (ml_trees_size checkp - i)).
Proof.
  intros Hvalid rest.
  induction rest as [|tree' rest IH]; intros tree fuel i st Hall Huser Hpm
    Hstream Hi Hfuel;
    (destruct fuel as [|fuel]; [cbn in Hfuel; lia|]);
    destruct (Hvalid tree (Hall tree ltac:(left))) as [Hcheck Hreset];
    rewrite <- Hpm in Hcheck, Hreset;
    rewrite (start_trees_loop_turn checkp prepared tree _ fuel i st
               Huser Hstream Hcheck Hreset ltac:(lia)).
  - (* the last tree of the stream *)
    cbn [fmap list_fmap empty_vec length].
    replace (S fuel - 1)%nat with fuel by lia.
    f_equal. unfold after_reading. cbn [length]. f_equal; [lia|].
    f_equal. destruct (Z.ltb_spec i (ml_trees_size checkp)).
    + replace (Z.to_nat (ml_trees_size checkp - i))
        with (S (Z.to_nat (ml_trees_size checkp - i - 1))) by lia.
      cbn [drop]. by rewrite drop_nil.
    + by replace (Z.to_nat (ml_trees_size checkp - i)) with 0%nat by lia.
  - cbn [length] in Hfuel. cbn [fmap list_fmap empty_vec].
    rewrite (IH tree' fuel (i + 1)); cbn [Main.instance Main.num_searches
                                           Main.start_tree_stream];
      [|intros x Hx; apply Hall; by right|done|done|done|lia|cbn [length]; lia].
    cbn [length]. f_equal; [lia|].
    unfold after_reading.
    cbn [Main.instance Main.num_searches Main.parted_msa_parsimony
         Main.start_trees Main.rand_state length].
    f_equal; [lia|]. rewrite <- app_assoc. f_equal.
    destruct (Z.ltb_spec i (ml_trees_size checkp)).
    + replace (Z.to_nat (ml_trees_size checkp - i))
        with (S (Z.to_nat (ml_trees_size checkp - (i + 1)))) by lia.
      done.
    + replace (Z.to_nat (ml_trees_size checkp - (i + 1))) with 0%nat by lia.
      replace (Z.to_nat (ml_trees_size checkp - i)) with 0%nat by lia.
      done.
Qed.

Lemma start_trees_loop_unfold (checkp : Checkpoint) (fuel : nat) (i : Z)
    (st : Main.start_state rng) :
  Main.start_trees_loop tip_labels topology taxon_names start_tree
    read_past_end rand buildRandom buildParsimony fix_missing_brlens
    reset_tip_ids ml_trees_size checkp (S fuel) i st
  = if i <? Main.num_searches st then
      '(tree, st) ← Main.generate_tree tip_labels topology taxon_names
                      read_past_end rand buildRandom buildParsimony st
                      (start_tree (opts (Main.instance st)));
      let st :=
        if bool_decide (start_tree (opts (Main.instance st)) = StartingTree.user)
           && negb (empty_vec (Main.start_tree_stream st))
        then Main.one_more_search st else st in
      if i <? ml_trees_size checkp then
        Main.start_trees_loop tip_labels topology taxon_names start_tree
          read_past_end rand buildRandom buildParsimony fix_missing_brlens
          reset_tip_ids ml_trees_size checkp fuel (i + 1) st
      else
        tree ← reset_tip_ids (fix_missing_brlens tree)
                 (parted_msa (Main.instance st));
        Main.start_trees_loop tip_labels topology taxon_names start_tree
          read_past_end rand buildRandom buildParsimony fix_missing_brlens
          reset_tip_ids ml_trees_size checkp fuel (i + 1)
          (Main.emplace_start_tree st tree)
    else Ok st.
Proof. reflexivity. Qed.

(** The fuel [build_start_trees] gives the loop is enough: with the
    number of searches left plus the number of trees left as fuel, one more
    unit of fuel changes nothing, whatever the kind of starting tree. *)
Lemma start_trees_loop_fuel (checkp : Checkpoint) (fuel : nat) :
  ∀ (i : Z) (st : Main.start_state rng),
    (Z.to_nat (Main.num_searches st - i) + length (Main.start_tree_stream st)
     ≤ fuel)%nat →
    Main.start_trees_loop tip_labels topology taxon_names start_tree
      read_past_end rand buildRandom buildParsimony fix_missing_brlens
      reset_tip_ids ml_trees_size checkp fuel i st
    = Main.start_trees_loop tip_labels topology taxon_names start_tree
        read_past_end rand buildRandom buildParsimony fix_missing_brlens
        reset_tip_ids ml_trees_size checkp (S fuel) i st.
Proof.
  induction fuel as [|fuel IH]; intros i st Hfuel.
  - cbn [Main.start_trees_loop].
    by destruct (Z.ltb_spec i (Main.num_searches st)); [lia|].
  - rewrite (start_trees_loop_unfold checkp (S fuel)),
      (start_trees_loop_unfold checkp fuel).
    destruct (Z.ltb_spec i (Main.num_searches st)) as [Hi|]; [|done].
    assert (Hturn : ∀ tree st1,
      Main.generate_tree tip_labels topology taxon_names read_past_end rand
        buildRandom buildParsimony st (start_tree (opts (Main.instance st)))
      = Ok (tree, st1) →
      Main.instance st1 = Main.instance st
      ∧ Main.num_searches st1 = Main.num_searches st
      ∧ (length (Main.start_tree_stream st1)
         ≤ length (Main.start_tree_stream st))%nat
      ∧ (Main.start_tree_stream st1 ≠ [] →
         start_tree (opts (Main.instance st)) = StartingTree.user →
         (length (Main.start_tree_stream st1)
          < length (Main.start_tree_stream st))%nat)).
    { intros tree st1. destruct (start_tree (opts (Main.instance st))) eqn:Hty;
        cbn [Main.generate_tree].
      - unfold Main.read_tree.
        destruct (Main.start_tree_stream st) as [|parsed rest] eqn:Hs.
        + destruct read_past_end as [t0|e]; [|done]. cbn [mbind result_bind].
          destruct (snd (check_tree _ _ _ _ t0)); [|done]. cbn [mbind result_bind].
          intros [= <- <-]. rewrite Hs. done.
        + destruct parsed as [t0|e]; [|done]. cbn [mbind result_bind].
          destruct (snd (check_tree _ _ _ _ t0)); [|done]. cbn [mbind result_bind].
          intros [= <- <-]. cbn [Main.instance Main.num_searches
                                 Main.start_tree_stream length].
          split; [done|]. split; [done|]. split; [lia|]. intros _ _. lia.
      - destruct (buildRandom _ _) as [tree0 g].
        intros [= <- <-]. cbn [Main.instance Main.num_searches
                                Main.start_tree_stream].
        by split_and!.
      - destruct (rand (Main.rand_state st)) as [seed g].
        intros [= <- <-]. cbn [Main.instance Main.num_searches
                                Main.start_tree_stream].
        by split_and!. }
    destruct (Main.generate_tree _ _ _ _ _ _ _ st _) as [[tree st1]|e];
      [|done].
    destruct (Hturn tree st1 eq_refl) as (Hinst & Hnum & Hlen & Hshorter).
    cbn [mbind result_bind]. cbv zeta.
    set (st2 := if bool_decide (start_tree (opts (Main.instance st1))
                                = StartingTree.user)
                   && negb (empty_vec (Main.start_tree_stream st1))
                then Main.one_more_search st1 else st1).
    assert (Hmeasure :
      Main.instance st2 = Main.instance st1
      ∧ Main.start_tree_stream st2 = Main.start_tree_stream st1
      ∧ (Z.to_nat (Main.num_searches st2 - (i + 1))
         + length (Main.start_tree_stream st2) ≤ fuel)%nat).
    { subst st2. rewrite Hinst.
      destruct (bool_decide_reflect
                  (start_tree (opts (Main.instance st)) = StartingTree.user))
        as [Huser|Hother]; cbn [andb].
      - destruct (Main.start_tree_stream st1) as [|x xs] eqn:Hs1;
          cbn [empty_vec negb].
        + split; [done|]. split; [done|]. rewrite Hs1, Hnum. cbn [length]. lia.
        + cbn [Main.one_more_search Main.instance Main.start_tree_stream
               Main.num_searches]. split; [done|]. split; [done|].
          specialize (Hshorter ltac:(done) Huser).
          rewrite Hs1 in *. rewrite Hnum. cbn [length] in *. lia.
      - split; [done|]. split; [done|]. rewrite Hnum. lia. }
    destruct Hmeasure as (Hinst2 & Hstream2 & Hm).
    destruct (i <? ml_trees_size checkp).
    + by apply IH.
    + destruct (reset_tip_ids _ _) as [tree'|e]; [|done].
      cbn [mbind result_bind]. apply IH.
      by cbn [Main.emplace_start_tree Main.num_searches Main.start_tree_stream].
Qed.

End UserStartTrees.

(** X21.  [build_start_trees] on a file of user trees.  The loop over the
    searches has a bound that moves while it runs: a search is added for
    every tree that is left in the stream after a tree has been read.  When
    one search is requested and the file holds well-formed trees that
    [check_tree] accepts, every tree of the file is read exactly once, the
    number of searches ends as the number of trees, and the trees from the
    number of trees saved in the checkpoint on are appended to the starting
    trees, with their missing branch lengths fixed and their tip ids reset.
    When more than one search is requested, the loop goes on after the last
    tree, and an error raised by reading past the end of the stream ends the
    function. *)
Theorem build_start_trees_user
    {constants : PllConstants} {kernel : LikelihoodKernel}
    (tip_labels : Tree → list (Z * string))
    (topology : Tree → list TreeBranch.t)
    (taxon_names : PartitionedMSA → list string)
    (start_tree : Options → StartingTree.t) (tree_file : Options → string)
    (sysutil_file_exists : string → bool)
    (open_stream : string → list (result Tree))
    (read_past_end : result Tree)
    {rng : Type} (rand : rng → Z * rng)
    (buildRandom : list string → rng → Tree * rng)
    (buildParsimony : PartitionedMSA → Z → Z → Tree)
    (build_parsimony_msa : RaxmlInstance → PartitionedMSA)
    (fix_missing_brlens : Tree → Tree)
    (reset_tip_ids : Tree → PartitionedMSA → result Tree)
    (write_start_trees : Options → list Tree → result unit)
    {Checkpoint : Type} (ml_trees_size : Checkpoint → Z)
    (pc : ParallelContext) (checkp : Checkpoint) (st : Main.start_state rng)
    (prepared : Tree → Tree) (trees : list Tree) :
  let o := opts (Main.instance st) in
  let run :=
    Main.build_start_trees tip_labels topology taxon_names start_tree
      tree_file sysutil_file_exists open_stream read_past_end rand buildRandom
      buildParsimony build_parsimony_msa fix_missing_brlens reset_tip_ids
      write_start_trees ml_trees_size pc checkp st in
  start_tree o = StartingTree.user →
  sysutil_file_exists (tree_file o) = true →
  open_stream (tree_file o) = Ok <$> trees →
  trees ≠ [] →
  (∀ tree, tree ∈ trees →
     snd (check_tree tip_labels topology taxon_names
            (parted_msa (Main.instance st)) tree) = Ok ()
     ∧ reset_tip_ids (fix_missing_brlens tree) (parted_msa (Main.instance st))
       = Ok (prepared tree)) →
  (∀ l, write_start_trees o l = Ok ()) →
  (Main.num_searches st = 1 →
   run = Ok {| Main.instance := Main.instance st;
               Main.num_searches := Z.of_nat (length trees);
               Main.start_tree_stream := [];
               Main.parted_msa_parsimony := None;
               Main.start_trees :=
                 Main.start_trees st
                 ++ (prepared <$> drop (Z.to_nat (ml_trees_size checkp)) trees);
               Main.rand_state := Main.rand_state st |})
  ∧ (2 ≤ Main.num_searches st →
     ∀ e, read_past_end = Throw e → run = Throw e).
Proof.
  intros o run Huser Hfile Hopen Hne Hvalid Hwrite. subst run.
  unfold Main.build_start_trees. fold o. rewrite Huser, Hfile. cbn [negb].
  cbn [mbind result_bind Main.num_searches Main.start_tree_stream].
  rewrite Hopen, length_fmap.
  destruct trees as [|tree rest]; [done|].
  set (st1 := {| Main.instance := Main.instance st;
                 Main.start_tree_stream := Ok <$> tree :: rest |}).
  assert (Hloop : ∀ fuel,
    (length (tree :: rest) ≤ fuel)%nat → 1 ≤ Main.num_searches st →
    Main.start_trees_loop tip_labels topology taxon_names start_tree
      read_past_end rand buildRandom buildParsimony fix_missing_brlens
      reset_tip_ids ml_trees_size checkp fuel 0 st1
    = Main.start_trees_loop tip_labels topology taxon_names start_tree
        read_past_end rand buildRandom buildParsimony fix_missing_brlens
        reset_tip_ids ml_trees_size checkp
        (fuel - length (tree :: rest)) (Z.of_nat (length (tree :: rest)))
        (after_reading st1 prepared (tree :: rest) (ml_trees_size checkp))).
  { intros fuel Hfuel Hn.
    rewrite (start_trees_loop_reads_all tip_labels topology taxon_names
               start_tree read_past_end rand buildRandom buildParsimony
               fix_missing_brlens reset_tip_ids ml_trees_size checkp prepared
               (parted_msa (Main.instance st)) (tree :: rest) Hvalid
               rest tree fuel 0 st1);
      [by rewrite Z.sub_0_r|done|done|done|done|cbn; lia|done]. }
  split.
  - intros Hone. rewrite Hloop by lia. rewrite Hone.
    replace (Z.to_nat 1 + length (tree :: rest) - length (tree :: rest))%nat
      with 1%nat by lia.
    cbn [Main.start_trees_loop]. unfold after_reading at 1.
    cbn [Main.num_searches]. subst st1. cbn [Main.num_searches]. rewrite Hone.
    destruct (Z.ltb_spec (Z.of_nat (length (tree :: rest)))
                (1 + Z.of_nat (length (tree :: rest)) - 1)) as [|_]; [lia|].
    cbn [mbind result_bind]. 
    destruct (master_rank pc); rewrite ?Hwrite; cbn [mbind result_bind];
      unfold after_reading;
      cbn [Main.instance Main.num_searches Main.start_tree_stream
           Main.parted_msa_parsimony Main.start_trees Main.rand_state];
      rewrite ?Hone; f_equal; f_equal; lia.
  - intros Hmany e Hend. rewrite Hloop by lia.
    destruct (Z.to_nat (Main.num_searches st) + length (tree :: rest)
              - length (tree :: rest))%nat as [|fuel] eqn:Hfuel; [lia|].
    cbn [Main.start_trees_loop]. unfold after_reading at 1.
    cbn [Main.num_searches]. subst st1. cbn [Main.num_searches].
    destruct (Z.ltb_spec (Z.of_nat (length (tree :: rest)))
                (Main.num_searches st + Z.of_nat (length (tree :: rest)) - 1))
      as [_|]; [|lia].
    unfold after_reading. cbn [Main.instance]. fold o. rewrite Huser.
    cbn [Main.generate_tree]. unfold Main.read_tree.
    cbn [Main.start_tree_stream]. rewrite Hend. done.
Qed.

(** A file of two trees over the four taxa of the alignment, one search
    requested. *)
Lemma build_start_trees_user_witness :
  let st := {| Main.instance := Fixtures.instance4 Fixtures.options;
               Main.num_searches := 1;
               Main.start_tree_stream := [];
               Main.parted_msa_parsimony := None;
               Main.start_trees := [];
               Main.rand_state := tt |} in
  let tree1 := Fixtures.tree4 in
  match Main.build_start_trees (constants := Fixtures.pll_constants)
          (fun _ => [(0, "t1"); (1, "t2"); (2, "t3"); (3, "t4")]%string)
          (fun _ => []) (fun pm => labels (full_msa pm))
          (fun _ => StartingTree.user) (fun _ => "start.nwk"%string)
          (fun _ => true) (fun _ => [Ok tree1; Ok tree1])
          (Throw (runtime_error "end of stream"))
          (fun g : unit => (0, g)) (fun _ g => (tree1, g))
          (fun _ _ _ => tree1)
          (fun i => parted_msa i) (fun t => t) (fun t _ => Ok t)
          (fun _ _ => Ok ()) (fun _ : unit => 0)
          Fixtures.one_proc tt st with
  | Ok st' => Main.num_searches st' = 2 ∧ Main.start_trees st' = [tree1; tree1]
  | Throw _ => False
  end.
Proof.
  intros st tree1.
  rewrite (proj1 (build_start_trees_user
                    (constants := Fixtures.pll_constants)
                    (fun _ => [(0, "t1"); (1, "t2"); (2, "t3"); (3, "t4")]%string)
                    (fun _ => []) (fun pm => labels (full_msa pm))
                    (fun _ => StartingTree.user) (fun _ => "start.nwk"%string)
                    (fun _ => true) (fun _ => [Ok tree1; Ok tree1])
                    (Throw (runtime_error "end of stream"))
                    (fun g : unit => (0, g)) (fun _ g => (tree1, g))
                    (fun _ _ _ => tree1)
                    (fun i => parted_msa i) (fun t => t) (fun t _ => Ok t)
                    (fun _ _ => Ok ()) (fun _ : unit => 0)
                    Fixtures.one_proc tt st (fun t => t) [tree1; tree1]
                    eq_refl eq_refl eq_refl ltac:(discriminate)
                    ltac:(intros tree Hin;
                          assert (tree = tree1) as ->
                            by (repeat (apply elem_of_cons in Hin
                                          as [?|Hin]; [done|]);
                                by apply elem_of_nil in Hin);
                          split; [vm_compute|]; reflexivity)
                    (fun _ => eq_refl))
                 eq_refl).
  split; reflexivity.
Defined.

(** X22.  The loop of [build_start_trees] ends, whatever the kind of
    starting tree.  Its bound moves up by one for every tree that is left in
    a file of user trees after a tree has been read, but every such turn
    uses up a tree: from turn [i] on the loop makes no more turns than there
    are searches left plus trees left in the stream.  Run for that many
    turns, the loop gives the result it gives when run for any larger
    number; this is the number [build_start_trees] runs it for. *)
Theorem start_trees_loop_ends
    {constants : PllConstants} {kernel : LikelihoodKernel}
    (tip_labels : Tree → list (Z * string))
    (topology : Tree → list TreeBranch.t)
    (taxon_names : PartitionedMSA → list string)
    (start_tree : Options → StartingTree.t)
    (read_past_end : result Tree)
    {rng : Type} (rand : rng → Z * rng)
    (buildRandom : list string → rng → Tree * rng)
    (buildParsimony : PartitionedMSA → Z → Z → Tree)
    (fix_missing_brlens : Tree → Tree)
    (reset_tip_ids : Tree → PartitionedMSA → result Tree)
    {Checkpoint : Type} (ml_trees_size : Checkpoint → Z)
    (checkp : Checkpoint) (turns : nat) (i : Z) (st : Main.start_state rng) :
  (Z.to_nat (Main.num_searches st - i) + length (Main.start_tree_stream st)
   ≤ turns)%nat →
  Main.start_trees_loop tip_labels topology taxon_names start_tree
    read_past_end rand buildRandom buildParsimony fix_missing_brlens
    reset_tip_ids ml_trees_size checkp turns i st
  = Main.start_trees_loop tip_labels topology taxon_names start_tree
      read_past_end rand buildRandom buildParsimony fix_missing_brlens
      reset_tip_ids ml_trees_size checkp
      (Z.to_nat (Main.num_searches st - i)
       + length (Main.start_tree_stream st)) i st.
Proof.
  set (least := (Z.to_nat (Main.num_searches st - i)
                 + length (Main.start_tree_stream st))%nat).
  intros Hle. replace turns with (least + (turns - least))%nat by lia.
  generalize (turns - least)%nat as more. clear turns Hle.
  induction more as [|more IH]; [by rewrite Nat.add_0_r|].
  rewrite <- IH. replace (least + S more)%nat with (S (least + more)) by lia.
  symmetry. apply start_trees_loop_fuel. fold least. lia.
Qed.

(** Two parsimony trees, three trees saved by an earlier run: two turns, and
    five give the same. *)
Lemma start_trees_loop_ends_witness :
  let st := {| Main.instance := Fixtures.instance4 Fixtures.options;
               Main.num_searches := 2;
               Main.start_tree_stream := [];
               Main.parted_msa_parsimony := None;
               Main.start_trees := [];
               Main.rand_state := 7 |} in
  let loop turns :=
    Main.start_trees_loop (constants := Fixtures.pll_constants)
      (fun _ => []) (fun _ => []) (fun pm => labels (full_msa pm))
      (fun _ => StartingTree.parsimony)
      (Throw (runtime_error "end of stream"))
      (fun g : Z => (g, g + 1)) (fun _ g => (Fixtures.tree4, g))
      (fun _ _ _ => Fixtures.tree4) (fun t => t) (fun t _ => Ok t)
      (fun _ : unit => 3) tt turns 0 st in
  loop 5%nat = loop 2%nat
  ∧ (Main.rand_state <$> (match loop 2%nat with
                          | Ok st' => Some st' | Throw _ => None end)) = Some 9.
Proof.
  intros st loop. split; [|vm_compute; reflexivity].
  apply (start_trees_loop_ends (constants := Fixtures.pll_constants)
           (fun _ => []) (fun _ => []) (fun pm => labels (full_msa pm))
           (fun _ => StartingTree.parsimony)
           (Throw (runtime_error "end of stream"))
           (fun g : Z => (g, g + 1)) (fun _ g => (Fixtures.tree4, g))
           (fun _ _ _ => Fixtures.tree4) (fun t => t) (fun t _ => Ok t)
           (fun _ : unit => 3) tt 5%nat 0 st).
  simpl. lia.
Defined.

(** ** [draw_bootstrap_support] on files of trees *)

Section DrawBootstrapSupportFacts.
Context {kernel : LikelihoodKernel}.
Context {IdNameVector : Type}.
Variable reset_tip_ids : Tree → IdNameVector → Main.reset_tip_ids_outcome.
Context {BootstrapTree : Type}.
Variable add_bootstrap_tree : BootstrapTree → Tree → result BootstrapTree.

(** The loop over trees that fit the reference tree: they are added one by
    one, and counted. *)
Lemma read_bootstrap_trees_good (ref_tip_ids : IdNameVector)
    (add : BootstrapTree → Tree → BootstrapTree) (prepared : Tree → Tree)
    (rest : list (result Tree)) (good : list Tree) :
  (∀ s t, add_bootstrap_tree s t = Ok (add s t)) →
  (∀ t, t ∈ good → reset_tip_ids t ref_tip_ids = Main.reset_done (prepared t)) →
  ∀ (bs_num : Z) (sup_tree : BootstrapTree),
    0 ≤ bs_num → bs_num + Z.of_nat (length good) < uint_range →
    Main.read_bootstrap_trees reset_tip_ids add_bootstrap_tree ref_tip_ids
      ((Ok <$> good) ++ rest) bs_num sup_tree
    = Main.read_bootstrap_trees reset_tip_ids add_bootstrap_tree ref_tip_ids
        rest (bs_num + Z.of_nat (length good))
        (foldl add sup_tree (prepared <$> good)).
Proof.
  intros Hadd. induction good as [|t good IH]; intros Hgood bs_num sup_tree
    Hnum Hlen.
  - cbn [fmap list_fmap app length foldl]. by rewrite Z.add_0_r.
  - cbn [fmap list_fmap app length foldl Main.read_bootstrap_trees
         mbind result_bind].
    rewrite (Hgood t) by left. cbn [mbind result_bind].
    rewrite Hadd. cbn [mbind result_bind]. cbn [length] in Hlen.
    rewrite Z.mod_small by lia.
    rewrite IH; [|intros t' Ht'; apply Hgood; by right|lia|lia].
    f_equal. lia.
Qed.

End DrawBootstrapSupportFacts.

(** X23.  [draw_bootstrap_support] on a reference tree and a file of
    bootstrap trees, where adding a tree to the support tree does not fail.
    The trees are taken in the order of the file.  The first tree that does
    not fit the reference tree ends the function, with an error that gives
    the position of the tree in the file, counted from 1: "not compatible"
    when a tip label is unknown ([out_of_range]), "wrong number of tips"
    with the tip count of the tree when [invalid_argument] was thrown; this
    error comes before the one for a file of fewer than two trees.  When all
    trees fit, a file of fewer than two trees is refused, and otherwise the
    support is computed on the reference tree with all trees of the file
    added in order, and written. *)
Theorem draw_bootstrap_support_outcome
    {kernel : LikelihoodKernel}
    (tree_file bootstrap_trees_file support_tree_file : Options → string)
    (open_stream : string → list (result Tree)) (read_past_end : result Tree)
    {IdNameVector : Type} (tip_ids : Tree → IdNameVector)
    (reset_tip_ids : Tree → IdNameVector → Main.reset_tip_ids_outcome)
    {BootstrapTree : Type}
    (new_BootstrapTree : Tree → result BootstrapTree)
    (add_bootstrap_tree : BootstrapTree → Tree → result BootstrapTree)
    (calc_support : BootstrapTree → result BootstrapTree)
    (write_support_tree : string → BootstrapTree → result unit)
    (opts : Options) (ref_tree : Tree) (more : list (result Tree))
    (sup_tree : BootstrapTree) (add : BootstrapTree → Tree → BootstrapTree)
    (prepared : Tree → Tree) (good : list Tree) (rest : list (result Tree)) :
  let run :=
    Main.draw_bootstrap_support tree_file bootstrap_trees_file
      support_tree_file open_stream read_past_end tip_ids reset_tip_ids
      new_BootstrapTree add_bootstrap_tree calc_support write_support_tree
      opts in
  let position := pretty (Z.of_nat (length good) + 1) in
  open_stream (tree_file opts) = Ok ref_tree :: more →
  new_BootstrapTree ref_tree = Ok sup_tree →
  (∀ s t, add_bootstrap_tree s t = Ok (add s t)) →
  open_stream (bootstrap_trees_file opts) = (Ok <$> good) ++ rest →
  (∀ t, t ∈ good →
     reset_tip_ids t (tip_ids ref_tree) = Main.reset_done (prepared t)) →
  Z.of_nat (length good) + 1 < uint_range →
  (∀ t what others,
     rest = Ok t :: others →
     reset_tip_ids t (tip_ids ref_tree)
     = Main.reset_throw (out_of_range what) →
     run = Throw (runtime_error
                    ("Bootstrap tree #" +:+ position
                     +:+ " is not compatible with the reference tree!")))
  ∧ (∀ t left others,
       rest = Ok t :: others →
       reset_tip_ids t (tip_ids ref_tree) = Main.reset_invalid_argument left →
       run = Throw (runtime_error
                      ("Bootstrap tree #" +:+ position
                       +:+ " has wrong number of tips: "
                       +:+ pretty (num_tips left))))
  ∧ (rest = [] → (length good < 2)%nat →
     run = Throw (runtime_error
                    "You must provide a file with multiple bootstrap trees!"))
  ∧ (rest = [] → (2 ≤ length good)%nat →
     run = (sup_tree ← calc_support (foldl add sup_tree (prepared <$> good));
            _ ← write_support_tree (support_tree_file opts) sup_tree;
            Ok sup_tree)).
Proof.
  intros run position Href Hnew Hadd Hboots Hgood Hlen. subst run.
  unfold Main.draw_bootstrap_support.
  rewrite Href. cbn [mbind result_bind]. rewrite Hnew. cbn [mbind result_bind].
  rewrite Hboots.
  rewrite (read_bootstrap_trees_good reset_tip_ids add_bootstrap_tree
             (tip_ids ref_tree) add prepared rest good Hadd Hgood 0 sup_tree)
    by lia.
  rewrite Z.add_0_l.
  split; [|split; [|split]].
  - intros t what others -> Ht.
    cbn [Main.read_bootstrap_trees mbind result_bind]. rewrite Ht.
    cbn [mbind result_bind]. by rewrite Z.mod_small by lia.
  - intros t left others -> Ht.
    cbn [Main.read_bootstrap_trees mbind result_bind]. rewrite Ht.
    cbn [mbind result_bind]. by rewrite Z.mod_small by lia.
  - intros -> Hfew. cbn [Main.read_bootstrap_trees mbind result_bind].
    by destruct (Z.ltb_spec (Z.of_nat (length good)) 2); [|lia].
  - intros -> Hmany. cbn [Main.read_bootstrap_trees mbind result_bind].
    by destruct (Z.ltb_spec (Z.of_nat (length good)) 2); [lia|].
Qed.

(** A file whose second tree has a tip unknown to the reference tree: the
    error names tree 2, although the file has fewer than two trees that
    fit. *)
Lemma draw_bootstrap_support_outcome_witness :
  let tree4 := Fixtures.tree4 in
  let tree5 := {| pll_utree_root := pll_utree_root tree4; num_tips := 5 |} in
  Main.draw_bootstrap_support
    (fun _ => "ref.nwk"%string) (fun _ => "boots.nwk"%string)
    (fun _ => "out.nwk"%string)
    (fun file => if String.eqb file "ref.nwk" then [Ok tree4]
                 else [Ok tree4; Ok tree5])
    (Throw (runtime_error "end of stream"))
    num_tips
    (fun t n => if num_tips t =? n then Main.reset_done t
                else Main.reset_throw (out_of_range "map::at"))
    (fun t => Ok [t]) (fun s t => Ok (s ++ [t])) (fun s => Ok s)
    (fun _ _ => Ok ()) Fixtures.options
  = Throw (runtime_error
             "Bootstrap tree #2 is not compatible with the reference tree!").
Proof.
  intros tree4 tree5.
  refine (proj1 (draw_bootstrap_support_outcome
                   (fun _ => "ref.nwk"%string) (fun _ => "boots.nwk"%string)
                   (fun _ => "out.nwk"%string)
                   (fun file => if String.eqb file "ref.nwk" then [Ok tree4]
                                else [Ok tree4; Ok tree5])
                   (Throw (runtime_error "end of stream"))
                   num_tips
                   (fun t n => if num_tips t =? n then Main.reset_done t
                               else Main.reset_throw (out_of_range "map::at"))
                   (fun t => Ok [t]) (fun s t => Ok (s ++ [t])) (fun s => Ok s)
                   (fun _ _ => Ok ()) Fixtures.options
                   tree4 [] [tree4] (fun s t => s ++ [t]) (fun t => t)
                   [tree4] [Ok tree5]
                   eq_refl eq_refl (fun _ _ => eq_refl) eq_refl _ _)
                tree5 "map::at"%string [] eq_refl eq_refl).
  - intros t Hin. apply list_elem_of_singleton in Hin as ->. reflexivity.
  - vm_compute. reflexivity.
Defined.
